(** * tabs-ai: the storage, AI and tab-grouping services

    A shallow embedding of [src/services/storageService.ts],
    [src/services/aiService.ts] and [src/services/tabGrouper.ts], and of the
    submit handler of [src/options/options.ts].

    - JavaScript data is a small universe of values ([Js.value]); numbers are
      the integer-valued ones, strings are sequences of code units below 256.
      Reading a property of a plain object follows the prototype chain.
    - Asynchronous methods are computations over an explicit program state
      (the storage area, the log of host calls, the private fields of the
      service objects) that either complete normally or throw; an [await] is
      the sequencing of two computations.
    - The browser and the network are a parameter ([Host]): every answer of the
      host may depend on everything that happened before.
    - Writing to the console and to the log callbacks is left out: it has no
      part in the control flow. *)

From Stdlib Require Import ZArith String Ascii List Bool Lia DecimalString.
From stdpp Require Import base option list gmap strings.

Local Open Scope string_scope.
Local Open Scope Z_scope.

(** ** JavaScript values *)

Module Js.

(** [VBuiltin] stands for a function or object of the runtime itself, such
    as the members every plain object inherits from [Object.prototype]. *)
#[warnings="-register-all"]
Inductive value : Type :=
| VUndefined
| VNull
| VBool (b : bool)
| VNum (n : Z)
| VStr (s : string)
| VArr (items : list value)
| VObj (props : list (string * value))
| VBuiltin (name : string).

(** [!!v] *)
Definition truthy (v : value) : bool :=
  match v with
  | VUndefined | VNull => false
  | VBool b => b
  | VNum n => negb (n =? 0)
  | VStr s => match s with EmptyString => false | String _ _ => true end
  | VArr _ | VObj _ | VBuiltin _ => true
  end.

(** [typeof v === 'object'] ([null] included, as in JavaScript) *)
Definition typeof_object (v : value) : bool :=
  match v with
  | VNull | VArr _ | VObj _ => true
  | VBuiltin name => String.eqb name "__proto__"
  | _ => false
  end.

Definition typeof_string (v : value) : bool :=
  match v with VStr _ => true | _ => false end.

Definition typeof_number (v : value) : bool :=
  match v with VNum _ => true | _ => false end.

Definition isArray (v : value) : bool :=
  match v with VArr _ => true | _ => false end.

Definition is_undefined (v : value) : bool :=
  match v with VUndefined => true | _ => false end.

(** The names a plain object inherits from [Object.prototype]. *)
Definition object_prototype_names : list string :=
  [ "constructor"; "__defineGetter__"; "__defineSetter__"; "hasOwnProperty";
    "__lookupGetter__"; "__lookupSetter__"; "isPrototypeOf";
    "propertyIsEnumerable"; "toString"; "valueOf"; "__proto__";
    "toLocaleString" ].

Definition inherited (k : string) : bool :=
  existsb (String.eqb k) object_prototype_names.

Fixpoint own (k : string) (props : list (string * value)) : option value :=
  match props with
  | [] => None
  | (k', v) :: rest => if String.eqb k k' then Some v else own k rest
  end.

(** [o[k]] on a value that is neither [null] nor [undefined]: an own
    property, else what the prototype chain of a plain object gives.
    Arrays and primitives are only ever asked for names they do not have. *)
Definition get (o : value) (k : string) : value :=
  match o with
  | VObj props =>
      match own k props with
      | Some v => v
      | None => if inherited k then VBuiltin k else VUndefined
      end
  | _ => VUndefined
  end.

(** [a || b] *)
Definition or_else (a b : value) : value := if truthy a then a else b.

End Js.
Export Js.

(** ** Strings *)

Module JsString.

Definition code (c : ascii) : nat := nat_of_ascii c.

(** [String.prototype.toLowerCase] on code units below 256. *)
Definition lower_char (c : ascii) : ascii :=
  let n := code c in
  if ((65 <=? n) && (n <=? 90))%nat then ascii_of_nat (n + 32)
  else if ((192 <=? n) && (n <=? 222) && negb (n =? 215))%nat
       then ascii_of_nat (n + 32)
  else c.

Fixpoint toLowerCase (s : string) : string :=
  match s with
  | EmptyString => EmptyString
  | String c s' => String (lower_char c) (toLowerCase s')
  end.

Definition startsWith (s p : string) : bool := String.prefix p s.

(** [s.includes(needle)] *)
Fixpoint includes (s needle : string) : bool :=
  String.prefix needle s
  || match s with
     | EmptyString => false
     | String _ s' => includes s' needle
     end.

(** White space and line terminators, the class of [trim] and of [\s]. *)
Definition is_space (c : ascii) : bool :=
  let n := code c in
  (((9 <=? n) && (n <=? 13)) || (n =? 32) || (n =? 160))%nat.

(** [\w] *)
Definition is_word (c : ascii) : bool :=
  let n := code c in
  (((48 <=? n) && (n <=? 57)) || ((65 <=? n) && (n <=? 90))
   || ((97 <=? n) && (n <=? 122)) || (n =? 95))%nat.

Fixpoint trimStart (s : string) : string :=
  match s with
  | String c s' => if is_space c then trimStart s' else s
  | EmptyString => EmptyString
  end.

(** Drops the white space at the end: a space is kept exactly when
    something that is kept follows it. *)
Fixpoint trimEnd (s : string) : string :=
  match s with
  | EmptyString => EmptyString
  | String c s' =>
      match trimEnd s' with
      | EmptyString => if is_space c then EmptyString else String c EmptyString
      | t => String c t
      end
  end.

Definition trim (s : string) : string := trimEnd (trimStart s).

End JsString.

(** ** Numbers as text, and strict equality with a string *)

Module JsOps.

(** [String(n)], as in ['test_value_' + Date.now()], for an integer: its
    decimal digits (an integer below 10^21 is never written with an
    exponent). *)
Definition toString (n : Z) : string :=
  NilZero.string_of_int (Z.to_int n).

(** [v === s] for a string [s] *)
Definition equalsString (v : value) (s : string) : bool :=
  match v with
  | VStr t => String.eqb t s
  | _ => false
  end.

(** [v === null] *)
Definition is_null (v : value) : bool :=
  match v with
  | VNull => true
  | _ => false
  end.

(** [s.substring(0, n)] *)
Definition substringTo (n : nat) (s : string) : string := String.substring 0 n s.

End JsOps.

(** ** Regular expressions

    The patterns of the program are sequences of character classes, some of
    them under a greedy star; [( )] groups only matter for the replacement
    text. Matching backtracks as the JavaScript matcher does: a star first
    takes as much as it can and gives characters back one at a time. *)

Module Regex.
Import JsString.

Inductive atom : Type :=
| One (cls : ascii -> bool)
| Star (cls : ascii -> bool).

(** The text matched by each atom of [p] at the start of [s], and what is left
    of [s]. *)
Fixpoint match_here (p : list atom) (s : string) {struct p}
  : option (list string * string) :=
  match p with
  | [] => Some ([], s)
  | One cls :: p' =>
      match s with
      | String c s' =>
          if cls c
          then match match_here p' s' with
               | Some (ms, r) => Some (String c EmptyString :: ms, r)
               | None => None
               end
          else None
      | EmptyString => None
      end
  | Star cls :: p' =>
      (fix star (s : string) : option (list string * string) :=
         let stop := match match_here p' s with
                     | Some (ms, r) => Some (EmptyString :: ms, r)
                     | None => None
                     end in
         match s with
         | String c s' =>
             if cls c
             then match star s' with
                  | Some (m :: ms, r) => Some (String c m :: ms, r)
                  | _ => stop
                  end
             else stop
         | EmptyString => stop
         end) s
  end.

Definition matched (ms : list string) : string := String.concat "" ms.

(** [s.match(p)] for a pattern without the [g] flag: the first match, scanning
    from the left. *)
Fixpoint search (p : list atom) (s : string) : option string :=
  match match_here p s with
  | Some (ms, _) => Some (matched ms)
  | None =>
      match s with
      | String _ s' => search p s'
      | EmptyString => None
      end
  end.

(** [s.replace(p, tpl)] for a pattern with the [g] flag. [skip] counts the
    characters still covered by the previous match. Every pattern of the
    program starts with a mandatory character, so no match is empty. *)
Fixpoint replace_from (p : list atom) (tpl : list string -> string)
    (s : string) (skip : nat) : string :=
  match s with
  | EmptyString => EmptyString
  | String c s' =>
      match skip with
      | S k => replace_from p tpl s' k
      | O =>
          match match_here p s with
          | Some (ms, _) =>
              match String.length (matched ms) with
              | S k => tpl ms +:+ replace_from p tpl s' k
              | O => String c (replace_from p tpl s' 0)
              end
          | None => String c (replace_from p tpl s' 0)
          end
      end
  end.

Definition replace_all (p : list atom) (tpl : list string -> string)
    (s : string) : string :=
  replace_from p tpl s 0.

Definition piece (i : nat) (ms : list string) : string := nth i ms EmptyString.

Definition chr (c : ascii) : ascii -> bool := Ascii.eqb c.
Definition any : ascii -> bool := fun _ => true.
Definition one_of (a b : ascii) : ascii -> bool :=
  fun c => Ascii.eqb c a || Ascii.eqb c b.
Definition is_not (c : ascii) : ascii -> bool := fun x => negb (Ascii.eqb x c).

End Regex.

(** ** The JSON repair of [AIService.analyzeTabs] (lines 132-144) *)

Module Repair.
Import JsString Regex.

Definition dquote : ascii := ascii_of_nat 34.
Definition squote : ascii := ascii_of_nat 39.
Definition dq : string := String dquote EmptyString.

(** [/\{[\s\S]*\}/] *)
Definition braces : list atom := [One (chr "{"); Star any; One (chr "}")].

(** [/,(\s*[}\]])/g] *)
Definition trailing_comma : list atom :=
  [One (chr ","); Star is_space; One (one_of "}" "]")].

(** [/([{,]\s* )(\w+):/g], written here with a blank after the star *)
Definition unquoted_key : list atom :=
  [One (one_of "{" ","); Star is_space; One is_word; Star is_word; One (chr ":")].

(** [/:\s*'([^']* )'/g], written here with a blank after the second star *)
Definition single_quoted : list atom :=
  [One (chr ":"); Star is_space; One (chr squote); Star (is_not squote);
   One (chr squote)].

(** [const jsonMatch = cleanedContent.match(...); if (jsonMatch) ...] *)
Definition extractJson (s : string) : string :=
  match search braces s with
  | Some m => m
  | None => s
  end.

(** [.replace(/,(\s*[}\]])/g, '$1')] *)
Definition removeTrailingCommas (s : string) : string :=
  replace_all trailing_comma (fun ms => piece 1 ms +:+ piece 2 ms) s.

(** The second [.replace], of an unquoted key by [$1], the key in double
    quotes, and a colon *)
Definition quoteKeys (s : string) : string :=
  replace_all unquoted_key
    (fun ms => piece 0 ms +:+ piece 1 ms +:+ dq +:+ piece 2 ms +:+ piece 3 ms
               +:+ dq +:+ ":") s.

(** The third [.replace], of a single-quoted value by a colon, a blank and
    [$1] in double quotes *)
Definition doubleQuoteValues (s : string) : string :=
  replace_all single_quoted (fun ms => ": " +:+ dq +:+ piece 3 ms +:+ dq) s.

Definition repair (content : string) : string :=
  doubleQuoteValues (quoteKeys (removeTrailingCommas (extractJson (trim content)))).

End Repair.

(** ** Computations, program state and the host *)

Module Effects.

Inductive exn : Type :=
| Error (msg : string)
| TypeError (msg : string)
| ReferenceError (msg : string)
| SyntaxError (msg : string).

(** How the evaluation of a statement ends. *)
Inductive completion (A : Type) : Type :=
| Normal (a : A)
| Throw (e : exn).
Arguments Normal {A} a.
Arguments Throw {A} e.

(** The calls the services make to the browser and the network. *)
Inductive Call : Type :=
| StorageGet (key : string)
| StorageSet (key : string) (v : value)
| StorageRemove (key : string)
| Fetch (url : string) (bearer : value) (tabs : list value)
| ResponseText
| ResponseJson
| TabsQuery (viaWindowBrowser : bool)
| TabGroupsQuery
| TabsUngroup (tabIds : list Z)
| TabsGroup (tabIds : list Z)
| TabGroupsUpdate (groupId : Z) (title color : string)
| SetTimeout (ms : Z).

(** [store] is the content of the storage area the [StorageService] is bound
    to, [trace] the calls made so far, oldest first; [apiKey] and [tabGroups]
    are the private fields of [AIService] and [TabGrouper]. *)
Record State : Type := mkState {
  store : gmap string value;
  trace : list Call;
  apiKey : value;
  tabGroups : list (string * list value)
}.

Definition record_call (c : Call) (s : State) : State :=
  mkState (store s) (trace s ++ [c]) (apiKey s) (tabGroups s).

Definition with_store (m : gmap string value) (s : State) : State :=
  mkState m (trace s) (apiKey s) (tabGroups s).

Definition with_apiKey (v : value) (s : State) : State :=
  mkState (store s) (trace s) v (tabGroups s).

Definition with_tabGroups (g : list (string * list value)) (s : State) : State :=
  mkState (store s) (trace s) (apiKey s) g.

(** A computation: a state transformer that returns or throws. What was done
    before a [throw] stays done. *)
Definition M (A : Type) : Type := State -> completion A * State.

#[export] Instance M_ret : MRet M := fun A a s => (Normal a, s).

#[export] Instance M_bind : MBind M := fun A B f m s =>
  match m s with
  | (Normal a, s') => f a s'
  | (Throw e, s') => (Throw e, s')
  end.

Definition throw {A : Type} (e : exn) : M A := fun s => (Throw e, s).

(** [try { m } catch (e) { h e }] *)
Definition try_catch {A : Type} (m : M A) (h : exn -> M A) : M A := fun s =>
  match m s with
  | (Normal a, s') => (Normal a, s')
  | (Throw e, s') => h e s'
  end.

Definition modify (f : State -> State) : M unit := fun s => (Normal tt, f s).
Definition gets {A : Type} (f : State -> A) : M A := fun s => (Normal (f s), s).

(** A call to the host: the host answers from the state it is called in, and
    the call is appended to the trace. *)
Definition host_call {A : Type} (c : Call) (answer : State -> completion A) : M A :=
  fun s => (answer s, record_call c s).

Record Response : Type := {
  ok : bool;
  status : Z;
  statusText : string;
  text : completion string;   (* [await response.text()] *)
  json : completion value     (* [await response.json()] *)
}.

(** A tab as [tabs.query] reports it, and a native tab group. *)
Record BrowserTab : Type := { tab_id : option Z; tab_groupId : Z }.
Record TabGroup : Type := { group_id : Z; group_title : string }.

(** The runtime the extension runs in. Built-ins of the language come first,
    then the storage area's error report ([chrome.runtime.lastError] in the
    callback of the call), the network, and the tabs API as seen through
    [browserAPI] of [tabGrouper.ts]. *)
Record Host : Type := {
  JSON_parse : string -> option value;
  URL_hostname : string -> option string;
  Date_now : State -> Z;
  lastError : State -> Call -> option string;
  fetch : State -> string -> value -> list value -> completion Response;
  api_present : bool;
  api_tabs : bool;
  api_tabs_group : bool;
  api_tabGroups : bool;
  api_tabGroups_query : bool;
  api_tabGroups_update : bool;
  window_browser_tabs : bool;
  tabs_query : State -> bool -> completion (list BrowserTab);
  tabGroups_query : State -> completion (list TabGroup);
  tabs_ungroup : State -> list Z -> completion unit;
  tabs_group : State -> list Z -> completion Z;
  tabGroups_update : State -> Z -> string -> string -> completion unit
}.

End Effects.
Export Effects.

(** ** storageService.ts *)

Module StorageService.

(** What the module and the constructor look at in the global scope. *)
Record StorageNamespace : Type := { local : bool; sync : bool }.
Record BrowserApi : Type := { storage : option StorageNamespace }.
Record Window : Type := {
  window_browser : option BrowserApi;
  window_chrome : option BrowserApi
}.
Record Globals : Type := { chrome : option BrowserApi; window : option Window }.

Inductive Area : Type := AreaLocal | AreaSync.

Definition with_storage (api : option BrowserApi) : bool :=
  match api with
  | Some a => match storage a with Some _ => true | None => false end
  | None => false
  end.

(** Lines 2-13: the module-level [browserAPI]. Reading [window] where there is
    none is a [ReferenceError]. *)
Definition browserAPI (g : Globals) : completion (option BrowserApi) :=
  if with_storage (chrome g) then Normal (chrome g)
  else match window g with
       | None => Throw (ReferenceError "window is not defined")
       | Some w =>
           if with_storage (window_browser w) then Normal (window_browser w)
           else if with_storage (window_chrome w) then Normal (window_chrome w)
           else Normal None
       end.

(** Lines 18-43: which area [this.storage] is bound to. *)
Definition constructor (api : option BrowserApi) : completion Area :=
  match api with
  | None => Throw (Error "Browser API not available")
  | Some a =>
      match storage a with
      | None => Throw (Error "Browser storage API not available")
      | Some ns =>
          if local ns then Normal AreaLocal
          else if sync ns then Normal AreaSync
          else Throw (Error "No storage API available")
      end
  end.

(** Loading the module, then [new StorageService()]. *)
Definition new_StorageService (g : Globals) : completion Area :=
  match browserAPI g with
  | Normal api => constructor api
  | Throw e => Throw e
  end.

Section Methods.
Context (host : Host).

(** The storage area of the browser: a finite map from keys to JSON data.
    [get] answers with an object that has the key when it is stored; a
    property whose value is [undefined] is not stored by [set]; a call that
    reports [lastError] changes nothing. The promise wrappers of the methods
    reject with that error. *)
Definition area_get (key : string) : M value :=
  host_call (StorageGet key) (fun s =>
    match lastError host s (StorageGet key) with
    | Some msg => Throw (Error msg)
    | None =>
        Normal (VObj match store s !! key with
                     | Some v => [(key, v)]
                     | None => []
                     end)
    end).

Definition area_set (key : string) (v : value) : M unit := fun s =>
  match lastError host s (StorageSet key v) with
  | Some msg => (Throw (Error msg), record_call (StorageSet key v) s)
  | None =>
      (Normal tt,
       record_call (StorageSet key v)
         (if is_undefined v then s else with_store (<[key := v]> (store s)) s))
  end.

Definition area_remove (key : string) : M unit := fun s =>
  match lastError host s (StorageRemove key) with
  | Some msg => (Throw (Error msg), record_call (StorageRemove key) s)
  | None =>
      (Normal tt,
       record_call (StorageRemove key) (with_store (delete key (store s)) s))
  end.

(** Lines 74-94 *)
Definition saveSetting (key : string) (v : value) : M unit :=
  try_catch (area_set key v) (fun error => throw error).

(** Lines 96-124 *)
Definition getSetting (key : string) : M value :=
  try_catch
    (result ← area_get key;
     if negb (truthy result) || negb (typeof_object result) then mret VNull
     else
       let value := Js.get result key in
       mret (if is_undefined value then VNull else value))
    (fun _ => mret VNull).

(** Lines 126-146 *)
Definition removeSetting (key : string) : M unit :=
  try_catch (area_remove key) (fun error => throw error).

(** Lines 157-163 *)
Definition get (key : string) : M value := getSetting key.
Definition set (key : string) (v : value) : M unit := saveSetting key v.

End Methods.

Section Test.
Context (host : Host).

(** Lines 166-195 *)
Definition testStorage : M bool :=
  try_catch
    (let testKey := "storage_test" in
     now ← gets (Date_now host);
     let testValue := "test_value_" +:+ JsOps.toString now in
     saveSetting host testKey (VStr testValue);;
     retrievedValue ← getSetting host testKey;
     removeSetting host testKey;;
     verifyRemove ← getSetting host testKey;
     mret (JsOps.equalsString retrievedValue testValue && JsOps.is_null verifyRemove))
    (fun _ => mret false).

End Test.

Section Bulk.
Context (host : Host).

(** [storage.get(null, ...)] and [storage.clear()] are not among the calls the
    trace records. Whether they fail is for the browser to say, from the
    state they are called in: [readAllError] is the [lastError] of a bulk
    read, [clearError] the rejection of a [clear()]. A bulk read answers with
    an object that has every stored key, in some order; a [clear()] that
    does not fail empties the area. *)
Context (readAllError : State -> option string).
Context (clearError : State -> option exn).

Definition area_get_all : M value := fun s =>
  match readAllError s with
  | Some msg => (Throw (Error msg), s)
  | None => (Normal (VObj (map_to_list (store s))), s)
  end.

Definition area_clear : M unit := fun s =>
  match clearError s with
  | Some e => (Throw e, s)
  | None => (Normal tt, with_store ∅ s)
  end.

(** Lines 45-72 *)
Definition getSettings : M value :=
  try_catch
    (result ← area_get_all;
     if negb (truthy result) || negb (typeof_object result) then mret (VObj [])
     else mret result)
    (fun _ => mret (VObj [])).

(** Lines 148-154 *)
Definition clearAllSettings : M unit :=
  try_catch area_clear (fun _ => mret tt).

End Bulk.

End StorageService.

(** ** aiService.ts *)

Module AIService.
Import JsString.

Record Group : Type := { subject : value; tabs : list value }.
Record AIResponse : Type := { groups : list Group; suggestions : list value }.

#[export] Instance completion_ret : MRet completion := fun A a => Normal a.

#[export] Instance completion_bind : MBind completion := fun A B f c =>
  match c with
  | Normal a => f a
  | Throw e => Throw e
  end.

(** A computation that does not touch the state. *)
Definition lift {A : Type} (c : completion A) : M A := fun s => (c, s).

(** *** Plain objects used as dictionaries

    [own] are the properties [createFallbackGrouping] has put into [groups],
    in creation order. Reading [groups[k]] finds an own property, or else
    what [{}] inherits from [Object.prototype]. *)
Inductive slot : Type :=
| Missing
| Own (items : list value)
| Inherited.

Fixpoint own_items (k : string) (own : list (string * list value))
  : option (list value) :=
  match own with
  | [] => None
  | (k', items) :: rest => if String.eqb k k' then Some items else own_items k rest
  end.

Definition lookup (own : list (string * list value)) (k : string) : slot :=
  match own_items k own with
  | Some items => Own items
  | None => if Js.inherited k then Inherited else Missing
  end.

(** [groups[k] = items] for a key that is not [__proto__]: an existing own
    property keeps its place, a new one comes last. *)
Fixpoint assign (k : string) (items : list value) (own : list (string * list value))
  : list (string * list value) :=
  match own with
  | [] => [(k, items)]
  | (k', old) :: rest =>
      if String.eqb k k' then (k', items) :: rest
      else (k', old) :: assign k items rest
  end.

(** [Object.entries]: the keys that are array indices come first, in
    ascending numeric order, then the other keys in creation order. *)
Definition is_digit (c : ascii) : bool :=
  ((48 <=? code c) && (code c <=? 57))%nat.

Fixpoint decimal (s : string) (acc : N) : option N :=
  match s with
  | EmptyString => Some acc
  | String c s' =>
      if is_digit c
      then decimal s' (acc * 10 + N.of_nat (code c - 48))%N
      else None
  end.

Definition array_index (k : string) : option N :=
  match k with
  | EmptyString => None
  | String c rest =>
      if Ascii.eqb c "0" && negb (String.eqb rest "") then None
      else match decimal k 0%N with
           | Some n => if (n <? 4294967295)%N then Some n else None
           | None => None
           end
  end.

Fixpoint insert_by_index {A : Type} (n : N) (e : string * A)
    (sorted : list (N * (string * A))) : list (N * (string * A)) :=
  match sorted with
  | [] => [(n, e)]
  | (m, e') :: rest =>
      if (n <? m)%N then (n, e) :: (m, e') :: rest
      else (m, e') :: insert_by_index n e rest
  end.

Fixpoint indexed {A : Type} (own : list (string * A)) : list (N * (string * A)) :=
  match own with
  | [] => []
  | (k, a) :: rest =>
      match array_index k with
      | Some n => insert_by_index n (k, a) (indexed rest)
      | None => indexed rest
      end
  end.

Fixpoint named {A : Type} (own : list (string * A)) : list (string * A) :=
  match own with
  | [] => []
  | (k, a) :: rest =>
      match array_index k with
      | Some _ => named rest
      | None => (k, a) :: named rest
      end
  end.

Definition entries {A : Type} (own : list (string * A)) : list (string * A) :=
  map snd (indexed own) ++ named own.

(** Line 38: [apiKey.startsWith('sk-') && apiKey.length > 20] *)
Definition validFormat (k : string) : bool :=
  startsWith k "sk-" && (20 <? String.length k)%nat.

Section Service.
Context (host : Host).

(** Lines 30-49 *)
Definition getApiKey : M value :=
  key ← StorageService.get host "openai_api_key";
  modify (with_apiKey key);;
  match key with
  | VStr k =>
      if truthy key then
        if validFormat k then mret key
        else
          modify (with_apiKey VNull);;
          StorageService.removeSetting host "openai_api_key";;
          mret VNull
      else gets apiKey
  | _ => gets apiKey
  end.

(** Lines 51-54 *)
Definition setApiKey (key : string) : M unit :=
  modify (with_apiKey (VStr key));;
  StorageService.set host "openai_api_key" (VStr key).

(** [v.toLowerCase()] on a value that is not [null] or [undefined] *)
Definition toLowerCase_of (v : value) : completion string :=
  match v with
  | VStr s => Normal (toLowerCase s)
  | VUndefined | VNull =>
      Throw (TypeError "Cannot read properties of undefined (reading 'toLowerCase')")
  | _ => Throw (TypeError "toLowerCase is not a function")
  end.

(** Lines 283-290 *)
Definition extractDomain (url : string) : string :=
  match URL_hostname host url with
  | Some hostname => hostname
  | None => "Other"
  end.

(** Lines 223-281 *)
Definition categorizeTab (tab : value) : completion string :=
  title ← toLowerCase_of (Js.get tab "title");
  url ← toLowerCase_of (Js.get tab "url");
  if includes title "whatsapp" || includes title "outlook" || includes title "calendar"
     || includes title "gmail" || includes title "slack" || includes title "discord"
     || includes title "linkedin" || includes url "linkedin" || includes url "whatsapp"
     || includes url "outlook" || includes url "mail"
  then Normal "Communication & Social"
  else if includes title "github" || includes title "api" || includes title "documentation"
     || includes title "docs" || includes title "developer" || includes url "github"
     || includes url "developer" || includes url "docs" || includes title "chrome.tabs"
     || includes title "trpc" || includes title "next.js" || includes title "chakra"
  then Normal "Development & Documentation"
  else if includes title "chatgpt" || includes title "openai" || includes title "cursor"
     || includes title "ultracite" || includes url "chatgpt" || includes url "openai"
     || includes url "cursor" || includes url "ultracite"
  then Normal "AI Tools & Platforms"
  else if includes title "google search" || includes title "search"
     || includes url "google.com/search"
  then
    if includes title "optical" || includes url "optical"
    then Normal "Research: Optical Technology"
    else if includes title "shiphats" || includes title "gitlab"
    then Normal "Research: Development Tools"
    else Normal "Research & Information"
  else if includes url "gov.sg" || includes title "singapore government"
     || includes title "optical documentation" || includes title "pricing"
  then Normal "Government & Official Documentation"
  else if includes title "uuid" || includes title "generator" || includes title "cuid"
     || includes title "vercel" || includes title "template" || includes url "localhost"
  then Normal "Development Tools & Utilities"
  else if includes url "about:" || includes url "moz-extension"
     || includes url "chrome-extension" || includes title "extension"
     || includes title "debugging"
  then Normal "Browser & Extensions"
  else
    match Js.get tab "url" with
    | VStr raw => Normal (extractDomain raw)
    | _ => Normal "Other"
    end.

(** Line 198: the tabs the [forEach] callback does not skip. *)
Definition usable (tab : value) : bool :=
  truthy tab && typeof_object tab
  && truthy (Js.get tab "url") && truthy (Js.get tab "title").

(** Lines 205-208 *)
Definition push (category : string) (tab : value) (own : list (string * list value))
  : completion (list (string * list value)) :=
  let own1 :=
    match lookup own category with
    | Missing => assign category [] own
    | _ => own
    end in
  match lookup own1 category with
  | Own items => Normal (assign category (items ++ [tab]) own1)
  | Inherited => Throw (TypeError "groups[category].push is not a function")
  | Missing =>
      Throw (TypeError "Cannot read properties of undefined (reading 'push')")
  end.

(** Lines 197-209: [tabs.forEach(...)] *)
Fixpoint collect (tabs : list value) (own : list (string * list value))
  : completion (list (string * list value)) :=
  match tabs with
  | [] => Normal own
  | tab :: rest =>
      if usable tab then
        category ← categorizeTab tab;
        own' ← push category tab own;
        collect rest own'
      else collect rest own
  end.

Definition group_of (entry : string * list value) : Group :=
  {| subject := VStr (fst entry); tabs := snd entry |}.

(** Lines 174-221 *)
Definition createFallbackGrouping (tabs : value) : completion (list AIResponse) :=
  match tabs with
  | VArr [] =>
      Normal [ {| groups := [];
                  suggestions := [VStr "No tabs available for grouping - empty array"] |} ]
  | VArr items =>
      own ← collect items [];
      Normal [ {| groups := map group_of (entries own);
                  suggestions := [VStr "Group by semantic topic";
                                  VStr "Group by work context";
                                  VStr "Group by purpose and function"] |} ]
  | _ =>
      Normal [ {| groups := [];
                  suggestions :=
                    [VStr "No tabs available for grouping - input was not an array"] |} ]
  end.

(** Lines 426-442 and 502-518: the callback of [groups.map]. *)
Definition formatGroup (group : value) : Group :=
  if negb (truthy group) then {| subject := VStr "Unknown"; tabs := [] |}
  else
    {| subject := or_else (Js.get group "subject") (VStr "Unknown");
       tabs := match Js.get group "tabs" with
               | VArr items => items
               | _ => []
               end |}.

Definition array_or_empty (v : value) : list value :=
  match v with
  | VArr items => items
  | _ => []
  end.

(** Lines 473-527: the loop over an array response. *)
Fixpoint validateItems (items : list value) (validated : list AIResponse)
  : list AIResponse :=
  match items with
  | [] => validated
  | item :: rest =>
      if negb (truthy item) || negb (typeof_object item)
      then validateItems rest validated
      else
        match Js.get item "groups" with
        | VArr gs =>
            validateItems rest
              (validated ++
               [ {| groups := map formatGroup gs;
                    suggestions := array_or_empty (Js.get item "suggestions") |} ])
        | _ =>
            validateItems rest
              (validated ++
               [ {| groups := [];
                    suggestions := array_or_empty (Js.get item "suggestions") |} ])
        end
  end.

(** Lines 400-536 *)
Definition validateAndFormatResponse (groupedTabs tabs : value)
  : completion (list AIResponse) :=
  if truthy groupedTabs && typeof_object groupedTabs && negb (isArray groupedTabs)
  then
    match Js.get groupedTabs "groups" with
    | VArr gs =>
        Normal [ {| groups := map formatGroup gs;
                    suggestions := array_or_empty (Js.get groupedTabs "suggestions") |} ]
    | _ => createFallbackGrouping tabs
    end
  else
    match groupedTabs with
    | VArr items =>
        match validateItems items [] with
        | [] => createFallbackGrouping tabs
        | validatedResponse => Normal validatedResponse
        end
    | _ => createFallbackGrouping tabs
    end.

Definition OPENAI_URL : string := "https://api.openai.com/v1/chat/completions".

Definition KEY_NOT_FOUND : exn :=
  Error "OpenAI API key not found. Please set your API key in the extension options.".

(** Lines 81-87: the callback of [tabs.map]. *)
Definition mapTab (tab : value) : value :=
  if negb (truthy tab)
  then VObj [("id", VNum 0); ("title", VStr "Unknown"); ("url", VStr "about:blank")]
  else VObj [("id", Js.get tab "id"); ("title", Js.get tab "title");
             ("url", Js.get tab "url")].

(** [v[k]], which throws on [null] and [undefined]; [v?.[k]], which does not. *)
Definition member (v : value) (k : string) : completion value :=
  match v with
  | VUndefined | VNull =>
      Throw (TypeError "Cannot read properties of undefined")
  | _ => Normal (Js.get v k)
  end.

Definition optional_member (v : value) (k : string) : value :=
  match v with
  | VUndefined | VNull => VUndefined
  | _ => Js.get v k
  end.

(** [choices[0]] *)
Definition first (choices : value) : completion value :=
  match choices with
  | VUndefined | VNull =>
      Throw (TypeError "Cannot read properties of undefined (reading '0')")
  | VArr (x :: _) => Normal x
  | VStr (String c _) => Normal (VStr (String c EmptyString))
  | VObj _ => Normal (Js.get choices "0")
  | _ => Normal VUndefined
  end.

(** Line 122: [data.choices[0]?.message?.content || ''] *)
Definition contentOf (data : value) : completion value :=
  choices ← member data "choices";
  choice ← first choices;
  Normal (or_else (optional_member (optional_member choice "message") "content")
                  (VStr "")).

(** A method of strings called on a value that may not be a string:
    [content.trim()], [content.substring(0, 200)]. *)
Definition as_string (method : string) (v : value) : completion string :=
  match v with
  | VStr s => Normal s
  | _ => Throw (TypeError (method +:+ " is not a function"))
  end.

Definition parse (s : string) : completion value :=
  match JSON_parse host s with
  | Some v => Normal v
  | None => Throw (SyntaxError "Unexpected token in JSON")
  end.

(** Lines 130-158: repair, parse, validate; on any exception the fallback.
    The handler reads [content.substring(0, 200)] for its log line. *)
Definition parseContent (content tabs : value) : M (list AIResponse) :=
  try_catch
    (text ← lift (as_string "content.trim" content);
     groupedTabs ← lift (parse (Repair.repair text));
     lift (validateAndFormatResponse groupedTabs tabs))
    (fun parseError =>
       _ ← lift (as_string "content.substring" content);
       lift (createFallbackGrouping tabs)).

(** Lines 56-172. The request is recorded with its URL, the key it bears and
    the tabs it lists; model, prompts and token limit are constants. The
    error for a response that is not OK is caught below and only logged; its
    message is given without the status number. *)
Definition analyzeTabs (tabs : value) : M (list AIResponse) :=
  if negb (isArray tabs) then lift (createFallbackGrouping (VArr []))
  else
    key ← getApiKey;
    if negb (truthy key) then throw KEY_NOT_FOUND
    else
      try_catch
        (if negb (truthy tabs) || negb (isArray tabs)
         then lift (createFallbackGrouping (VArr []))
         else
           let mappedTabs := map mapTab (array_or_empty tabs) in
           response ← host_call (Fetch OPENAI_URL key mappedTabs)
                        (fun s => fetch host s OPENAI_URL key mappedTabs);
           if negb (ok response) then
             errorText ← host_call ResponseText (fun _ => text response);
             throw (Error ("OpenAI API error: " +:+ statusText response
                           +:+ " - " +:+ errorText))
           else
             data ← host_call ResponseJson (fun _ => json response);
             content ← lift (contentOf data);
             if negb (truthy content) then lift (createFallbackGrouping tabs)
             else parseContent content tabs)
        (fun error => lift (createFallbackGrouping (or_else tabs (VArr [])))).

(** Lines 539-541 *)
Definition testFallbackGrouping (tabs : value) : M (list AIResponse) :=
  lift (createFallbackGrouping tabs).

End Service.

(** Lines 336-354 *)
Definition getTabContent (tab : value) : value :=
  if negb (truthy tab) || negb (typeof_object tab)
  then VObj [("id", VNum 0); ("title", VStr "Unknown Tab"); ("url", VStr "about:blank")]
  else VObj [("id", or_else (Js.get tab "id") (VNum 0));
             ("title", or_else (Js.get tab "title") (VStr "Unknown Tab"));
             ("url", or_else (Js.get tab "url") (VStr "about:blank"))].

Section Topics.
Context (host : Host).

(** [JSON.parse(content)] where [content] need not be a string: what is not a
    string is first turned into one, by the language; [parseCoerced] is the
    outcome for such a value. *)
Context (parseCoerced : value -> option value).

Definition parseAny (content : value) : completion value :=
  match content with
  | VStr s => parse host s
  | _ =>
      match parseCoerced content with
      | Some v => Normal v
      | None => Throw (SyntaxError "Unexpected token in JSON")
      end
  end.

(** Lines 292-334. The request is recorded with its URL, the key it bears and
    the address it asks about. *)
Definition analyzeTabContent (url : string) : M value :=
  key ← getApiKey host;
  if negb (truthy key) then throw KEY_NOT_FOUND
  else
    try_catch
      (response ← host_call (Fetch OPENAI_URL key [VStr url])
                    (fun s => fetch host s OPENAI_URL key [VStr url]);
       if negb (ok response) then
         throw (Error ("OpenAI API error: " +:+ statusText response))
       else
         data ← host_call ResponseJson (fun _ => json response);
         content ← lift (contentOf data);
         try_catch (lift (parseAny content))
           (fun _ => mret (VArr [VStr (extractDomain host url)])))
      (fun _ => mret (VArr [VStr (extractDomain host url)])).

(** Lines 356-398. The request is recorded with the first 1000 characters of
    the content, which is what it carries. *)
Definition analyzeContent (content : string) : M value :=
  key ← getApiKey host;
  if negb (truthy key) then throw KEY_NOT_FOUND
  else
    let excerpt := JsOps.substringTo 1000 content in
    try_catch
      (response ← host_call (Fetch OPENAI_URL key [VStr excerpt])
                    (fun s => fetch host s OPENAI_URL key [VStr excerpt]);
       if negb (ok response) then
         throw (Error ("OpenAI API error: " +:+ statusText response))
       else
         data ← host_call ResponseJson (fun _ => json response);
         content_response ← lift (contentOf data);
         try_catch (lift (parseAny content_response))
           (fun _ => mret (VArr [VStr "General"])))
      (fun _ => mret (VArr [VStr "General"])).

End Topics.

End AIService.

(** ** tabGrouper.ts *)

Module TabGrouper.

(** What a caller passes for [groupedTabs]: a [Map], whose entries are listed
    in iteration order, or something else. *)
Inductive argument : Type :=
| NotAMap
| AMap (entries : list (string * value)).

(** [Map.prototype.set]: a key that is present keeps its place. *)
Fixpoint map_set (k : string) (items : list value) (m : list (string * list value))
  : list (string * list value) :=
  match m with
  | [] => [(k, items)]
  | (k', old) :: rest =>
      if String.eqb k k' then (k', items) :: rest
      else (k', old) :: map_set k items rest
  end.

(** [obj[k] = v] on a plain object; assigning an object to [__proto__]
    changes the prototype and creates no property. *)
Fixpoint obj_assign (k : string) (v : value) (props : list (string * value))
  : list (string * value) :=
  match props with
  | [] => if String.eqb k "__proto__" then [] else [(k, v)]
  | (k', old) :: rest =>
      if String.eqb k k' then (k', v) :: rest
      else (k', old) :: obj_assign k v rest
  end.

Definition colors : list string :=
  ["blue"; "red"; "yellow"; "green"; "pink"; "purple"; "cyan"; "grey"].

(** Lines 383-388 *)
Definition getGroupColor (groupName : string) : string :=
  nth (String.length groupName mod List.length colors) colors "blue".

(** Lines 292-294: [tabs.map(tab => tab && tab.id).filter(...)] *)
Definition idOf (tab : value) : value :=
  if truthy tab then Js.get tab "id" else tab.

Definition number (v : value) : option Z :=
  match v with
  | VNum n => Some n
  | _ => None
  end.

Definition tabIds (tabs : list value) : list Z := omap number (map idOf tabs).

(** Lines 253-259: one round of the loop that fills [this.tabGroups]. *)
Definition remember (m : list (string * list value)) (entry : string * value)
  : list (string * list value) :=
  match entry with
  | (String _ _ as groupName, VArr tabs) => map_set groupName tabs m
  | _ => m
  end.

Section Grouper.
Context (host : Host).

(** Line 262: [browserAPI && browserAPI.tabs && browserAPI.tabs.group] *)
Definition supportsTabGroups : bool :=
  api_present host && api_tabs host && api_tabs_group host.

(** Lines 356-357 *)
Definition tabIdsInGroup (allTabs : list BrowserTab) (group : TabGroup) : list Z :=
  omap tab_id (List.filter (fun tab => tab_groupId tab =? group_id group) allTabs).

(** Lines 354-370: one round of the ungrouping loop. *)
Definition ungroupOne (allTabs : list BrowserTab) (group : TabGroup) : M unit :=
  try_catch
    (let ids := tabIdsInGroup allTabs group in
     match ids with
     | _ :: _ => host_call (TabsUngroup ids) (fun s => tabs_ungroup host s ids)
     | [] => mret tt
     end)
    (fun _ => mret tt).

Fixpoint ungroupEach (allTabs : list BrowserTab) (groups : list TabGroup) : M unit :=
  match groups with
  | [] => mret tt
  | group :: rest => ungroupOne allTabs group;; ungroupEach allTabs rest
  end.

(** Lines 331-381 *)
Definition ungroupAllTabs (allTabs : list BrowserTab) : M unit :=
  try_catch
    (if negb (api_present host) || negb (api_tabGroups host) then mret tt
     else if api_tabGroups_query host then
       existingGroups ← host_call TabGroupsQuery (tabGroups_query host);
       match existingGroups with
       | [] => mret tt
       | _ :: _ => ungroupEach allTabs existingGroups
       end
     else mret tt)
    (fun _ => mret tt).

(** Lines 286-318: one round of the loop that creates the groups. *)
Definition createOne (entry : string * value) : M unit :=
  match entry with
  | (String _ _ as groupName, VArr tabs) =>
      let ids := tabIds tabs in
      match ids with
      | _ :: _ =>
          try_catch
            (groupId ← host_call (TabsGroup ids) (fun s => tabs_group host s ids);
             if api_tabGroups host && api_tabGroups_update host then
               let color := getGroupColor groupName in
               host_call (TabGroupsUpdate groupId groupName color)
                 (fun s => tabGroups_update host s groupId groupName color)
             else mret tt)
            (fun _ => mret tt)
      | [] => mret tt
      end
  | _ => mret tt
  end.

Fixpoint createEach (entries : list (string * value)) : M unit :=
  match entries with
  | [] => mret tt
  | entry :: rest => createOne entry;; createEach rest
  end.

(** Lines 417-430 *)
Definition saveGroupedTabs : M unit :=
  try_catch
    (groupsObject ← gets (fun s =>
       fold_left (fun props e => obj_assign (fst e) (VArr (snd e)) props)
                 (tabGroups s) []);
     StorageService.saveSetting host "groupedTabs" (VObj groupsObject);;
     now ← gets (Date_now host);
     StorageService.saveSetting host "groupedTabsTimestamp" (VNum now))
    (fun _ => mret tt).

(** Lines 239-329 *)
Definition createTabGroups (groupedTabs : argument) : M unit :=
  modify (with_tabGroups []);;
  try_catch
    (match groupedTabs with
     | NotAMap => mret tt
     | AMap entries =>
         modify (fun s => with_tabGroups (fold_left remember entries (tabGroups s)) s);;
         (if supportsTabGroups then
            let viaWindow := window_browser_tabs host in
            allTabs ← host_call (TabsQuery viaWindow)
                        (fun s => tabs_query host s viaWindow);
            ungroupAllTabs allTabs;;
            host_call (SetTimeout 200) (fun _ => Normal tt);;
            createEach entries
          else mret tt);;
         saveGroupedTabs
     end)
    (fun _ => mret tt).

End Grouper.

(** [Object.entries(v)] for the value stored under [groupedTabs]: the own
    properties of an object, the elements of an array under their indices. *)
Fixpoint numbered (i : nat) (items : list value) : list (string * value) :=
  match items with
  | [] => []
  | x :: rest => (NilZero.string_of_uint (Nat.to_uint i), x) :: numbered (S i) rest
  end.

Definition object_entries (v : value) : list (string * value) :=
  match v with
  | VObj props => AIService.entries props
  | VArr items => numbered 0 items
  | _ => []
  end.

(** Lines 439-443: one round of the loop that refills [this.tabGroups]. *)
Definition restore (m : list (string * list value)) (entry : string * value)
  : list (string * list value) :=
  match entry with
  | (groupName, VArr tabs) => map_set groupName tabs m
  | _ => m
  end.

Definition twentyFourHours : Z := 24 * 60 * 60 * 1000.

Section Persistence.
Context (host : Host).
Context (readAllError : State -> option string).

(** [(Date.now() - timestamp) < twentyFourHours] for a timestamp that is not
    a number is a comparison after a conversion by the language;
    [recentCoerced] is its outcome. *)
Context (recentCoerced : Z -> value -> bool).

(** Lines 432-449 *)
Definition loadGroupedTabs : M unit :=
  try_catch
    (settings ← StorageService.getSettings readAllError;
     let groupedTabs := Js.get settings "groupedTabs" in
     if truthy groupedTabs && typeof_object groupedTabs then
       modify (with_tabGroups []);;
       modify (fun s =>
         with_tabGroups (fold_left restore (object_entries groupedTabs) (tabGroups s)) s)
     else mret tt)
    (fun _ => mret tt).

(** Lines 451-459 *)
Definition clearSavedGroups : M unit :=
  try_catch
    (StorageService.saveSetting host "groupedTabs" VNull;;
     StorageService.saveSetting host "groupedTabsTimestamp" VNull)
    (fun _ => mret tt).

(** Lines 461-483 *)
Definition hasExistingGroups : M bool :=
  try_catch
    (settings ← StorageService.getSettings readAllError;
     let groupedTabs := Js.get settings "groupedTabs" in
     let timestamp := Js.get settings "groupedTabsTimestamp" in
     if truthy groupedTabs && typeof_object groupedTabs && truthy timestamp then
       now ← gets (Date_now host);
       let isRecent :=
         match timestamp with
         | VNum t => now - t <? twentyFourHours
         | _ => recentCoerced now timestamp
         end in
       if isRecent then
         let groupCount := List.length (object_entries groupedTabs) in
         mret (0 <? groupCount)%nat
       else mret false
     else mret false)
    (fun _ => mret false).

(** Lines 485-502 *)
Definition getGroupsForDisplay : M (list AIService.Group) :=
  try_catch
    (loadGroupedTabs;;
     gets (fun s => map AIService.group_of (tabGroups s)))
    (fun _ => mret []).

End Persistence.

End TabGrouper.

(** ** options.ts: saving the form *)

Module Options.

(** What the form holds when it is submitted: the two check boxes, the
    outcome of [parseInt(groupingThresholdInput.value, 10)], and the text of
    the key field. *)
Record Form : Type := {
  enableGrouping : bool;
  groupingThreshold : value;
  showDebugConsole : bool;
  apiKeyInput : string
}.

Section Page.
Context (host : Host).
Context (readAllError : State -> option string).

(** Lines 50-95. What follows the storage calls touches the page only; the
    handler of an exception shows an alert. *)
Definition saveOptionsToStorage (form : Form) : M unit :=
  try_catch
    (let options :=
       VObj [("enableGrouping", VBool (enableGrouping form));
             ("groupingThreshold", groupingThreshold form);
             ("showDebugConsole", VBool (showDebugConsole form))] in
     StorageService.saveSetting host "options" options;;
     let apiKeyValue := JsString.trim (apiKeyInput form) in
     (if truthy (VStr apiKeyValue)
      then StorageService.saveSetting host "openai_api_key" (VStr apiKeyValue)
      else StorageService.removeSetting host "openai_api_key");;
     verification ← StorageService.getSettings readAllError;
     mret tt)
    (fun _ => mret tt).

End Page.

End Options.

(** * Properties *)

(** ** Concrete hosts and states for the examples *)

Module Scenario.

Definition offline : completion Response := Throw (TypeError "Failed to fetch").

(** A browser without tab groups whose URL parser knows the addresses in
    [hostnames], whose storage reports [readError] on every read and no error
    otherwise, whose network answers every request with [network], and whose
    JSON parser accepts no text. *)
Definition browser (hostnames : list (string * string)) (readError : option string)
    (network : completion Response) : Host :=
  {| JSON_parse := fun _ => None;
     URL_hostname := fun url =>
       snd <$> List.find (fun e => String.eqb url (fst e)) hostnames;
     Date_now := fun _ => 0;
     lastError := fun _ c =>
       match c with
       | StorageGet _ => readError
       | _ => None
       end;
     fetch := fun _ _ _ _ => network;
     api_present := true;
     api_tabs := true;
     api_tabs_group := false;
     api_tabGroups := false;
     api_tabGroups_query := false;
     api_tabGroups_update := false;
     window_browser_tabs := false;
     tabs_query := fun _ _ => Normal [];
     tabGroups_query := fun _ => Normal [];
     tabs_ungroup := fun _ _ => Normal tt;
     tabs_group := fun _ _ => Normal 1;
     tabGroups_update := fun _ _ _ _ => Normal tt |}.

Definition quiet : Host := browser [] None offline.

Definition fresh (m : gmap string value) : State := mkState m [] VNull [].

End Scenario.

(** ** The JSON repair on examples *)

Module RepairFacts.
Import JsString Regex Repair.

(** [s] between double quotes *)
Definition quoted (s : string) : string := dq +:+ s +:+ dq.

Example trim_blanks : trim (String (ascii_of_nat 10) "  {a}  ") = "{a}".
Proof. vm_compute. reflexivity. Qed.

(** The match runs from the first opening brace to the last closing one. *)
Example extractJson_outermost :
  extractJson "Here you go: {a: {b: 1}} and } more" = "{a: {b: 1}} and }".
Proof. vm_compute. reflexivity. Qed.

Example extractJson_no_braces : extractJson "[1, 2]" = "[1, 2]".
Proof. vm_compute. reflexivity. Qed.

Example removeTrailingCommas_example :
  removeTrailingCommas "{a: [1, 2, ], b: 3 , }" = "{a: [1, 2 ], b: 3  }".
Proof. vm_compute. reflexivity. Qed.

Example quoteKeys_example :
  quoteKeys "{groups: [], max_1 : 2, x:3}"
  = "{" +:+ quoted "groups" +:+ ": [], max_1 : 2, " +:+ quoted "x" +:+ ":3}".
Proof. vm_compute. reflexivity. Qed.

Example doubleQuoteValues_example :
  doubleQuoteValues "{a:'x y', b:   'z'}"
  = "{a: " +:+ quoted "x y" +:+ ", b: " +:+ quoted "z" +:+ "}".
Proof. vm_compute. reflexivity. Qed.

Example repair_example :
  repair "  Sure! {groups: [ {subject: 'Dev', tabs: [1, 2, ], }, ], }  Bye"
  = "{" +:+ quoted "groups" +:+ ": [ {" +:+ quoted "subject" +:+ ": "
    +:+ quoted "Dev" +:+ ", " +:+ quoted "tabs" +:+ ": [1, 2 ] } ] }".
Proof. vm_compute. reflexivity. Qed.

(** A colon inside a single-quoted value is left alone by the key rule, and
    a key that is followed by a blank is not quoted. *)
Example repair_colon_in_value :
  repair "{a:'b:c', d : 1}"
  = "{" +:+ quoted "a" +:+ ": " +:+ quoted "b:c" +:+ ", d : 1}".
Proof. vm_compute. reflexivity. Qed.

End RepairFacts.

(** ** StorageService *)

Module StorageFacts.
Import StorageService.

(** Some storage namespace with a [local] or [sync] area is in reach. *)
Definition offers_area (api : option BrowserApi) : bool :=
  match api with
  | Some a =>
      match storage a with
      | Some ns => local ns || sync ns
      | None => false
      end
  | None => false
  end.

Definition storage_available (g : Globals) : bool :=
  offers_area (chrome g)
  || match window g with
     | Some w => offers_area (window_browser w) || offers_area (window_chrome w)
     | None => false
     end.

Lemma offers_area_with_storage api :
  with_storage api = false -> offers_area api = false.
Proof.
  destruct api as [[[ns|]]|]; simpl; intros H; try reflexivity; discriminate.
Qed.

Lemma constructor_unusable api :
  offers_area api = false -> exists e, constructor api = Throw e.
Proof.
  destruct api as [[[[l y]|]]|]; simpl; intros H; eauto.
  destruct l; simpl in H; [discriminate|].
  destruct y; [discriminate|]. eauto.
Qed.

(** C8: outside a runtime that offers a storage namespace with a [local] or
    [sync] area, loading the module and running [new StorageService()] ends
    in an exception; no [StorageService] comes into being. *)
Theorem new_StorageService_throws (g : Globals) :
  storage_available g = false ->
  exists e, new_StorageService g = Throw e.
Proof.
  unfold storage_available, new_StorageService, browserAPI.
  intros H. apply orb_false_iff in H as [Hc Hw].
  destruct (with_storage (chrome g)) eqn:Ec.
  { apply constructor_unusable, Hc. }
  destruct (window g) as [w|]; [|eauto].
  apply orb_false_iff in Hw as [Hb Hwc].
  destruct (with_storage (window_browser w)).
  { apply constructor_unusable, Hb. }
  destruct (with_storage (window_chrome w)).
  { apply constructor_unusable, Hwc. }
  simpl. eauto.
Qed.

Definition plain_page : Globals :=
  {| chrome := None;
     window := Some {| window_browser := None; window_chrome := None |} |}.

Lemma new_StorageService_throws_witness :
  storage_available plain_page = false
  /\ exists e, new_StorageService plain_page = Throw e.
Proof.
  split; [reflexivity|].
  apply (new_StorageService_throws plain_page). reflexivity.
Defined.

(** The constructor prefers [local] and falls back to [sync]. *)
Lemma constructor_prefers_local ns :
  local ns = true -> constructor (Some {| storage := Some ns |}) = Normal AreaLocal.
Proof. simpl. intros ->. reflexivity. Qed.

Section Laws.
Context (host : Host).

Lemma saveSetting_eq key v s :
  saveSetting host key v s = area_set host key v s.
Proof.
  unfold saveSetting, try_catch, throw.
  destruct (area_set host key v s) as [[a|e] s']; reflexivity.
Qed.

Lemma removeSetting_eq key s :
  removeSetting host key s = area_remove host key s.
Proof.
  unfold removeSetting, try_catch, throw.
  destruct (area_remove host key s) as [[a|e] s']; reflexivity.
Qed.

(** What [getSetting] answers, from the content of the area. *)
Definition reading (key : string) (m : gmap string value) : value :=
  match m !! key with
  | Some VUndefined => VNull
  | Some v => v
  | None => if Js.inherited key then VBuiltin key else VNull
  end.

Lemma getSetting_spec key s :
  getSetting host key s =
    (Normal match lastError host s (StorageGet key) with
            | Some _ => VNull
            | None => reading key (store s)
            end,
     record_call (StorageGet key) s).
Proof.
  unfold getSetting, try_catch, mbind, M_bind, area_get, host_call, reading.
  destruct (lastError host s (StorageGet key)); [reflexivity|].
  destruct (store s !! key) as [v|]; simpl.
  - rewrite String.eqb_refl. destruct v; reflexivity.
  - destruct (Js.inherited key); reflexivity.
Qed.

Lemma getSetting_returns key s : exists v, fst (getSetting host key s) = Normal v.
Proof. rewrite getSetting_spec. eauto. Qed.

Lemma saveSetting_store key v s :
  store (snd (saveSetting host key v s)) =
    match lastError host s (StorageSet key v) with
    | Some _ => store s
    | None => if is_undefined v then store s else <[key := v]> (store s)
    end.
Proof.
  rewrite saveSetting_eq. unfold area_set.
  destruct (lastError host s (StorageSet key v)); [reflexivity|].
  destruct (is_undefined v); reflexivity.
Qed.


(** A failed read is answered with [null], whatever is stored. *)
Lemma getSetting_read_error key s msg :
  lastError host s (StorageGet key) = Some msg ->
  fst (getSetting host key s) = Normal VNull.
Proof. intros H. rewrite getSetting_spec, H. reflexivity. Qed.

End Laws.

Import Scenario.





(** A stored value is not read back when the read fails. *)
Example getSetting_after_failed_read :
  let host := browser [] (Some "The browser is shutting down.") offline in
  let s1 := snd (saveSetting host "options" (VNum 7) (fresh ∅)) in
  fst (saveSetting host "options" (VNum 7) (fresh ∅)) = Normal tt
  /\ store s1 !! "options" = Some (VNum 7)
  /\ fst (getSetting host "options" s1) = Normal VNull.
Proof. vm_compute. auto. Qed.

(** After its removal, a key named like a member of [Object.prototype] reads
    as that member. *)
Example getSetting_inherited_key :
  fst (getSetting quiet "constructor" (snd (removeSetting quiet "constructor" (fresh ∅))))
    = Normal (VBuiltin "constructor").
Proof. vm_compute. reflexivity. Qed.

End StorageFacts.

(** ** AIService: the API key *)

Module ApiKeyFacts.
Import AIService StorageFacts Scenario.

Definition KEY : string := "openai_api_key".

Section Key.
Context (host : Host).

(** What [getApiKey] does, from what [getSetting] read. *)
Lemma getApiKey_spec s :
  getApiKey host s =
    let s1 := record_call (StorageGet KEY) s in
    match fst (StorageService.getSetting host KEY s) with
    | Normal (VStr (String c k')) =>
        let k := String c k' in
        if validFormat k then (Normal (VStr k), with_apiKey (VStr k) s1)
        else
          let '(r, s2) :=
            StorageService.area_remove host KEY
              (with_apiKey VNull (with_apiKey (VStr k) s1)) in
          (match r with Normal _ => Normal VNull | Throw e => Throw e end, s2)
    | Normal v => (Normal v, with_apiKey v s1)
    | Throw e => (Throw e, s1)
    end.
Proof.
  unfold getApiKey, StorageService.get, mbind, M_bind, KEY.
  rewrite getSetting_spec. cbn [fst].
  generalize (match lastError host s (StorageGet "openai_api_key") with
              | Some _ => VNull
              | None => reading "openai_api_key" (store s)
              end).
  intros v. destruct v as [| |b|n|k|xs|ps|nm]; try reflexivity.
  destruct k as [|c k']; [reflexivity|].
  cbn [truthy]. unfold modify at 1. cbn iota beta.
  destruct (validFormat (String c k')); [reflexivity|].
  unfold modify, mret, M_ret. rewrite removeSetting_eq.
  destruct (StorageService.area_remove host "openai_api_key" _) as [[[]|e] s2];
    reflexivity.
Qed.

(** The state in which [getApiKey] asks for the removal of the malformed
    key [k] it has read in state [s]. *)
Definition removing (k : string) (s : State) : State :=
  with_apiKey VNull (with_apiKey (VStr k) (record_call (StorageGet KEY) s)).

(** C9, as far as the code goes. When nothing, [null] or a string is stored
    under [openai_api_key], what [getApiKey] returns is [null], the empty
    string, or a string that starts with [sk-] and is longer than 20. When a
    string that is not empty and not of that form is stored and read, the
    key is removed and [null] is returned, unless the removal fails: then
    [getApiKey] throws the error of the removal and the key stays. *)
Theorem getApiKey_result (s : State) :
  (store s !! KEY = None \/ store s !! KEY = Some VNull
   \/ (exists k, store s !! KEY = Some (VStr k)) ->
   forall v, fst (getApiKey host s) = Normal v ->
     v = VNull \/ v = VStr ""
     \/ exists k, v = VStr k /\ validFormat k = true)
  /\ (forall k, store s !! KEY = Some (VStr k) ->
        k <> "" -> validFormat k = false ->
        lastError host s (StorageGet KEY) = None ->
        match lastError host (removing k s) (StorageRemove KEY) with
        | None =>
            fst (getApiKey host s) = Normal VNull
            /\ store (snd (getApiKey host s)) !! KEY = None
        | Some msg =>
            fst (getApiKey host s) = Throw (Error msg)
            /\ store (snd (getApiKey host s)) = store s
        end).
Proof.
  rewrite getApiKey_spec, getSetting_spec. cbn [fst]. split.
  - intros Hstored v.
    assert (Hread : reading KEY (store s) = VNull
                    \/ exists k, reading KEY (store s) = VStr k).
    { unfold reading. destruct Hstored as [-> | [-> | [k ->]]]; eauto. }
    destruct (lastError host s (StorageGet KEY)) as [msg|].
    { cbn. intros [= <-]. auto. }
    destruct Hread as [-> | [k ->]].
    { cbn. intros [= <-]. auto. }
    destruct k as [|c k'].
    { cbn. intros [= <-]. auto. }
    destruct (validFormat (String c k')) eqn:Hvalid.
    { cbn. intros [= <-]. eauto. }
    destruct (StorageService.area_remove host KEY _) as [[[]|e] s2];
      cbn; intros [= <-]; auto.
  - intros k Hstored Hk Hvalid Hread. rewrite Hread.
    unfold reading. rewrite Hstored.
    destruct k as [|c k']; [congruence|]. rewrite Hvalid.
    unfold StorageService.area_remove, removing.
    destruct (lastError host _ (StorageRemove KEY)) as [msg|]; cbn.
    + split; reflexivity.
    + split; [reflexivity|]. apply lookup_delete_eq.
Qed.
End Key.

(** A browser whose storage area refuses every removal. *)
Definition stuck : Host :=
  {| JSON_parse := fun _ => None;
     URL_hostname := fun _ => None;
     Date_now := fun _ => 0;
     lastError := fun _ c =>
       match c with
       | StorageRemove _ => Some "The storage is read-only."
       | _ => None
       end;
     fetch := fun _ _ _ _ => offline;
     api_present := true;
     api_tabs := true;
     api_tabs_group := false;
     api_tabGroups := false;
     api_tabGroups_query := false;
     api_tabGroups_update := false;
     window_browser_tabs := false;
     tabs_query := fun _ _ => Normal [];
     tabGroups_query := fun _ => Normal [];
     tabs_ungroup := fun _ _ => Normal tt;
     tabs_group := fun _ _ => Normal 1;
     tabGroups_update := fun _ _ _ _ => Normal tt |}.

Lemma getApiKey_result_witness :
  let s := fresh {[ KEY := VStr "secret" ]} in
  store s !! KEY = Some (VStr "secret")
  /\ validFormat "secret" = false
  /\ lastError quiet s (StorageGet KEY) = None
  /\ (forall v, fst (getApiKey quiet s) = Normal v ->
        v = VNull \/ v = VStr "" \/ exists k, v = VStr k /\ validFormat k = true)
  /\ (fst (getApiKey quiet s) = Normal VNull
      /\ store (snd (getApiKey quiet s)) !! KEY = None)
  /\ (fst (getApiKey stuck s) = Throw (Error "The storage is read-only.")
      /\ store (snd (getApiKey stuck s)) = store s).
Proof.
  intros s. destruct (getApiKey_result quiet s) as [Hreturned Hremoved].
  destruct (getApiKey_result stuck s) as [_ Hkept].
  assert (Hstored : store s !! KEY = Some (VStr "secret")).
  { vm_compute. reflexivity. }
  split; [exact Hstored|]. split; [reflexivity|]. split; [reflexivity|].
  split; [|split].
  - apply Hreturned. right. right. exists "secret". exact Hstored.
  - apply (Hremoved "secret").
    + exact Hstored.
    + discriminate.
    + reflexivity.
    + reflexivity.
  - apply (Hkept "secret").
    + exact Hstored.
    + discriminate.
    + reflexivity.
    + reflexivity.
Defined.

(** The claim of C9 as it is worded. *)
Definition null_or_valid_key : Prop :=
  forall (host : Host) (s : State),
    (forall v, fst (getApiKey host s) = Normal v ->
       v = VNull \/ exists k, v = VStr k /\ validFormat k = true)
    /\ (forall k, store s !! KEY = Some (VStr k) -> validFormat k = false ->
          fst (getApiKey host s) = Normal VNull
          /\ store (snd (getApiKey host s)) !! KEY = None).

(** A stored empty string is returned as it is, and stays stored. *)
Example getApiKey_empty_string :
  let s := fresh {[ KEY := VStr "" ]} in
  fst (getApiKey quiet s) = Normal (VStr "")
  /\ store (snd (getApiKey quiet s)) !! KEY = Some (VStr "").
Proof. vm_compute. auto. Qed.

Lemma null_or_valid_key_fails : ~ null_or_valid_key.
Proof.
  intros H.
  destruct (H quiet (fresh {[ KEY := VStr "" ]})) as [_ Hremoved].
  destruct (Hremoved "") as [Hnull _].
  - vm_compute. reflexivity.
  - reflexivity.
  - vm_compute in Hnull. discriminate.
Qed.

(** A stored value that is not a string is handed out unchecked. *)
Example getApiKey_number :
  fst (getApiKey quiet (fresh {[ KEY := VNum 42 ]})) = Normal (VNum 42).
Proof. vm_compute. reflexivity. Qed.

End ApiKeyFacts.

(** ** AIService: the categories of the fallback *)

Module CategoryFacts.
Import AIService JsString.

(** The words [categorizeTab] looks for in the lower-cased title and in the
    lower-cased url to choose one of its named categories. The words that
    only refine a research category are not among them. *)
Definition title_keywords : list string :=
  [ "whatsapp"; "outlook"; "calendar"; "gmail"; "slack"; "discord"; "linkedin";
    "github"; "api"; "documentation"; "docs"; "developer"; "chrome.tabs"; "trpc";
    "next.js"; "chakra"; "chatgpt"; "openai"; "cursor"; "ultracite";
    "google search"; "search"; "singapore government"; "optical documentation";
    "pricing"; "uuid"; "generator"; "cuid"; "vercel"; "template"; "extension";
    "debugging" ].

Definition url_keywords : list string :=
  [ "linkedin"; "whatsapp"; "outlook"; "mail"; "github"; "developer"; "docs";
    "chatgpt"; "openai"; "cursor"; "ultracite"; "google.com/search"; "gov.sg";
    "localhost"; "about:"; "moz-extension"; "chrome-extension" ].

Definition named_categories : list string :=
  [ "Communication & Social"; "Development & Documentation";
    "AI Tools & Platforms"; "Research: Optical Technology";
    "Research: Development Tools"; "Research & Information";
    "Government & Official Documentation"; "Development Tools & Utilities";
    "Browser & Extensions" ].

(** Some keyword occurs, whatever the case of the letters of [title], [url]. *)
Definition keyword_rule (title url : string) : bool :=
  existsb (includes (toLowerCase title)) title_keywords
  || existsb (includes (toLowerCase url)) url_keywords.

(** The chain of tests of [categorizeTab], on the lower-cased strings. *)
Definition keywordCategory (title url : string) : option string :=
  if includes title "whatsapp" || includes title "outlook" || includes title "calendar"
     || includes title "gmail" || includes title "slack" || includes title "discord"
     || includes title "linkedin" || includes url "linkedin" || includes url "whatsapp"
     || includes url "outlook" || includes url "mail"
  then Some "Communication & Social"
  else if includes title "github" || includes title "api" || includes title "documentation"
     || includes title "docs" || includes title "developer" || includes url "github"
     || includes url "developer" || includes url "docs" || includes title "chrome.tabs"
     || includes title "trpc" || includes title "next.js" || includes title "chakra"
  then Some "Development & Documentation"
  else if includes title "chatgpt" || includes title "openai" || includes title "cursor"
     || includes title "ultracite" || includes url "chatgpt" || includes url "openai"
     || includes url "cursor" || includes url "ultracite"
  then Some "AI Tools & Platforms"
  else if includes title "google search" || includes title "search"
     || includes url "google.com/search"
  then
    if includes title "optical" || includes url "optical"
    then Some "Research: Optical Technology"
    else if includes title "shiphats" || includes title "gitlab"
    then Some "Research: Development Tools"
    else Some "Research & Information"
  else if includes url "gov.sg" || includes title "singapore government"
     || includes title "optical documentation" || includes title "pricing"
  then Some "Government & Official Documentation"
  else if includes title "uuid" || includes title "generator" || includes title "cuid"
     || includes title "vercel" || includes title "template" || includes url "localhost"
  then Some "Development Tools & Utilities"
  else if includes url "about:" || includes url "moz-extension"
     || includes url "chrome-extension" || includes title "extension"
     || includes title "debugging"
  then Some "Browser & Extensions"
  else None.

Ltac split_true H :=
  repeat match type of H with
         | (_ || _) = true => apply orb_true_iff in H; destruct H as [H|H]
         end.

Ltac split_false :=
  repeat match goal with
         | H : (_ || _) = false |- _ =>
             let H1 := fresh "F" in
             apply orb_false_iff in H; destruct H as [H1 H]
         end.

Lemma keywordCategory_hit title url :
  match keywordCategory title url with
  | Some c =>
      In c named_categories
      /\ (existsb (includes title) title_keywords
          || existsb (includes url) url_keywords) = true
  | None =>
      (existsb (includes title) title_keywords
       || existsb (includes url) url_keywords) = false
  end.
Proof.
  unfold keywordCategory.
  repeat match goal with
         | |- context [if ?c then _ else _] =>
             let E := fresh "E" in destruct c eqn:E
         end;
    try (split; [simpl; tauto|]);
    try (match goal with
         | H : _ = true |- _ = true =>
             split_true H; cbn [existsb title_keywords url_keywords];
             rewrite H, ?orb_true_r; reflexivity
         end).
  split_false. cbn [existsb title_keywords url_keywords].
  repeat match goal with
         | H : includes _ _ = false |- _ => rewrite H; clear H
         end.
  reflexivity.
Qed.

Section Categories.
Context (host : Host).

Lemma categorizeTab_keywordCategory tab title url :
  Js.get tab "title" = VStr title ->
  Js.get tab "url" = VStr url ->
  categorizeTab host tab =
    Normal match keywordCategory (toLowerCase title) (toLowerCase url) with
           | Some c => c
           | None => extractDomain host url
           end.
Proof.
  intros Ht Hu. unfold categorizeTab, keywordCategory.
  rewrite Ht, Hu. cbn [toLowerCase_of mbind completion_bind].
  repeat match goal with
         | |- context [if ?c then _ else _] => destruct c
         end; reflexivity.
Qed.

(** [categorizeTab] gives one category to a tab whose title and url are
    strings. When a keyword occurs in the title or the url, in whatever
    case, it is one of
    the nine named categories, and it is the same for every tab whose title
    and url differ from these in the case of letters only; when no keyword
    occurs, it is the hostname of the url, or [Other] when the url does not
    parse. *)
Theorem categorizeTab_category (tab : value) (title url : string) :
  Js.get tab "title" = VStr title ->
  Js.get tab "url" = VStr url ->
  exists c,
    categorizeTab host tab = Normal c
    /\ (keyword_rule title url = true ->
        In c named_categories
        /\ forall tab' title' url',
             Js.get tab' "title" = VStr title' ->
             Js.get tab' "url" = VStr url' ->
             toLowerCase title' = toLowerCase title ->
             toLowerCase url' = toLowerCase url ->
             categorizeTab host tab' = Normal c)
    /\ (keyword_rule title url = false ->
        c = match URL_hostname host url with
            | Some hostname => hostname
            | None => "Other"
            end).
Proof.
  intros Ht Hu. eexists. split; [apply (categorizeTab_keywordCategory _ _ _ Ht Hu)|].
  pose proof (keywordCategory_hit (toLowerCase title) (toLowerCase url)) as Hhit.
  unfold keyword_rule.
  destruct (keywordCategory (toLowerCase title) (toLowerCase url)) as [c|] eqn:Hc.
  - destruct Hhit as [Hnamed Hrule]. split.
    + intros _. split; [exact Hnamed|].
      intros tab' title' url' Ht' Hu' Etitle Eurl.
      rewrite (categorizeTab_keywordCategory _ _ _ Ht' Hu'), Etitle, Eurl, Hc.
      reflexivity.
    + intros Hnone. congruence.
  - split.
    + intros Hsome. congruence.
    + intros _. reflexivity.
Qed.

End Categories.

Definition github_tab : value :=
  VObj [("id", VNum 7); ("title", VStr "GitHub - Pull Requests");
        ("url", VStr "https://GitHub.com/pulls")].

Lemma categorizeTab_category_witness :
  Js.get github_tab "title" = VStr "GitHub - Pull Requests"
  /\ Js.get github_tab "url" = VStr "https://GitHub.com/pulls"
  /\ exists c,
       categorizeTab Scenario.quiet github_tab = Normal c
       /\ (keyword_rule "GitHub - Pull Requests" "https://GitHub.com/pulls" = true ->
           In c named_categories
           /\ forall tab' title' url',
                Js.get tab' "title" = VStr title' ->
                Js.get tab' "url" = VStr url' ->
                toLowerCase title' = toLowerCase "GitHub - Pull Requests" ->
                toLowerCase url' = toLowerCase "https://GitHub.com/pulls" ->
                categorizeTab Scenario.quiet tab' = Normal c)
       /\ (keyword_rule "GitHub - Pull Requests" "https://GitHub.com/pulls" = false ->
           c = match URL_hostname Scenario.quiet "https://GitHub.com/pulls" with
               | Some hostname => hostname
               | None => "Other"
               end).
Proof.
  split; [reflexivity|]. split; [reflexivity|].
  apply (categorizeTab_category Scenario.quiet github_tab); reflexivity.
Defined.

Example categorizeTab_github :
  categorizeTab Scenario.quiet github_tab = Normal "Development & Documentation".
Proof. vm_compute. reflexivity. Qed.

(** The first rule that matches wins: a search for documentation is filed
    under documentation, not under research. *)
Example categorizeTab_order :
  categorizeTab Scenario.quiet
    (VObj [("title", VStr "api docs - Google Search");
           ("url", VStr "https://www.google.com/search?q=api+docs")])
  = Normal "Development & Documentation".
Proof. vm_compute. reflexivity. Qed.

Example categorizeTab_hostname :
  categorizeTab (Scenario.browser [("https://example.org/a", "example.org")] None
                   Scenario.offline)
    (VObj [("title", VStr "Example Domain"); ("url", VStr "https://example.org/a")])
  = Normal "example.org".
Proof. vm_compute. reflexivity. Qed.

Example categorizeTab_other :
  categorizeTab Scenario.quiet
    (VObj [("title", VStr "New Tab"); ("url", VStr "not a url")])
  = Normal "Other".
Proof. vm_compute. reflexivity. Qed.

End CategoryFacts.

(** ** AIService: the fallback grouping on a tab at a host named like a
    member of [Object.prototype] *)

Module FallbackDefect.
Import AIService Scenario.

(** A tab the user has open at [http://constructor/]. *)
Definition constructor_tab : value :=
  VObj [("id", VNum 1); ("title", VStr "constructor");
        ("url", VStr "http://constructor/")].

Definition hostnames : list (string * string) :=
  [("http://constructor/", "constructor")].

Definition PUSH_ERROR : exn := TypeError "groups[category].push is not a function".

Definition VALID_KEY : string := "sk-0123456789abcdefghijklmnop".

Definition configured : State := fresh {[ "openai_api_key" := VStr VALID_KEY ]}.

(** The answer of the AI service, with [content] as the text of the first
    choice. *)
Definition answer (content : value) : completion Response :=
  Normal {| ok := true; status := 200; statusText := "OK";
            text := Normal "";
            json := Normal (VObj [("choices",
                       VArr [VObj [("message", VObj [("content", content)])]])]) |}.

Lemma constructor_tab_category :
  categorizeTab (browser hostnames None offline) constructor_tab = Normal "constructor".
Proof. vm_compute. reflexivity. Qed.

(** [groups["constructor"]] is the inherited [Object] function: it is truthy,
    so no array is created, and it has no [push]. *)
Lemma push_inherited category tab :
  Js.inherited category = true ->
  push category tab [] = Throw PUSH_ERROR.
Proof. intros H. unfold push, lookup. simpl. rewrite H. reflexivity. Qed.

(** C10 at the failing input: [createFallbackGrouping] does not return. *)
Theorem createFallbackGrouping_throws :
  createFallbackGrouping (browser hostnames None offline) (VArr [constructor_tab])
  = Throw PUSH_ERROR.
Proof. vm_compute. reflexivity. Qed.

(** C4 at the failing input. The first tab has a title and a url, and the
    keyword [github] gives it the category [Development & Documentation];
    the second is the tab at [http://constructor/], whose category is its
    host name. The fallback grouping throws at the second tab: it returns no
    grouping, so neither tab is assigned to a category. *)
Theorem createFallbackGrouping_assigns_nothing :
  let host := browser hostnames None offline in
  usable CategoryFacts.github_tab = true
  /\ categorizeTab host CategoryFacts.github_tab = Normal "Development & Documentation"
  /\ usable constructor_tab = true
  /\ categorizeTab host constructor_tab = Normal "constructor"
  /\ createFallbackGrouping host (VArr [CategoryFacts.github_tab; constructor_tab])
     = Throw PUSH_ERROR.
Proof. vm_compute. auto 6. Qed.

(** C3 at the failing input: a valid key is stored, the request fails, and
    [analyzeTabs] throws. *)
Theorem analyzeTabs_throws_with_valid_key :
  fst (getApiKey (browser hostnames None offline) configured) = Normal (VStr VALID_KEY)
  /\ fst (analyzeTabs (browser hostnames None offline) (VArr [constructor_tab]) configured)
     = Throw PUSH_ERROR.
Proof. vm_compute. auto. Qed.

(** C2 at the failing input: the content is text that is not JSON, the parse
    throws, and [analyzeTabs] throws instead of returning a grouping. *)
Theorem analyzeTabs_throws_after_parse_error :
  let host := browser hostnames None (answer (VStr "Sorry, I cannot group these tabs.")) in
  JSON_parse host (Repair.repair "Sorry, I cannot group these tabs.") = None
  /\ fst (analyzeTabs host (VArr [constructor_tab]) configured) = Throw PUSH_ERROR.
Proof. vm_compute. auto. Qed.

End FallbackDefect.

(** ** AIService: one request, and where the grouping comes from *)

Module AnalyzeFacts.
Import AIService ApiKeyFacts StorageFacts.
Local Open Scope list_scope.

Definition is_fetch (c : Call) : bool :=
  match c with
  | Fetch _ _ _ => true
  | _ => false
  end.

Section Analyze.
Context (host : Host).

(** What the service makes of the body of a successful response. *)
Definition interpret (tabs data : value) : completion (list AIResponse) :=
  match contentOf data with
  | Normal (VStr (String c t)) =>
      match JSON_parse host (Repair.repair (String c t)) with
      | Some groupedTabs =>
          match validateAndFormatResponse host groupedTabs tabs with
          | Normal r => Normal r
          | Throw _ => createFallbackGrouping host tabs
          end
      | None => createFallbackGrouping host tabs
      end
  | _ => createFallbackGrouping host tabs
  end.

(** [parseContent] itself throws when the content is not a string: its
    handler reads [content.substring]. *)
Definition parsed (content tabs : value) : completion (list AIResponse) :=
  match content with
  | VStr text =>
      match JSON_parse host (Repair.repair text) with
      | Some groupedTabs =>
          match validateAndFormatResponse host groupedTabs tabs with
          | Normal r => Normal r
          | Throw _ => createFallbackGrouping host tabs
          end
      | None => createFallbackGrouping host tabs
      end
  | _ => Throw (TypeError "content.substring is not a function")
  end.

Lemma parseContent_run content tabs s :
  parseContent host content tabs s = (parsed content tabs, s).
Proof.
  unfold parseContent, parsed, try_catch, mbind, M_bind, lift, as_string, parse.
  destruct content as [| |b|n|text|xs|ps|nm]; try reflexivity.
  destruct (JSON_parse host _) as [g|]; [|reflexivity].
  destruct (validateAndFormatResponse host g tabs); reflexivity.
Qed.

Definition choice_with (content : value) : value :=
  VObj [("choices", VArr [VObj [("message", VObj [("content", content)])]])].

Lemma parsed_interpret content tabs :
  truthy content = true ->
  match parsed content tabs with
  | Normal r => Normal r
  | Throw _ => createFallbackGrouping host tabs
  end = interpret tabs (choice_with content).
Proof.
  intros Hcontent. unfold interpret, contentOf, choice_with. cbn.
  unfold or_else. rewrite Hcontent. unfold parsed.
  destruct content as [| |b|n|text|xs|ps|nm]; try reflexivity.
  destruct text as [|c t]; [discriminate|].
  destruct (JSON_parse host _) as [g|].
  - destruct (validateAndFormatResponse host g tabs); [reflexivity|].
    destruct (createFallbackGrouping host tabs); reflexivity.
  - destruct (createFallbackGrouping host tabs); reflexivity.
Qed.

Lemma interpret_content tabs data :
  interpret tabs data =
    match contentOf data with
    | Normal content =>
        if truthy content
        then interpret tabs (choice_with content)
        else createFallbackGrouping host tabs
    | Throw _ => createFallbackGrouping host tabs
    end.
Proof.
  unfold interpret at 1.
  destruct (contentOf data) as [content|e]; [|reflexivity].
  destruct (truthy content) eqn:Hcontent.
  - rewrite <- (parsed_interpret _ _ Hcontent). unfold parsed.
    destruct content as [| |b|n|text|xs|ps|nm];
      try (destruct (createFallbackGrouping host tabs); reflexivity).
    destruct text as [|c t]; [discriminate|].
    destruct (JSON_parse host _) as [g|].
    + destruct (validateAndFormatResponse host g tabs); [reflexivity|].
      destruct (createFallbackGrouping host tabs); reflexivity.
    + destruct (createFallbackGrouping host tabs); reflexivity.
  - destruct content as [| |b|n|text|xs|ps|nm]; try reflexivity.
    destruct text; [reflexivity | discriminate].
Qed.

(** What [analyzeTabs] does on an array of tabs, step by step. *)
Lemma analyzeTabs_run items s :
  analyzeTabs host (VArr items) s =
    let '(k, s1) := getApiKey host s in
    match k with
    | Throw e => (Throw e, s1)
    | Normal key =>
        if truthy key then
          let mapped := map mapTab items in
          let s2 := record_call (Fetch OPENAI_URL key mapped) s1 in
          match fetch host s1 OPENAI_URL key mapped with
          | Throw _ => (createFallbackGrouping host (VArr items), s2)
          | Normal response =>
              if ok response then
                (match json response with
                 | Normal data => interpret (VArr items) data
                 | Throw _ => createFallbackGrouping host (VArr items)
                 end, record_call ResponseJson s2)
              else (createFallbackGrouping host (VArr items),
                    record_call ResponseText s2)
          end
        else (Throw KEY_NOT_FOUND, s1)
    end.
Proof.
  assert (Hfallback : forall (s0 : State),
            (let (c, s') := lift (createFallbackGrouping host (VArr items)) s0 in
             match c with
             | Normal a => (Normal a, s')
             | Throw _ =>
                 lift (createFallbackGrouping host (or_else (VArr items) (VArr []))) s'
             end) = (createFallbackGrouping host (VArr items), s0)).
  { intros s0. unfold lift, or_else. cbn [truthy].
    destruct (createFallbackGrouping host (VArr items)); reflexivity. }
  unfold analyzeTabs. cbn [isArray negb].
  unfold mbind at 1. unfold M_bind at 1.
  destruct (getApiKey host s) as [[key|e] s1]; [|reflexivity].
  destruct (truthy key); [|reflexivity].
  cbn [negb truthy orb isArray array_or_empty].
  unfold try_catch at 1, mbind at 1, M_bind at 1, host_call at 1.
  destruct (fetch host s1 OPENAI_URL key (map mapTab items)) as [response|e].
  2:{ unfold lift, or_else. reflexivity. }
  destruct (ok response); cbn [negb].
  - unfold mbind at 1, M_bind at 1, host_call at 1.
    destruct (json response) as [data|e]; [|reflexivity].
    rewrite interpret_content.
    unfold mbind at 1, M_bind at 1, lift at 1.
    destruct (contentOf data) as [content|e]; [|reflexivity].
    destruct (truthy content) eqn:Hcontent; cbn [negb]; [|apply Hfallback].
    rewrite parseContent_run, <- (parsed_interpret _ _ Hcontent).
    unfold lift, or_else. cbn [truthy].
    destruct (parsed content (VArr items)); reflexivity.
  - unfold mbind at 1, M_bind at 1, host_call at 1, throw.
    destruct (text response); reflexivity.
Qed.

Lemma getApiKey_trace s :
  trace (snd (getApiKey host s)) = trace s ++ [StorageGet KEY]
  \/ trace (snd (getApiKey host s)) = trace s ++ [StorageGet KEY; StorageRemove KEY].
Proof.
  rewrite getApiKey_spec. cbn zeta.
  destruct (fst (StorageService.getSetting host KEY s)) as [v|e]; [|left; reflexivity].
  destruct v as [| |b|n|k|xs|ps|nm]; try (left; reflexivity).
  destruct k as [|c k']; [left; reflexivity|].
  destruct (validFormat (String c k')); [left; reflexivity|].
  right. unfold StorageService.area_remove.
  destruct (lastError host _ _); cbn; rewrite <- app_assoc; reflexivity.
Qed.

(** A grouping that [interpret] returns is the fallback grouping or the
    validated parse of the repaired content. *)
Lemma interpret_cases tabs data r :
  interpret tabs data = Normal r ->
  createFallbackGrouping host tabs = Normal r
  \/ exists text groupedTabs,
       contentOf data = Normal (VStr text)
       /\ JSON_parse host (Repair.repair text) = Some groupedTabs
       /\ validateAndFormatResponse host groupedTabs tabs = Normal r.
Proof.
  unfold interpret.
  destruct (contentOf data) as [content|e]; [|auto].
  destruct content as [| |b|n|text|xs|ps|nm]; auto.
  destruct text as [|c t]; [auto|].
  destruct (JSON_parse host _) as [g|] eqn:Hparse; [|auto].
  destruct (validateAndFormatResponse host g tabs) as [r'|e] eqn:Hvalid; [|auto].
  intros [= <-]. right. eauto.
Qed.

(** C6: an invocation of [analyzeTabs] makes no request or one request, to
    the chat-completions URL; and a grouping it returns is the fallback
    grouping (of the tabs, or of no tabs when the argument is not an array),
    or the validated parse of the repaired content of the response to that
    one request. *)
Theorem analyzeTabs_single_request (tabs : value) (s : State) :
  exists calls,
    trace (snd (analyzeTabs host tabs s)) = trace s ++ calls
    /\ (List.filter is_fetch calls = []
        \/ exists key mapped,
             List.filter is_fetch calls = [Fetch OPENAI_URL key mapped])
    /\ forall r, fst (analyzeTabs host tabs s) = Normal r ->
         createFallbackGrouping host (VArr []) = Normal r
         \/ createFallbackGrouping host tabs = Normal r
         \/ exists key mapped s1 response data text groupedTabs,
              List.filter is_fetch calls = [Fetch OPENAI_URL key mapped]
              /\ fetch host s1 OPENAI_URL key mapped = Normal response
              /\ json response = Normal data
              /\ contentOf data = Normal (VStr text)
              /\ JSON_parse host (Repair.repair text) = Some groupedTabs
              /\ validateAndFormatResponse host groupedTabs tabs = Normal r.
Proof.
  destruct (isArray tabs) eqn:Harray.
  2:{ exists []. unfold analyzeTabs. rewrite Harray. cbn [negb lift fst snd].
      rewrite app_nil_r. split; [reflexivity|]. split; [left; reflexivity|].
      intros r Hr. left. exact Hr. }
  destruct tabs as [| |b|n|k|items|ps|nm]; try discriminate.
  rewrite analyzeTabs_run.
  pose proof (getApiKey_trace s) as Hkey.
  destruct (getApiKey host s) as [[key|e] s1]; cbn [snd] in Hkey.
  2:{ cbn [fst snd]. destruct Hkey as [Hk | Hk]; rewrite Hk; eexists;
        (split; [reflexivity|]); (split; [left; reflexivity|]);
        intros r; discriminate. }
  destruct (truthy key).
  2:{ cbn [fst snd]. destruct Hkey as [Hk | Hk]; rewrite Hk; eexists;
        (split; [reflexivity|]); (split; [left; reflexivity|]);
        intros r; discriminate. }
  cbn zeta.
  assert (Hcalls : forall extra,
            exists calls,
              trace s1 ++ Fetch OPENAI_URL key (map mapTab items) :: extra
                = trace s ++ calls
              /\ (Forall (fun c => is_fetch c = false) extra ->
                  List.filter is_fetch calls
                    = [Fetch OPENAI_URL key (map mapTab items)])).
  { intros extra.
    assert (Hnone : Forall (fun c => is_fetch c = false) extra ->
                    List.filter is_fetch extra = []).
    { intros Hextra. induction Hextra as [|c rest Hc _ IH]; [reflexivity|].
      cbn. rewrite Hc. exact IH. }
    destruct Hkey as [-> | ->]; eexists;
      (split; [rewrite <- app_assoc; reflexivity|]);
      intros Hextra; cbn; rewrite (Hnone Hextra); reflexivity. }
  destruct (fetch host s1 OPENAI_URL key (map mapTab items)) as [response|e] eqn:Hfetch.
  2:{ destruct (Hcalls []) as (calls & Htrace & Hfilter).
      exists calls. cbn [fst snd record_call trace].
      split; [exact Htrace|]. split; [right; eauto|].
      intros r Hr. right. left. exact Hr. }
  destruct (ok response).
  - destruct (Hcalls [ResponseJson]) as (calls & Htrace & Hfilter).
    exists calls. cbn [fst snd record_call trace].
    split; [rewrite <- app_assoc; exact Htrace|].
    specialize (Hfilter ltac:(repeat constructor)).
    split; [right; eauto|].
    intros r Hr. right.
    destruct (json response) as [data|e] eqn:Hjson; [|left; exact Hr].
    apply interpret_cases in Hr as [Hr | (text & g & Hcontent & Hparse & Hvalid)];
      [left; exact Hr|].
    right. exists key, (map mapTab items), s1, response, data, text, g. auto 10.
  - destruct (Hcalls [ResponseText]) as (calls & Htrace & Hfilter).
    exists calls. cbn [fst snd record_call trace].
    split; [rewrite <- app_assoc; exact Htrace|].
    specialize (Hfilter ltac:(repeat constructor)).
    split; [right; eauto|].
    intros r Hr. right. left. exact Hr.
Qed.

(** [analyzeTabs] throws in three ways only: the removal of a malformed key
    has failed, no key is there, or the fallback grouping has thrown. *)
Lemma analyzeTabs_throws (tabs : value) (s : State) (e : exn) :
  fst (analyzeTabs host tabs s) = Throw e ->
  fst (getApiKey host s) = Throw e
  \/ (exists key, fst (getApiKey host s) = Normal key
                  /\ truthy key = false /\ e = KEY_NOT_FOUND)
  \/ createFallbackGrouping host tabs = Throw e.
Proof.
  destruct tabs as [| |b|n|k|items|ps|nm];
    try (cbn; intros Hthrow; discriminate Hthrow).
  rewrite analyzeTabs_run.
  destruct (getApiKey host s) as [[key|e'] s1]; cbn [fst]; [|intros [= <-]; left; reflexivity].
  destruct (truthy key) eqn:Hkey.
  2:{ intros [= <-]. right. left. eauto. }
  cbn zeta. intros Hthrow. right. right.
  destruct (fetch host s1 OPENAI_URL key (map mapTab items)) as [response|e'];
    [|exact Hthrow].
  destruct (ok response); [|exact Hthrow]. cbn [fst] in Hthrow.
  destruct (json response) as [data|e']; [|exact Hthrow].
  unfold interpret in Hthrow.
  destruct (contentOf data) as [content|e']; [|exact Hthrow].
  destruct content as [| |b|n|text|xs|ps|nm]; try exact Hthrow.
  destruct text as [|c t]; [exact Hthrow|].
  destruct (JSON_parse host _); [|exact Hthrow].
  destruct (validateAndFormatResponse host _ _); [discriminate | exact Hthrow].
Qed.

(** With a key at hand, a request that fails, a response that is not OK, a
    body that is not JSON and an empty content all end as the fallback
    grouping of the tabs ends. *)
Lemma analyzeTabs_falls_back (items : list value) (s s1 : State) (key : value) :
  getApiKey host s = (Normal key, s1) ->
  truthy key = true ->
  (forall e, fetch host s1 OPENAI_URL key (map mapTab items) = Throw e ->
     fst (analyzeTabs host (VArr items) s) = createFallbackGrouping host (VArr items))
  /\ (forall response,
        fetch host s1 OPENAI_URL key (map mapTab items) = Normal response ->
        (ok response = false ->
         fst (analyzeTabs host (VArr items) s)
         = createFallbackGrouping host (VArr items))
        /\ (forall e, ok response = true -> json response = Throw e ->
              fst (analyzeTabs host (VArr items) s)
              = createFallbackGrouping host (VArr items))
        /\ (forall data content,
              ok response = true -> json response = Normal data ->
              contentOf data = Normal content -> truthy content = false ->
              fst (analyzeTabs host (VArr items) s)
              = createFallbackGrouping host (VArr items))).
Proof.
  intros Hkey Htruthy. rewrite analyzeTabs_run, Hkey, Htruthy. cbn zeta. split.
  - intros e ->. reflexivity.
  - intros response ->. split; [|split].
    + intros ->. reflexivity.
    + intros e -> ->. reflexivity.
    + intros data content -> -> Hcontent Hempty. cbn [fst].
      rewrite interpret_content, Hcontent, Hempty. reflexivity.
Qed.

(** The text of the first choice is trimmed, cut down to its outermost
    braces, freed of trailing commas, given quoted keys and double-quoted
    values, in this order, and parsed; when the parse or the validation
    throws, the outcome is that of the fallback grouping. *)
Lemma analyzeTabs_repairs (items : list value) (s s1 : State) (key : value)
    (response : Response) (data : value) (text : string) :
  getApiKey host s = (Normal key, s1) ->
  truthy key = true ->
  fetch host s1 OPENAI_URL key (map mapTab items) = Normal response ->
  ok response = true ->
  json response = Normal data ->
  contentOf data = Normal (VStr text) ->
  text <> "" ->
  fst (analyzeTabs host (VArr items) s)
  = match JSON_parse host
            (Repair.doubleQuoteValues
               (Repair.quoteKeys
                  (Repair.removeTrailingCommas
                     (Repair.extractJson (JsString.trim text))))) with
    | Some groupedTabs =>
        match validateAndFormatResponse host groupedTabs (VArr items) with
        | Normal r => Normal r
        | Throw _ => createFallbackGrouping host (VArr items)
        end
    | None => createFallbackGrouping host (VArr items)
    end.
Proof.
  intros Hkey Htruthy Hfetch Hok Hjson Hcontent Htext.
  rewrite analyzeTabs_run, Hkey, Htruthy. cbn zeta.
  rewrite Hfetch, Hok, Hjson. cbn [fst].
  unfold interpret. rewrite Hcontent.
  destruct text as [|c t]; [congruence|]. reflexivity.
Qed.

End Analyze.

(** A run in which the service answers with text that is not JSON: one
    request, and the fallback grouping of the tabs. *)
Lemma analyzeTabs_single_request_witness :
  let host := Scenario.browser [] None
                (FallbackDefect.answer (VStr "I cannot group these tabs.")) in
  let tabs := VArr [CategoryFacts.github_tab] in
  exists calls r,
    trace (snd (analyzeTabs host tabs FallbackDefect.configured)) = [] ++ calls
    /\ fst (analyzeTabs host tabs FallbackDefect.configured) = Normal r
    /\ (createFallbackGrouping host (VArr []) = Normal r
        \/ createFallbackGrouping host tabs = Normal r
        \/ exists key mapped s1 response data text groupedTabs,
             List.filter is_fetch calls = [Fetch OPENAI_URL key mapped]
             /\ fetch host s1 OPENAI_URL key mapped = Normal response
             /\ json response = Normal data
             /\ contentOf data = Normal (VStr text)
             /\ JSON_parse host (Repair.repair text) = Some groupedTabs
             /\ validateAndFormatResponse host groupedTabs tabs = Normal r).
Proof.
  intros host tabs.
  destruct (analyzeTabs_single_request host tabs FallbackDefect.configured)
    as (calls & Htrace & _ & Hfrom).
  exists calls. eexists. split; [exact Htrace|]. split.
  - vm_compute. reflexivity.
  - apply Hfrom. vm_compute. reflexivity.
Defined.

Example analyzeTabs_calls :
  trace (snd (analyzeTabs
                (Scenario.browser [] None
                   (FallbackDefect.answer (VStr "I cannot group these tabs.")))
                (VArr [CategoryFacts.github_tab]) FallbackDefect.configured))
  = [ StorageGet "openai_api_key";
      Fetch OPENAI_URL (VStr FallbackDefect.VALID_KEY)
        [VObj [("id", VNum 7); ("title", VStr "GitHub - Pull Requests");
               ("url", VStr "https://GitHub.com/pulls")]];
      ResponseJson ].
Proof. vm_compute. reflexivity. Qed.

End AnalyzeFacts.

(** ** TabGrouper: the order of the calls to the tabs API *)

Module GroupingFacts.
Import TabGrouper.
Local Open Scope list_scope.

(** The state after some more calls. *)
Definition extend (s : State) (calls : list Call) : State :=
  mkState (store s) (trace s ++ calls) (apiKey s) (tabGroups s).

Lemma extend_nil s : extend s [] = s.
Proof. destruct s. unfold extend. cbn. rewrite app_nil_r. reflexivity. Qed.

Lemma extend_extend s l1 l2 : extend (extend s l1) l2 = extend s (l1 ++ l2).
Proof. unfold extend. cbn. rewrite app_assoc. reflexivity. Qed.

Lemma record_call_extend c s : record_call c s = extend s [c].
Proof. reflexivity. Qed.

(** The tab lists handed to [tabs.group], and to [tabs.ungroup], in order. *)
Definition group_requests (calls : list Call) : list (list Z) :=
  omap (fun c => match c with TabsGroup ids => Some ids | _ => None end) calls.

Definition ungroup_requests (calls : list Call) : list (list Z) :=
  omap (fun c => match c with TabsUngroup ids => Some ids | _ => None end) calls.

Lemma group_requests_app l1 l2 :
  group_requests (l1 ++ l2) = group_requests l1 ++ group_requests l2.
Proof. apply omap_app. Qed.

Lemma ungroup_requests_app l1 l2 :
  ungroup_requests (l1 ++ l2) = ungroup_requests l1 ++ ungroup_requests l2.
Proof. apply omap_app. Qed.

(** The groups the second phase asks the browser to create: the entries with
    a name, an array of tabs and at least one numeric tab id. *)
Definition wanted (entry : string * value) : list (list Z) :=
  match entry with
  | (String _ _, VArr tabs) =>
      match tabIds tabs with
      | [] => []
      | ids => [ids]
      end
  | _ => []
  end.

(** The ungrouping asked for one existing group. *)
Definition released (allTabs : list BrowserTab) (group : TabGroup) : list (list Z) :=
  match tabIdsInGroup allTabs group with
  | [] => []
  | ids => [ids]
  end.

Section Order.
Context (host : Host).

Lemma ungroupOne_run allTabs group s :
  ungroupOne host allTabs group s
  = (Normal tt, extend s (map TabsUngroup (released allTabs group))).
Proof.
  unfold ungroupOne, released, try_catch, host_call.
  destruct (tabIdsInGroup allTabs group) as [|id ids].
  - cbn. rewrite extend_nil. reflexivity.
  - destruct (tabs_ungroup host s (id :: ids)) as [[]|e]; reflexivity.
Qed.

Lemma ungroupEach_run allTabs groups s :
  ungroupEach host allTabs groups s
  = (Normal tt, extend s (map TabsUngroup (flat_map (released allTabs) groups))).
Proof.
  revert s. induction groups as [|g groups IH]; intros s.
  - cbn. rewrite extend_nil. reflexivity.
  - cbn [ungroupEach flat_map]. unfold mbind, M_bind.
    rewrite ungroupOne_run, IH, extend_extend, map_app. reflexivity.
Qed.

(** The calls of the first phase. *)
Definition ungrouping (allTabs : list BrowserTab) (s : State) : list Call :=
  if api_present host && api_tabGroups host && api_tabGroups_query host then
    TabGroupsQuery ::
    match tabGroups_query host s with
    | Normal groups => map TabsUngroup (flat_map (released allTabs) groups)
    | Throw _ => []
    end
  else [].

Lemma ungroupAllTabs_run allTabs s :
  ungroupAllTabs host allTabs s = (Normal tt, extend s (ungrouping allTabs s)).
Proof.
  unfold ungroupAllTabs, ungrouping, try_catch.
  destruct (api_present host); cbn [negb orb andb];
    [|rewrite extend_nil; reflexivity].
  destruct (api_tabGroups host); cbn [negb orb andb];
    [|rewrite extend_nil; reflexivity].
  destruct (api_tabGroups_query host); [|rewrite extend_nil; reflexivity].
  unfold mbind, M_bind, host_call.
  destruct (tabGroups_query host s) as [groups|e]; [|reflexivity].
  destruct groups as [|g groups]; [reflexivity|].
  rewrite ungroupEach_run, record_call_extend, extend_extend. reflexivity.
Qed.

(** The calls made for one entry of the map, and for all of them. *)
Definition creating (entry : string * value) (s : State) : list Call :=
  match entry with
  | (String _ _ as groupName, VArr tabs) =>
      match tabIds tabs with
      | [] => []
      | ids =>
          TabsGroup ids ::
          match tabs_group host s ids with
          | Normal groupId =>
              if api_tabGroups host && api_tabGroups_update host
              then [TabGroupsUpdate groupId groupName (getGroupColor groupName)]
              else []
          | Throw _ => []
          end
      end
  | _ => []
  end.

Fixpoint creatingEach (entries : list (string * value)) (s : State) : list Call :=
  match entries with
  | [] => []
  | entry :: rest =>
      creating entry s ++ creatingEach rest (extend s (creating entry s))
  end.

Lemma createOne_run entry s :
  createOne host entry s = (Normal tt, extend s (creating entry s)).
Proof.
  destruct entry as [groupName tabs]. unfold createOne, creating.
  destruct groupName as [|c name]; [rewrite extend_nil; reflexivity|].
  destruct tabs as [| |b|n|k|items|ps|nm]; try (rewrite extend_nil; reflexivity).
  destruct (tabIds items) as [|id ids]; [rewrite extend_nil; reflexivity|].
  unfold try_catch, mbind, M_bind, host_call.
  destruct (tabs_group host s (id :: ids)) as [groupId|e]; [|reflexivity].
  destruct (api_tabGroups host && api_tabGroups_update host); [|reflexivity].
  destruct (tabGroups_update host _ _ _ _) as [[]|e];
    rewrite record_call_extend, record_call_extend, extend_extend; reflexivity.
Qed.

Lemma createEach_run entries s :
  createEach host entries s = (Normal tt, extend s (creatingEach entries s)).
Proof.
  revert s. induction entries as [|entry entries IH]; intros s.
  - cbn. rewrite extend_nil. reflexivity.
  - cbn [createEach creatingEach]. unfold mbind, M_bind.
    rewrite createOne_run, IH, extend_extend. reflexivity.
Qed.

Lemma creating_requests entry s :
  group_requests (creating entry s) = wanted entry
  /\ ungroup_requests (creating entry s) = [].
Proof.
  destruct entry as [[|c name] tabs]; [split; reflexivity|].
  destruct tabs as [| |b|n|k|items|ps|nm]; try (split; reflexivity).
  cbn. destruct (tabIds items) as [|id ids]; [split; reflexivity|].
  destruct (tabs_group host s (id :: ids)); [|split; reflexivity].
  destruct (api_tabGroups host && api_tabGroups_update host); split; reflexivity.
Qed.

Lemma creatingEach_requests entries s :
  group_requests (creatingEach entries s) = flat_map wanted entries
  /\ ungroup_requests (creatingEach entries s) = [].
Proof.
  revert s. induction entries as [|entry entries IH]; intros s; [split; reflexivity|].
  cbn [creatingEach flat_map].
  rewrite group_requests_app, ungroup_requests_app.
  destruct (creating_requests entry s) as [-> ->].
  destruct (IH (extend s (creating entry s))) as [-> ->].
  split; reflexivity.
Qed.

Lemma ungrouping_requests allTabs s :
  group_requests (ungrouping allTabs s) = [].
Proof.
  unfold ungrouping.
  destruct (api_present host && api_tabGroups host && api_tabGroups_query host);
    [|reflexivity].
  cbn. destruct (tabGroups_query host s) as [groups|e]; [|reflexivity].
  induction (flat_map (released allTabs) groups) as [|ids l IH]; [reflexivity|exact IH].
Qed.

Lemma area_set_trace key v s :
  trace (snd (StorageService.area_set host key v s)) = trace s ++ [StorageSet key v].
Proof.
  unfold StorageService.area_set.
  destruct (lastError host s (StorageSet key v)); [reflexivity|].
  destruct (is_undefined v); reflexivity.
Qed.

Lemma saveGroupedTabs_trace s :
  exists saved,
    fst (saveGroupedTabs host s) = Normal tt
    /\ trace (snd (saveGroupedTabs host s)) = trace s ++ saved
    /\ group_requests saved = []
    /\ ungroup_requests saved = [].
Proof.
  unfold saveGroupedTabs, try_catch, mbind, M_bind, gets.
  rewrite StorageFacts.saveSetting_eq.
  match goal with
  | |- context [StorageService.area_set host ?k ?v s] =>
      pose proof (area_set_trace k v s) as H1;
      destruct (StorageService.area_set host k v s) as [[[]|e] s1]
  end; cbn [fst snd] in *.
  2:{ eexists [_]. unfold mret, M_ret. cbn [fst snd]. rewrite H1. cbn. auto. }
  rewrite StorageFacts.saveSetting_eq.
  match goal with
  | |- context [StorageService.area_set host ?k ?v s1] =>
      pose proof (area_set_trace k v s1) as H2;
      destruct (StorageService.area_set host k v s1) as [[[]|e] s2]
  end; unfold mret, M_ret; cbn [fst snd] in *;
    eexists [_; _]; rewrite H2, H1, <- app_assoc; cbn; auto.
Qed.

(** The state in which the browser is first asked: [this.tabGroups] holds the
    well-formed entries of the argument. *)
Definition entered (entries : list (string * value)) (s : State) : State :=
  mkState (store s) (trace s) (apiKey s) (fold_left remember entries []).

(** The calls of [createTabGroups] up to the saving of the groups. *)
Definition grouping (entries : list (string * value)) (s : State) : list Call :=
  if supportsTabGroups host then
    let viaWindow := window_browser_tabs host in
    TabsQuery viaWindow ::
    match tabs_query host (entered entries s) viaWindow with
    | Throw _ => []
    | Normal allTabs =>
        let s1 := extend (entered entries s) [TabsQuery viaWindow] in
        let released := ungrouping allTabs s1 in
        released ++ SetTimeout 200 ::
        creatingEach entries
          (extend (entered entries s)
             (TabsQuery viaWindow :: released ++ [SetTimeout 200]))
    end
  else [].

Lemma createTabGroups_trace entries s :
  exists saved,
    trace (snd (createTabGroups host (AMap entries) s))
      = trace s ++ grouping entries s ++ saved
    /\ group_requests saved = []
    /\ ungroup_requests saved = [].
Proof.
  unfold createTabGroups, grouping.
  unfold mbind at 1, M_bind at 1, modify at 1.
  unfold try_catch at 1, mbind at 1, M_bind at 1, modify at 1.
  change (with_tabGroups _ (with_tabGroups [] s)) with (entered entries s).
  destruct (supportsTabGroups host).
  2:{ unfold mbind, M_bind, mret, M_ret.
      destruct (saveGroupedTabs_trace (entered entries s))
        as (saved & Hreturn & Htrace & Hg & Hu).
      exists saved. destruct (saveGroupedTabs host (entered entries s)) as [[[]|e] s'];
        cbn in *; try discriminate. auto. }
  cbn zeta. unfold mbind at 1, M_bind at 1.
  unfold mbind at 1, M_bind at 1, host_call at 1.
  destruct (tabs_query host (entered entries s) (window_browser_tabs host))
    as [allTabs|e].
  2:{ exists []. cbn. auto. }
  unfold mbind at 1, M_bind at 1.
  rewrite ungroupAllTabs_run.
  unfold mbind at 1, M_bind at 1, host_call at 1.
  rewrite createEach_run.
  rewrite !record_call_extend, !extend_extend.
  match goal with
  | |- context [saveGroupedTabs host ?st] =>
      destruct (saveGroupedTabs_trace st) as (saved & Hreturn & Htrace & Hg & Hu);
      destruct (saveGroupedTabs host st) as [[[]|e] s'] eqn:Hsave
  end; cbn [fst snd] in *; try discriminate.
  exists saved. rewrite Htrace. cbn [extend trace entered].
  split; [|auto].
  rewrite <- !app_assoc. cbn. rewrite <- !app_assoc. reflexivity.
Qed.

Lemma no_group_request calls i ids :
  group_requests calls = [] -> calls !! i = Some (TabsGroup ids) -> False.
Proof.
  intros Hnone Hi.
  assert (Hin : ids ∈ group_requests calls).
  { apply list_elem_of_omap. exists (TabsGroup ids).
    split; [|reflexivity]. eapply list_elem_of_lookup_2, Hi. }
  rewrite Hnone in Hin. inversion Hin.
Qed.

Lemma no_ungroup_request calls j ids :
  ungroup_requests calls = [] -> calls !! j = Some (TabsUngroup ids) -> False.
Proof.
  intros Hnone Hj.
  assert (Hin : ids ∈ ungroup_requests calls).
  { apply list_elem_of_omap. exists (TabsUngroup ids).
    split; [|reflexivity]. eapply list_elem_of_lookup_2, Hj. }
  rewrite Hnone in Hin. inversion Hin.
Qed.

(** When a first phase creates no group and a second phase releases none,
    every release comes before every creation. *)
Lemma phases_in_order (first second : list Call) i j ids ids' :
  group_requests first = [] ->
  ungroup_requests second = [] ->
  (first ++ second) !! i = Some (TabsGroup ids) ->
  (first ++ second) !! j = Some (TabsUngroup ids') ->
  (j < i)%nat.
Proof.
  intros Hfirst Hsecond Hi Hj.
  destruct (decide (i < length first)%nat) as [Hlt|Hge].
  { rewrite lookup_app_l in Hi by exact Hlt.
    destruct (no_group_request _ _ _ Hfirst Hi). }
  destruct (decide (j < length first)%nat) as [Hlt'|Hge']; [lia|].
  rewrite lookup_app_r in Hj by lia.
  destruct (no_ungroup_request _ _ _ Hsecond Hj).
Qed.

Lemma tabIdsInGroup_member allTabs group tab id :
  In tab allTabs ->
  tab_groupId tab = group_id group ->
  tab_id tab = Some id ->
  In id (tabIdsInGroup allTabs group).
Proof.
  intros Htab Hgroup Hid. unfold tabIdsInGroup.
  apply list_elem_of_In, list_elem_of_omap. exists tab. split; [|exact Hid].
  apply list_elem_of_In, filter_In. split; [exact Htab|].
  rewrite Hgroup. apply Z.eqb_refl.
Qed.

(** C1, as far as the code goes: the calls of one invocation are in two
    phases. No [tabs.group] call comes before a [tabs.ungroup] call; and
    when the tabs of the current window and the existing groups have been
    queried, every tab that [tabs.query] reported with a tab id and with the
    id of an existing group is among the tabs of a [tabs.ungroup] call. *)
Theorem createTabGroups_two_phase (arg : argument) (s : State) :
  exists calls,
    trace (snd (createTabGroups host arg s)) = trace s ++ calls
    /\ (forall i j ids ids',
          calls !! i = Some (TabsGroup ids) ->
          calls !! j = Some (TabsUngroup ids') ->
          (j < i)%nat)
    /\ (forall entries allTabs groups,
          arg = AMap entries ->
          supportsTabGroups host = true ->
          tabs_query host (entered entries s) (window_browser_tabs host)
            = Normal allTabs ->
          api_present host && api_tabGroups host && api_tabGroups_query host = true ->
          tabGroups_query host
            (extend (entered entries s) [TabsQuery (window_browser_tabs host)])
            = Normal groups ->
          forall group tab id,
            In group groups ->
            In tab allTabs ->
            tab_groupId tab = group_id group ->
            tab_id tab = Some id ->
            exists j ids, calls !! j = Some (TabsUngroup ids) /\ In id ids).
Proof.
  destruct arg as [|entries].
  { exists []. split; [cbn; rewrite app_nil_r; reflexivity|].
    split; [intros i j ids ids' Hi; rewrite lookup_nil in Hi; discriminate|].
    intros entries allTabs groups Harg. discriminate. }
  destruct (createTabGroups_trace entries s) as (saved & Htrace & Hsaved & Hsaved').
  exists (grouping entries s ++ saved). split; [exact Htrace|].
  unfold grouping.
  destruct (supportsTabGroups host).
  2:{ split.
      - intros i j ids ids' _ Hj. cbn in Hj.
        destruct (no_ungroup_request _ _ _ Hsaved' Hj).
      - intros entries' allTabs groups _ Hsupport. discriminate. }
  cbn zeta.
  destruct (tabs_query host (entered entries s) (window_browser_tabs host))
    as [allTabs|e] eqn:Hquery.
  2:{ split.
      - intros i j ids ids' _ Hj. destruct j as [|j]; [discriminate|].
        cbn in Hj. destruct (no_ungroup_request _ _ _ Hsaved' Hj).
      - intros entries' allTabs groups [= <-] _ Hquery'. congruence. }
  set (viaWindow := window_browser_tabs host).
  set (s1 := extend (entered entries s) [TabsQuery viaWindow]).
  set (released := ungrouping allTabs s1).
  set (created := creatingEach entries _).
  split.
  - intros i j ids ids'.
    replace ((TabsQuery viaWindow :: released ++ SetTimeout 200 :: created) ++ saved)
      with ((TabsQuery viaWindow :: released) ++ (SetTimeout 200 :: created ++ saved))
      by (cbn; rewrite <- !app_assoc; reflexivity).
    apply phases_in_order.
    + cbn. apply ungrouping_requests.
    + cbn. rewrite ungroup_requests_app, Hsaved'.
      subst created.
      match goal with
      | |- context [creatingEach entries ?st] =>
          destruct (creatingEach_requests entries st) as [_ ->]
      end.
      reflexivity.
  - intros entries' allTabs' groups [= <-] _ Hquery' Hapi Hgroups
           group tab id Hgroup Htab Hin Hid.
    assert (allTabs' = allTabs) as ->
      by (unfold viaWindow in Hquery'; congruence).
    pose proof (tabIdsInGroup_member _ _ _ _ Htab Hin Hid) as Hmember.
    assert (Hcall : TabsUngroup (tabIdsInGroup allTabs group)
                    ∈ (TabsQuery viaWindow :: released ++ SetTimeout 200 :: created)
                      ++ saved).
    { apply elem_of_app. left. apply elem_of_cons. right.
      apply elem_of_app. left.
      unfold released, ungrouping. rewrite Hapi. fold s1 in Hgroups.
      rewrite Hgroups. apply elem_of_cons. right.
      apply list_elem_of_In, in_map, in_flat_map. exists group. split; [exact Hgroup|].
      unfold GroupingFacts.released.
      destruct (tabIdsInGroup allTabs group); [destruct Hmember | left; reflexivity]. }
    apply list_elem_of_lookup_1 in Hcall as [j Hj].
    exists j, (tabIdsInGroup allTabs group). split; [exact Hj | exact Hmember].
Qed.


End Order.

(** *** A browser with tab groups, in which nothing can be released and the
    first group cannot be created *)

Definition open_tabs : list BrowserTab :=
  [ {| tab_id := Some 11; tab_groupId := 5 |};
    {| tab_id := Some 12; tab_groupId := 5 |};
    {| tab_id := Some 13; tab_groupId := -1 |};
    {| tab_id := None; tab_groupId := 6 |} ].

Definition existing_groups : list TabGroup :=
  [ {| group_id := 5; group_title := "Old" |};
    {| group_id := 6; group_title := "" |} ].

Definition chromium : Host :=
  {| JSON_parse := fun _ => None;
     URL_hostname := fun _ => None;
     Date_now := fun _ => 1700000000000;
     lastError := fun _ _ => None;
     fetch := fun _ _ _ _ => Scenario.offline;
     api_present := true;
     api_tabs := true;
     api_tabs_group := true;
     api_tabGroups := true;
     api_tabGroups_query := true;
     api_tabGroups_update := true;
     window_browser_tabs := false;
     tabs_query := fun _ _ => Normal open_tabs;
     tabGroups_query := fun _ => Normal existing_groups;
     tabs_ungroup := fun _ _ => Throw (Error "Tabs cannot be edited right now.");
     tabs_group := fun _ ids =>
       match ids with
       | 11 :: _ => Throw (Error "Tabs cannot be edited right now.")
       | _ => Normal 40
       end;
     tabGroups_update := fun _ _ _ _ => Normal tt |}.

Definition tab (id : Z) : value :=
  VObj [("id", VNum id); ("title", VStr "Tab"); ("url", VStr "https://example.org/")].

Definition requested : list (string * value) :=
  [ ("Work", VArr [tab 11; tab 12]);
    ("", VArr [tab 13]);
    ("Play", VArr [VNull; tab 13]);
    ("Later", VArr []) ].

Example createTabGroups_trace_chromium :
  trace (snd (createTabGroups chromium (AMap requested) (Scenario.fresh ∅)))
  = [ TabsQuery false; TabGroupsQuery; TabsUngroup [11; 12]; SetTimeout 200;
      TabsGroup [11; 12]; TabsGroup [13]; TabGroupsUpdate 40 "Play" "pink";
      StorageSet "groupedTabs"
        (VObj [("Work", VArr [tab 11; tab 12]); ("Play", VArr [VNull; tab 13]);
               ("Later", VArr [])]);
      StorageSet "groupedTabsTimestamp" (VNum 1700000000000) ].
Proof. vm_compute. reflexivity. Qed.

Lemma createTabGroups_two_phase_witness :
  supportsTabGroups chromium = true
  /\ tabs_query chromium (entered requested (Scenario.fresh ∅)) false = Normal open_tabs
  /\ tabGroups_query chromium
       (extend (entered requested (Scenario.fresh ∅)) [TabsQuery false])
     = Normal existing_groups
  /\ exists calls,
       trace (snd (createTabGroups chromium (AMap requested) (Scenario.fresh ∅)))
         = [] ++ calls
       /\ exists j ids, calls !! j = Some (TabsUngroup ids) /\ In 12 ids.
Proof.
  split; [reflexivity|]. split; [reflexivity|]. split; [reflexivity|].
  destruct (createTabGroups_two_phase chromium (AMap requested) (Scenario.fresh ∅))
    as (calls & Htrace & _ & Hreleased).
  exists calls. split; [exact Htrace|].
  apply (Hreleased requested open_tabs existing_groups
           eq_refl eq_refl eq_refl eq_refl eq_refl
           {| group_id := 5; group_title := "Old" |}
           {| tab_id := Some 12; tab_groupId := 5 |} 12).
  - left. reflexivity.
  - right. left. reflexivity.
  - reflexivity.
  - reflexivity.
Defined.


(** The first phase of C1 as it is worded: the tabs of every group that
    [tabGroups.query] returns are passed to [tabs.ungroup]. [inGroup g] are
    the tabs the browser has in the group [g], in whatever window; the tabs
    that [tabs.query] reports for the current window are among them. *)
Definition ungroups_every_existing_group : Prop :=
  forall (host : Host) (inGroup : Z -> list Z) (entries : list (string * value))
         (s : State) (allTabs : list BrowserTab) (groups : list TabGroup),
    supportsTabGroups host = true ->
    tabs_query host (entered entries s) (window_browser_tabs host) = Normal allTabs ->
    api_present host && api_tabGroups host && api_tabGroups_query host = true ->
    tabGroups_query host
      (extend (entered entries s) [TabsQuery (window_browser_tabs host)])
      = Normal groups ->
    (forall tab id, In tab allTabs -> tab_id tab = Some id ->
       In id (inGroup (tab_groupId tab))) ->
    forall group id, In group groups -> In id (inGroup (group_id group)) ->
      exists ids,
        In (TabsUngroup ids) (trace (snd (createTabGroups host (AMap entries) s)))
        /\ In id ids.

(** A browser with two windows. Tab 11 is in the current window, in group 5;
    tab 21 is in the other window, in group 7. [tabs.query] is asked for the
    current window and reports tab 11; [tabGroups.query] is asked without a
    filter and returns both groups. *)
Definition two_windows : Host :=
  {| JSON_parse := fun _ => None;
     URL_hostname := fun _ => None;
     Date_now := fun _ => 1700000000000;
     lastError := fun _ _ => None;
     fetch := fun _ _ _ _ => Scenario.offline;
     api_present := true;
     api_tabs := true;
     api_tabs_group := true;
     api_tabGroups := true;
     api_tabGroups_query := true;
     api_tabGroups_update := true;
     window_browser_tabs := false;
     tabs_query := fun _ _ => Normal [ {| tab_id := Some 11; tab_groupId := 5 |} ];
     tabGroups_query := fun _ =>
       Normal [ {| group_id := 5; group_title := "Old" |};
                {| group_id := 7; group_title := "Elsewhere" |} ];
     tabs_ungroup := fun _ _ => Normal tt;
     tabs_group := fun _ _ => Normal 40;
     tabGroups_update := fun _ _ _ _ => Normal tt |}.

Definition tabs_of_group (g : Z) : list Z :=
  if g =? 5 then [11] else if g =? 7 then [21] else [].

(** The group of the other window gets no [tabs.ungroup] call, and the new
    group is created all the same. *)
Example createTabGroups_trace_two_windows :
  trace (snd (createTabGroups two_windows (AMap [("Work", VArr [tab 11])])
                (Scenario.fresh ∅)))
  = [ TabsQuery false; TabGroupsQuery; TabsUngroup [11]; SetTimeout 200;
      TabsGroup [11]; TabGroupsUpdate 40 "Work" "pink";
      StorageSet "groupedTabs" (VObj [("Work", VArr [tab 11])]);
      StorageSet "groupedTabsTimestamp" (VNum 1700000000000) ].
Proof. vm_compute. reflexivity. Qed.

(** Tab 21 of group 7 is passed to no [tabs.ungroup] call. *)
Lemma ungroups_every_existing_group_fails : ~ ungroups_every_existing_group.
Proof.
  intros H.
  destruct (H two_windows tabs_of_group [("Work", VArr [tab 11])] (Scenario.fresh ∅)
              [ {| tab_id := Some 11; tab_groupId := 5 |} ]
              [ {| group_id := 5; group_title := "Old" |};
                {| group_id := 7; group_title := "Elsewhere" |} ]
              eq_refl eq_refl eq_refl eq_refl)
    with (group := {| group_id := 7; group_title := "Elsewhere" |}) (id := 21)
    as (ids & Hcall & Hid).
  - intros t id [<- | []] Hsome. injection Hsome as <-. left. reflexivity.
  - right. left. reflexivity.
  - left. reflexivity.
  - rewrite createTabGroups_trace_two_windows in Hcall.
    repeat (destruct Hcall as [Hcall | Hcall]; [try discriminate Hcall|]).
    + injection Hcall as <-. destruct Hid as [Hid | []]. discriminate Hid.
    + destruct Hcall.
Qed.

Lemma try_catch_returns (m : M unit) (s : State) :
  fst (try_catch m (fun _ => mret tt) s) = Normal tt.
Proof. unfold try_catch. destruct (m s) as [[[]|e] s']; reflexivity. Qed.

(** [createTabGroups] itself never throws. *)
Lemma createTabGroups_returns (host : Host) (arg : argument) (s : State) :
  fst (createTabGroups host arg s) = Normal tt.
Proof.
  unfold createTabGroups. unfold mbind at 1, M_bind at 1, modify at 1.
  apply try_catch_returns.
Qed.

End GroupingFacts.

(** ** AIService: the fallback grouping when it returns *)

Module PartitionFacts.
Import AIService.
Local Open Scope list_scope.

Lemma own_items_assign k k' items own :
  own_items k (assign k' items own)
  = if String.eqb k k' then Some items else own_items k own.
Proof.
  induction own as [|[k0 old] own IH]; cbn.
  - destruct (String.eqb k k'); reflexivity.
  - destruct (String.eqb k' k0) eqn:E0; cbn.
    + apply String.eqb_eq in E0 as <-.
      destruct (String.eqb k k'); reflexivity.
    + destruct (String.eqb k k0) eqn:E1; [|exact IH].
      apply String.eqb_eq in E1 as ->.
      rewrite String.eqb_sym, E0. reflexivity.
Qed.

Lemma assign_keys k items own :
  map fst (assign k items own)
  = if existsb (String.eqb k) (map fst own) then map fst own
    else map fst own ++ [k].
Proof.
  induction own as [|[k0 old] own IH]; cbn; [reflexivity|].
  destruct (String.eqb k k0) eqn:E0; cbn; [reflexivity|].
  rewrite IH. destruct (existsb (String.eqb k) (map fst own)); reflexivity.
Qed.

Lemma assign_NoDup k items own :
  NoDup (map fst own) -> NoDup (map fst (assign k items own)).
Proof.
  intros Hown. rewrite assign_keys.
  destruct (existsb (String.eqb k) (map fst own)) eqn:E; [exact Hown|].
  apply NoDup_app. split; [exact Hown|]. split; [|apply NoDup_singleton].
  intros x Hx Hk. apply list_elem_of_singleton in Hk as ->.
  assert (Htrue : existsb (String.eqb k) (map fst own) = true).
  { apply existsb_exists. exists k. split; [apply list_elem_of_In, Hx|].
    apply String.eqb_refl. }
  congruence.
Qed.

Lemma own_items_lookup k items own :
  NoDup (map fst own) ->
  own_items k own = Some items <-> (k, items) ∈ own.
Proof.
  induction own as [|[k0 old] own IH]; cbn; intros Hown.
  - split; [discriminate | intros H; inversion H].
  - apply NoDup_cons in Hown as [Hfresh Hown].
    destruct (String.eqb k k0) eqn:E.
    + apply String.eqb_eq in E as ->. split.
      * intros [= ->]. left.
      * intros H. apply elem_of_cons in H as [[= ->] | H]; [reflexivity|].
        destruct Hfresh. apply list_elem_of_fmap. exists (k0, items). auto.
    + rewrite (IH Hown). split.
      * intros H. right. exact H.
      * intros H. apply elem_of_cons in H as [[= -> ->] | H]; [|exact H].
        rewrite String.eqb_refl in E. discriminate.
Qed.

Lemma insert_by_index_perm {A : Type} n (e : string * A) sorted :
  map snd (insert_by_index n e sorted) ≡ₚ e :: map snd sorted.
Proof.
  induction sorted as [|[m e'] sorted IH]; cbn; [reflexivity|].
  destruct (n <? m)%N; cbn; [reflexivity|].
  rewrite IH. apply perm_swap.
Qed.

(** [Object.entries] lists every own property once. *)
Lemma entries_perm {A : Type} (own : list (string * A)) : entries own ≡ₚ own.
Proof.
  unfold entries. induction own as [|[k a] own IH]; cbn; [reflexivity|].
  destruct (array_index k).
  - rewrite insert_by_index_perm. cbn. rewrite IH. reflexivity.
  - rewrite <- Permutation_middle, IH. reflexivity.
Qed.

Section Partition.
Context (host : Host).

(** The usable tabs of category [k], in the order of the input. *)
Definition in_category (k : string) (tab : value) : bool :=
  usable tab
  && match categorizeTab host tab with
     | Normal c => String.eqb c k
     | Throw _ => false
     end.

Definition members (k : string) (tabs : list value) : list value :=
  List.filter (in_category k) tabs.

Lemma push_spec category tab own own' :
  push category tab own = Normal own' ->
  Js.inherited category = false \/ (exists items, own_items category own = Some items).
Proof.
  unfold push, lookup.
  destruct (own_items category own) as [items|] eqn:Hown; [eauto|].
  destruct (Js.inherited category); [|auto].
  rewrite Hown. cbn. discriminate.
Qed.

Lemma push_own_items category tab own own' :
  push category tab own = Normal own' ->
  forall k,
    own_items k own'
    = if String.eqb k category
      then Some (default [] (own_items category own) ++ [tab])
      else own_items k own.
Proof.
  unfold push, lookup. intros Hpush k.
  destruct (own_items category own) as [items|] eqn:Hown.
  - rewrite Hown in Hpush. injection Hpush as <-.
    rewrite own_items_assign. reflexivity.
  - destruct (Js.inherited category).
    + rewrite Hown in Hpush. discriminate.
    + rewrite own_items_assign, String.eqb_refl in Hpush.
      injection Hpush as <-. rewrite !own_items_assign.
      destruct (String.eqb k category); reflexivity.
Qed.

Lemma push_NoDup category tab own own' :
  push category tab own = Normal own' ->
  NoDup (map fst own) -> NoDup (map fst own').
Proof.
  unfold push. intros Hpush Hown.
  destruct (lookup own category) eqn:Hlookup.
  - destruct (lookup (assign category [] own) category); try discriminate.
    injection Hpush as <-. apply assign_NoDup, assign_NoDup, Hown.
  - rewrite Hlookup in Hpush. injection Hpush as <-. apply assign_NoDup, Hown.
  - rewrite Hlookup in Hpush. discriminate.
Qed.

Lemma collect_NoDup tabs own own' :
  collect host tabs own = Normal own' ->
  NoDup (map fst own) -> NoDup (map fst own').
Proof.
  revert own. induction tabs as [|tab tabs IH]; intros own; cbn.
  - intros [= <-]. auto.
  - destruct (usable tab); [|apply IH].
    destruct (categorizeTab host tab) as [c|e]; cbn; [|discriminate].
    destruct (push c tab own) as [own1|e] eqn:Hpush; cbn; [|discriminate].
    intros Hrest Hown. eapply IH; [exact Hrest|]. eapply push_NoDup; eauto.
Qed.

Lemma members_cons k tab tabs :
  members k (tab :: tabs)
  = if in_category k tab then tab :: members k tabs else members k tabs.
Proof. reflexivity. Qed.

(** What [tabs.forEach] leaves in [groups]. *)
Lemma collect_own_items tabs own own' :
  collect host tabs own = Normal own' ->
  forall k,
    own_items k own'
    = match own_items k own, members k tabs with
      | Some old, l => Some (old ++ l)
      | None, [] => None
      | None, l => Some l
      end.
Proof.
  revert own. induction tabs as [|tab tabs IH]; intros own; cbn [collect].
  - intros [= <-] k. cbn. destruct (own_items k own); [rewrite app_nil_r|]; reflexivity.
  - intros Hcollect k. rewrite members_cons. unfold in_category.
    destruct (usable tab); cbn [andb]; [|apply IH, Hcollect].
    destruct (categorizeTab host tab) as [c|e]; cbn in Hcollect; [|discriminate].
    destruct (push c tab own) as [own1|e] eqn:Hpush; cbn in Hcollect; [|discriminate].
    rewrite (IH _ Hcollect k), (push_own_items _ _ _ _ Hpush k).
    rewrite (String.eqb_sym c k).
    destruct (String.eqb k c) eqn:E; [|reflexivity].
    apply String.eqb_eq in E as ->.
    destruct (own_items c own) as [old|]; cbn.
    + rewrite <- app_assoc. reflexivity.
    + reflexivity.
Qed.

Lemma collect_returns tabs own :
  (forall tab, In tab tabs -> usable tab = true ->
     exists c, categorizeTab host tab = Normal c /\ Js.inherited c = false) ->
  exists own', collect host tabs own = Normal own'.
Proof.
  revert own. induction tabs as [|tab tabs IH]; intros own Htabs; cbn; [eauto|].
  destruct (usable tab) eqn:Husable.
  - destruct (Htabs tab (or_introl eq_refl) Husable) as (c & -> & Hc). cbn.
    assert (Hpush : exists own1, push c tab own = Normal own1).
    { unfold push, lookup. rewrite Hc.
      destruct (own_items c own) as [items|] eqn:Hown.
      - rewrite Hown. eauto.
      - rewrite own_items_assign, String.eqb_refl. eauto. }
    destruct Hpush as [own1 ->]. cbn. apply IH.
    intros t Ht. apply Htabs. right. exact Ht.
  - apply IH. intros t Ht. apply Htabs. right. exact Ht.
Qed.

Lemma collect_categorized tabs own own' :
  collect host tabs own = Normal own' ->
  forall tab, In tab tabs -> usable tab = true ->
    exists c, categorizeTab host tab = Normal c.
Proof.
  revert own. induction tabs as [|t tabs IH]; intros own Hcollect tab Htab Husable.
  - destruct Htab.
  - cbn in Hcollect. destruct Htab as [-> | Htab].
    + rewrite Husable in Hcollect.
      destruct (categorizeTab host tab) as [c|e]; [eauto | discriminate].
    + destruct (usable t); [|eapply IH; eauto].
      destruct (categorizeTab host t) as [c|e]; cbn in Hcollect; [|discriminate].
      destruct (push c t own) as [own1|e]; cbn in Hcollect; [|discriminate].
      eapply IH; eauto.
Qed.

Lemma members_spec k tab tabs :
  In tab (members k tabs)
  <-> In tab tabs /\ usable tab = true /\ categorizeTab host tab = Normal k.
Proof.
  unfold members. rewrite filter_In. unfold in_category. split.
  - intros [Htab H]. apply andb_true_iff in H as [Husable Hc].
    destruct (categorizeTab host tab) as [c|e]; [|discriminate].
    apply String.eqb_eq in Hc as ->. auto.
  - intros (Htab & -> & ->). rewrite String.eqb_refl. auto.
Qed.

#[local] Instance VStr_inj : Inj (=) (=) VStr.
Proof. intros x y H. injection H as ->. reflexivity. Qed.

(** The groups of a fallback grouping that is returned: one response; the
    subjects are distinct category names; the tabs of a group are the usable
    tabs of that category, in input order, and there is at least one; and
    every usable tab is in the group of its category. *)
Theorem createFallbackGrouping_partition (tabs : list value) (r : list AIResponse) :
  createFallbackGrouping host (VArr tabs) = Normal r ->
  exists response,
    r = [response]
    /\ NoDup (map subject (groups response))
    /\ (forall g, In g (groups response) ->
          exists k, subject g = VStr k
                    /\ AIService.tabs g = members k tabs
                    /\ AIService.tabs g <> [])
    /\ (forall tab, In tab tabs -> usable tab = true ->
          exists c g, categorizeTab host tab = Normal c
                      /\ In g (groups response)
                      /\ subject g = VStr c
                      /\ In tab (AIService.tabs g)).
Proof.
  unfold createFallbackGrouping.
  destruct tabs as [|t ts].
  { cbn. intros H. injection H as <-. eexists. split; [reflexivity|]. cbn.
    split; [constructor|]. split; [intros g []|intros tab []]. }
  set (tabs := t :: ts). cbn iota.
  destruct (collect host tabs []) as [own|e] eqn:Hcollect; cbn; [|discriminate].
  intros H. injection H as <-. eexists. split; [reflexivity|]. cbn [groups].
  assert (Hnodup : NoDup (map fst own)).
  { eapply collect_NoDup; [exact Hcollect | constructor]. }
  assert (Hitems : forall k items,
            (k, items) ∈ entries own <-> items = members k tabs /\ items <> []).
  { intros k items. rewrite entries_perm, <- (own_items_lookup _ _ _ Hnodup).
    rewrite (collect_own_items _ _ _ Hcollect k). cbn [own_items].
    destruct (members k tabs) as [|m ms].
    - split; [intros H; discriminate H | intros [-> H]; destruct H; reflexivity].
    - split; [intros [= <-]; split; [reflexivity | discriminate]
             | intros [-> _]; reflexivity]. }
  split; [|split].
  - rewrite map_map. cbn.
    change (map (fun x : string * list value => VStr (fst x)) (entries own))
      with (map (fun x => VStr (fst x)) (entries own)).
    rewrite <- (map_map fst VStr).
    apply (NoDup_fmap_2 VStr).
    rewrite entries_perm. exact Hnodup.
  - intros g Hg. apply in_map_iff in Hg as ([k items] & <- & Hentry).
    apply list_elem_of_In, Hitems in Hentry as [-> Hne].
    exists k. cbn. auto.
  - intros tab Htab Husable.
    destruct (collect_categorized _ _ _ Hcollect tab Htab Husable) as [c Hc].
    assert (Hmember : In tab (members c tabs)).
    { apply members_spec. auto. }
    exists c, (group_of (c, members c tabs)). split; [exact Hc|].
    split; [|split; [reflexivity | exact Hmember]].
    apply in_map, list_elem_of_In, Hitems. split; [reflexivity|].
    intros Hnil. rewrite Hnil in Hmember. destruct Hmember.
Qed.

(** Hence a tab is in at most one group, and only usable tabs are grouped. *)
Corollary createFallbackGrouping_disjoint (tabs : list value) (response : AIResponse) :
  createFallbackGrouping host (VArr tabs) = Normal [response] ->
  forall g tab, In g (groups response) -> In tab (AIService.tabs g) ->
    In tab tabs /\ usable tab = true
    /\ forall g', In g' (groups response) -> In tab (AIService.tabs g') -> g' = g.
Proof.
  intros Hreturn g tab Hg Htab.
  destruct (createFallbackGrouping_partition tabs _ Hreturn)
    as (response' & [= <-] & _ & Hgroups & _).
  destruct (Hgroups g Hg) as (k & Hk & Htabs & _).
  rewrite Htabs in Htab. apply members_spec in Htab as (Hin & Husable & Hc).
  split; [exact Hin|]. split; [exact Husable|].
  intros g' Hg' Htab'.
  destruct (Hgroups g' Hg') as (k' & Hk' & Htabs' & _).
  rewrite Htabs' in Htab'. apply members_spec in Htab' as (_ & _ & Hc').
  assert (k' = k) as -> by congruence.
  destruct g as [sg tg], g' as [sg' tg']. cbn in *. congruence.
Qed.

(** The fallback grouping returns when every usable tab has a category that
    is not the name of a member of [Object.prototype]. *)
Lemma createFallbackGrouping_returns (tabs : list value) :
  (forall tab, In tab tabs -> usable tab = true ->
     exists c, categorizeTab host tab = Normal c /\ Js.inherited c = false) ->
  exists r, createFallbackGrouping host (VArr tabs) = Normal r.
Proof.
  intros Htabs. unfold createFallbackGrouping.
  destruct tabs as [|t ts]; [eauto|].
  destruct (collect_returns (t :: ts) [] Htabs) as [own ->]. cbn. eauto.
Qed.

End Partition.

End PartitionFacts.

(** ** StorageService: the self test and the bulk operations *)

Module SettingsFacts.
Import StorageService StorageFacts Scenario.

Definition TEST_KEY : string := "storage_test".

Definition no_error (e : option string) : bool :=
  match e with None => true | Some _ => false end.

Section SelfTest.
Context (host : Host).

(** The value [testStorage] writes in state [s]. *)
Definition testValue (s : State) : value :=
  VStr ("test_value_" +:+ JsOps.toString (Date_now host s)).

Lemma removeSetting_store key s :
  store (snd (removeSetting host key s)) =
    match lastError host s (StorageRemove key) with
    | Some _ => store s
    | None => delete key (store s)
    end.
Proof.
  rewrite removeSetting_eq. unfold area_remove.
  destruct (lastError host s (StorageRemove key)); reflexivity.
Qed.

Lemma getSetting_state key s :
  snd (getSetting host key s) = record_call (StorageGet key) s.
Proof. rewrite getSetting_spec. reflexivity. Qed.

(** [testStorage] step by step. *)
Lemma testStorage_run s :
  let s1 := snd (saveSetting host TEST_KEY (testValue s) s) in
  let s2 := record_call (StorageGet TEST_KEY) s1 in
  let s3 := snd (removeSetting host TEST_KEY s2) in
  testStorage host s =
    match lastError host s (StorageSet TEST_KEY (testValue s)) with
    | Some _ => (Normal false, s1)
    | None =>
        match lastError host s2 (StorageRemove TEST_KEY) with
        | Some _ => (Normal false, s3)
        | None =>
            (Normal (no_error (lastError host s1 (StorageGet TEST_KEY))),
             record_call (StorageGet TEST_KEY) s3)
        end
    end.
Proof.
  intros s1 s2 s3. subst s1 s2 s3.
  unfold testStorage, try_catch, mbind, M_bind, gets, testValue, TEST_KEY.
  rewrite saveSetting_eq. unfold area_set.
  cbn [is_undefined].
  destruct (lastError host s (StorageSet _ _)) as [msg|]; [reflexivity|].
  cbn [snd]. rewrite getSetting_spec.
  rewrite removeSetting_eq. unfold area_remove.
  destruct (lastError host _ (StorageRemove _)) as [msg|]; [reflexivity|].
  cbn [snd]. rewrite getSetting_spec. unfold mret, M_ret. f_equal. f_equal.
  cbn [store record_call with_store]. unfold reading.
  rewrite lookup_delete_eq, lookup_insert_eq. cbn [Js.inherited].
  replace (JsOps.is_null _) with true
    by (destruct (lastError host _ (StorageGet _)); reflexivity).
  rewrite andb_true_r.
  destruct (lastError host _ (StorageGet _)) as [msg|]; [reflexivity|].
  cbn [JsOps.equalsString no_error]. apply String.eqb_refl.
Qed.

(** [testStorage] never throws, and it answers [true] exactly when the save,
    the read that follows it and the removal report no error. The read after
    the removal does not count: a failed read is answered with [null], which
    is what the test expects there. *)
Theorem testStorage_outcome (s : State) :
  let s1 := snd (saveSetting host TEST_KEY (testValue s) s) in
  let s2 := snd (getSetting host TEST_KEY s1) in
  fst (testStorage host s) =
    Normal (no_error (lastError host s (StorageSet TEST_KEY (testValue s)))
            && no_error (lastError host s1 (StorageGet TEST_KEY))
            && no_error (lastError host s2 (StorageRemove TEST_KEY))).
Proof.
  intros s1 s2. subst s2. rewrite getSetting_state. rewrite testStorage_run.
  fold s1.
  destruct (lastError host s (StorageSet _ _)) as [msg|]; [reflexivity|].
  destruct (lastError host (record_call _ s1) (StorageRemove _)) as [msg|].
  - cbn [fst no_error]. rewrite andb_false_r. reflexivity.
  - cbn [fst no_error]. rewrite andb_true_r. reflexivity.
Qed.

(** [testStorage] touches no setting but its own: what is stored under every
    other key stays. After a test that passed, [storage_test] is not stored;
    after a test whose save went through and whose removal failed, it is
    left behind with the test value. *)
Theorem testStorage_footprint (s : State) :
  let s' := snd (testStorage host s) in
  (forall k, k <> TEST_KEY -> store s' !! k = store s !! k)
  /\ (fst (testStorage host s) = Normal true -> store s' !! TEST_KEY = None)
  /\ (forall s1 msg,
        saveSetting host TEST_KEY (testValue s) s = (Normal tt, s1) ->
        lastError host (record_call (StorageGet TEST_KEY) s1)
          (StorageRemove TEST_KEY) = Some msg ->
        store s' !! TEST_KEY = Some (testValue s)).
Proof.
  intros s'. subst s'. rewrite testStorage_run.
  pose proof (saveSetting_store host TEST_KEY (testValue s) s) as Hsaved.
  pose proof (removeSetting_store TEST_KEY
    (record_call (StorageGet TEST_KEY)
       (snd (saveSetting host TEST_KEY (testValue s) s)))) as Hremoved.
  cbn [store record_call] in Hremoved.
  cbn [is_undefined testValue] in Hsaved.
  split; [|split].
  - intros k Hk.
    destruct (lastError host s (StorageSet _ _)) as [msg|].
    { cbn [snd]. rewrite Hsaved. reflexivity. }
    destruct (lastError host _ (StorageRemove _)) as [msg|];
      cbn [snd store record_call]; rewrite Hremoved, ?Hsaved.
    + apply lookup_insert_ne. congruence.
    + rewrite lookup_delete_ne by congruence. apply lookup_insert_ne. congruence.
  - destruct (lastError host s (StorageSet _ _)) as [msg|].
    { cbn [fst]. intros H. discriminate H. }
    destruct (lastError host _ (StorageRemove _)) as [msg|].
    { cbn [fst]. intros H. discriminate H. }
    intros _. cbn [snd store record_call]. rewrite Hremoved.
    apply lookup_delete_eq.
  - intros s1 msg Hsave Hfail.
    rewrite saveSetting_eq in Hsave. unfold area_set in Hsave.
    rewrite saveSetting_eq in Hremoved |- *. unfold area_set in Hremoved |- *.
    cbn [is_undefined testValue] in Hsave, Hremoved |- *.
    destruct (lastError host s (StorageSet _ _)) as [msg'|]; [discriminate Hsave|].
    injection Hsave as <-. cbn [snd] in Hremoved |- *.
    rewrite Hfail in Hremoved |- *. cbn [snd]. rewrite Hremoved.
    cbn [store record_call with_store]. apply lookup_insert_eq.
Qed.

End SelfTest.

(** The host [h] with a storage area that reports errors as [report] says. *)
Definition reporting (report : State -> Call -> option string) (h : Host) : Host :=
  {| JSON_parse := JSON_parse h;
     URL_hostname := URL_hostname h;
     Date_now := Date_now h;
     lastError := report;
     fetch := fetch h;
     api_present := api_present h;
     api_tabs := api_tabs h;
     api_tabs_group := api_tabs_group h;
     api_tabGroups := api_tabGroups h;
     api_tabGroups_query := api_tabGroups_query h;
     api_tabGroups_update := api_tabGroups_update h;
     window_browser_tabs := window_browser_tabs h;
     tabs_query := tabs_query h;
     tabGroups_query := tabGroups_query h;
     tabs_ungroup := tabs_ungroup h;
     tabs_group := tabs_group h;
     tabGroups_update := tabGroups_update h |}.

(** A browser whose storage area refuses every removal. *)
Definition sticky : Host :=
  reporting (fun _ c => match c with
                        | StorageRemove _ => Some "QUOTA_BYTES quota exceeded"
                        | _ => None
                        end) quiet.

Lemma testStorage_footprint_witness :
  let s := fresh {[ "options" := VNum 7 ]} in
  (fst (testStorage quiet s) = Normal true
   /\ store (snd (testStorage quiet s)) !! "options" = Some (VNum 7)
   /\ store (snd (testStorage quiet s)) !! TEST_KEY = None)
  /\ (fst (testStorage sticky s) = Normal false
      /\ store (snd (testStorage sticky s)) !! TEST_KEY = Some (testValue sticky s)).
Proof.
  intros s.
  destruct (testStorage_footprint quiet s) as [Hother [Hpassed _]].
  destruct (testStorage_footprint sticky s) as [_ [_ Hleft]].
  assert (Hresult : fst (testStorage quiet s) = Normal true).
  { vm_compute. reflexivity. }
  split; [split; [exact Hresult | split]|split].
  - rewrite Hother; [vm_compute; reflexivity | discriminate].
  - apply Hpassed, Hresult.
  - vm_compute. reflexivity.
  - apply (Hleft (snd (saveSetting sticky TEST_KEY (testValue sticky s) s))
                  "QUOTA_BYTES quota exceeded"); reflexivity.
Defined.

Section BulkLaws.
Context (host : Host).
Context (readAllError : State -> option string).
Context (clearError : State -> option exn).

Lemma own_elem_of (props : list (string * value)) :
  NoDup props.*1 ->
  forall k v, Js.own k props = Some v <-> (k, v) ∈ props.
Proof.
  induction props as [|[k' v'] rest IH]; intros Hnodup k v.
  - split; [intros H; discriminate H | intros H; inversion H].
  - cbn [fmap list_fmap fst] in Hnodup. apply NoDup_cons in Hnodup as [Hfresh Hrest].
    cbn [Js.own]. destruct (String.eqb_spec k k') as [->|Hne].
    + split.
      * intros H. injection H as <-. left.
      * intros H. apply elem_of_cons in H as [H|H].
        -- injection H as <-. reflexivity.
        -- exfalso. apply Hfresh. apply list_elem_of_fmap. exists (k', v). auto.
    + rewrite (IH Hrest). split.
      * intros H. right. exact H.
      * intros H. apply elem_of_cons in H as [H|H]; [congruence | exact H].
Qed.

Lemma own_map_to_list (m : gmap string value) (k : string) :
  Js.own k (map_to_list m) = m !! k.
Proof.
  destruct (m !! k) as [v|] eqn:Hm.
  - apply (own_elem_of _ (NoDup_fst_map_to_list m)), elem_of_map_to_list, Hm.
  - destruct (Js.own k (map_to_list m)) as [v|] eqn:Ho; [|reflexivity].
    apply (own_elem_of _ (NoDup_fst_map_to_list m)), elem_of_map_to_list in Ho.
    congruence.
Qed.

(** [getSettings] never throws and changes nothing: a bulk read that fails is
    answered with the empty object. The object of a bulk read that went
    through agrees with [getSetting] key by key: a [getSetting(k)] whose own
    read reports no error returns [settings[k]], with [null] for
    [undefined]. *)
Theorem getSettings_agrees (s : State) :
  exists settings,
    getSettings readAllError s = (Normal settings, s)
    /\ (readAllError s <> None -> settings = VObj [])
    /\ (readAllError s = None ->
        forall k, lastError host s (StorageGet k) = None ->
          fst (getSetting host k s) =
            Normal (if is_undefined (Js.get settings k) then VNull
                    else Js.get settings k)).
Proof.
  unfold getSettings, try_catch, mbind, M_bind, area_get_all.
  destruct (readAllError s) as [msg|].
  - exists (VObj []). split; [reflexivity|]. split; [reflexivity|].
    intros H. discriminate H.
  - exists (VObj (map_to_list (store s))). split; [reflexivity|].
    split; [intros H; congruence|].
    intros _ k Hread. rewrite getSetting_spec, Hread. cbn [fst Js.get].
    rewrite own_map_to_list. unfold reading.
    destruct (store s !! k) as [v|].
    + destruct v; reflexivity.
    + destruct (Js.inherited k); reflexivity.
Qed.

(** [clearAllSettings] never throws. When the area's [clear()] goes through,
    nothing is stored any more: a bulk read answers with the empty object and
    [getSetting] with [null], for every key that is not the name of a member
    of [Object.prototype]. When [clear()] fails, the failure is swallowed and
    everything stays stored. *)
Theorem clearAllSettings_clears (s : State) :
  exists s',
    clearAllSettings clearError s = (Normal tt, s')
    /\ (clearError s = None ->
        store s' = ∅
        /\ (readAllError s' = None ->
            fst (getSettings readAllError s') = Normal (VObj []))
        /\ forall k, Js.inherited k = false ->
             fst (getSetting host k s') = Normal VNull)
    /\ (clearError s <> None -> s' = s).
Proof.
  unfold clearAllSettings, try_catch, area_clear.
  destruct (clearError s) as [e|].
  - exists s. split; [reflexivity|]. split; [intros H; discriminate H|].
    reflexivity.
  - exists (with_store ∅ s). split; [reflexivity|]. split; [|congruence].
    intros _. split; [reflexivity|]. split.
    + intros Hread.
      unfold getSettings, try_catch, mbind, M_bind, area_get_all.
      rewrite Hread. cbn [store with_store]. rewrite map_to_list_empty.
      reflexivity.
    + intros k Hk. rewrite getSetting_spec. cbn [fst store with_store].
      unfold reading. rewrite lookup_empty, Hk.
      destruct (lastError host _ _); reflexivity.
Qed.

End BulkLaws.

Lemma getSettings_agrees_witness :
  let s := fresh {[ "options" := VNum 7 ]} in
  exists settings,
    getSettings (fun _ => None) s = (Normal settings, s)
    /\ fst (getSetting quiet "options" s) =
         Normal (if is_undefined (Js.get settings "options") then VNull
                 else Js.get settings "options")
    /\ fst (getSetting quiet "theme" s) =
         Normal (if is_undefined (Js.get settings "theme") then VNull
                 else Js.get settings "theme").
Proof.
  intros s.
  destruct (getSettings_agrees quiet (fun _ => None) s)
    as [settings [Hrun [_ Hkeys]]].
  exists settings. split; [exact Hrun|].
  split; apply Hkeys; reflexivity.
Defined.

Lemma clearAllSettings_clears_witness :
  let s := fresh {[ "options" := VNum 7 ]} in
  (exists s',
     clearAllSettings (fun _ => None) s = (Normal tt, s')
     /\ store s' = ∅
     /\ fst (getSettings (fun _ => None) s') = Normal (VObj [])
     /\ fst (getSetting quiet "options" s') = Normal VNull)
  /\ clearAllSettings (fun _ => Some (Error "storage is read-only")) s
     = (Normal tt, s).
Proof.
  intros s. split.
  - destruct (clearAllSettings_clears quiet (fun _ => None) (fun _ => None) s)
      as [s' [Hrun [Hcleared _]]].
    destruct (Hcleared eq_refl) as [Hempty [Hbulk Hsingle]].
    exists s'. split; [exact Hrun|]. split; [exact Hempty|].
    split; [apply Hbulk; reflexivity | apply Hsingle; reflexivity].
  - destruct (clearAllSettings_clears quiet (fun _ => None)
                (fun _ => Some (Error "storage is read-only")) s)
      as [s' [Hrun [_ Hkept]]].
    rewrite Hrun. rewrite Hkept; [reflexivity | discriminate].
Defined.

End SettingsFacts.

(** ** AIService: a key that was set, read back *)

Module KeyRoundTrip.
Import AIService StorageFacts ApiKeyFacts Scenario.

Section RoundTrip.
Context (host : Host).

Lemma setApiKey_run k s :
  setApiKey host k s =
    StorageService.area_set host KEY (VStr k) (with_apiKey (VStr k) s).
Proof.
  unfold setApiKey, StorageService.set, mbind, M_bind, modify.
  apply saveSetting_eq.
Qed.

(** [setApiKey(k)] followed by [getApiKey()], with a storage read that
    reports no error: a key of the expected form is handed back and stays
    stored, and so is the empty string; any other key is not handed back:
    [getApiKey] removes it from storage and answers [null], and when the
    removal fails it throws the error of the removal, the key staying
    stored. *)
Theorem setApiKey_getApiKey (k : string) (s s1 : State) :
  setApiKey host k s = (Normal tt, s1) ->
  lastError host s1 (StorageGet KEY) = None ->
  let r := getApiKey host s1 in
  if validFormat k || String.eqb k ""
  then fst r = Normal (VStr k)
       /\ store (snd r) !! KEY = Some (VStr k)
       /\ apiKey (snd r) = VStr k
  else match lastError host (removing k s1) (StorageRemove KEY) with
       | None =>
           fst r = Normal VNull
           /\ store (snd r) !! KEY = None
           /\ apiKey (snd r) = VNull
       | Some msg =>
           fst r = Throw (Error msg)
           /\ store (snd r) !! KEY = Some (VStr k)
       end.
Proof.
  intros Hset Hread r. subst r.
  rewrite setApiKey_run in Hset. unfold StorageService.area_set in Hset.
  destruct (lastError host _ (StorageSet _ _)) as [msg|]; [discriminate Hset|].
  cbn [is_undefined] in Hset.
  assert (Hstored : store s1 !! KEY = Some (VStr k)).
  { injection Hset as <-. cbn [store record_call with_store].
    apply lookup_insert_eq. }
  clear Hset.
  rewrite getApiKey_spec, getSetting_spec, Hread. cbn [fst].
  unfold reading. rewrite Hstored.
  destruct k as [|c k'].
  { cbn [validFormat]. rewrite orb_true_r. cbn [fst snd].
    split; [reflexivity|]. split; [exact Hstored | reflexivity]. }
  cbn zeta. destruct (validFormat (String c k')) eqn:Hvalid.
  { cbn [orb fst snd]. split; [reflexivity|].
    split; [exact Hstored | reflexivity]. }
  cbn [orb String.eqb].
  unfold StorageService.area_remove, removing.
  destruct (lastError host _ (StorageRemove KEY)) as [msg|]; cbn [fst snd].
  - split; [reflexivity|]. exact Hstored.
  - split; [reflexivity|]. split; [|reflexivity].
    cbn [store record_call with_store]. apply lookup_delete_eq.
Qed.

End RoundTrip.

Lemma setApiKey_getApiKey_witness :
  let s1 := snd (setApiKey quiet "sk-0123456789abcdefghijklmnop" (fresh ∅)) in
  let s2 := snd (setApiKey quiet "my key" (fresh ∅)) in
  let s3 := snd (setApiKey stuck "my key" (fresh ∅)) in
  (fst (getApiKey quiet s1) = Normal (VStr "sk-0123456789abcdefghijklmnop")
   /\ store (snd (getApiKey quiet s1)) !! KEY
      = Some (VStr "sk-0123456789abcdefghijklmnop")
   /\ apiKey (snd (getApiKey quiet s1)) = VStr "sk-0123456789abcdefghijklmnop")
  /\ (fst (getApiKey quiet s2) = Normal VNull
      /\ store (snd (getApiKey quiet s2)) !! KEY = None
      /\ apiKey (snd (getApiKey quiet s2)) = VNull)
  /\ (fst (getApiKey stuck s3) = Throw (Error "The storage is read-only.")
      /\ store (snd (getApiKey stuck s3)) !! KEY = Some (VStr "my key")).
Proof.
  intros s1 s2 s3. split; [|split].
  - apply (setApiKey_getApiKey quiet "sk-0123456789abcdefghijklmnop" (fresh ∅) s1);
      reflexivity.
  - apply (setApiKey_getApiKey quiet "my key" (fresh ∅) s2); reflexivity.
  - apply (setApiKey_getApiKey stuck "my key" (fresh ∅) s3); reflexivity.
Defined.

End KeyRoundTrip.

(** ** TabGrouper: what is saved and what is loaded again *)

Module PersistenceFacts.
Import AIService TabGrouper StorageFacts SettingsFacts Scenario.
Local Open Scope list_scope.

(** The object [saveGroupedTabs] builds from a map without clashes. *)
Definition boxed (groups : list (string * list value)) : list (string * value) :=
  map (fun e => (fst e, VArr (snd e))) groups.

Lemma obj_assign_fresh k v props :
  k <> "__proto__" -> ~ In k (map fst props) ->
  obj_assign k v props = props ++ [(k, v)].
Proof.
  intros Hproto. induction props as [|[k' old] rest IH]; cbn; intros Hfresh.
  - destruct (String.eqb_spec k "__proto__"); [contradiction | reflexivity].
  - destruct (String.eqb_spec k k') as [->|Hne]; [tauto|].
    rewrite IH; [reflexivity | tauto].
Qed.

Lemma groupsObject_boxed groups acc :
  NoDup (map fst acc ++ map fst groups) ->
  ~ In "__proto__" (map fst groups) ->
  fold_left (fun props e => obj_assign (fst e) (VArr (snd e)) props) groups acc
  = acc ++ boxed groups.
Proof.
  revert acc. induction groups as [|[k items] rest IH]; cbn; intros acc Hnodup Hproto.
  - rewrite app_nil_r. reflexivity.
  - rewrite obj_assign_fresh.
    + rewrite IH.
      * rewrite <- app_assoc. reflexivity.
      * rewrite map_app, <- app_assoc. exact Hnodup.
      * tauto.
    + intros ->. tauto.
    + apply NoDup_ListNoDup, List.NoDup_remove_2 in Hnodup.
      intros Hin. apply Hnodup. apply in_or_app. left. exact Hin.
Qed.

Lemma map_set_fresh k items m :
  ~ In k (map fst m) -> map_set k items m = m ++ [(k, items)].
Proof.
  induction m as [|[k' old] rest IH]; cbn; intros Hfresh; [reflexivity|].
  destruct (String.eqb_spec k k') as [->|Hne]; [tauto|].
  rewrite IH; [reflexivity | tauto].
Qed.

Lemma restore_boxed groups acc :
  NoDup (map fst acc ++ map fst groups) ->
  fold_left restore (boxed groups) acc = acc ++ groups.
Proof.
  revert acc. induction groups as [|[k items] rest IH]; cbn; intros acc Hnodup.
  - rewrite app_nil_r. reflexivity.
  - rewrite map_set_fresh.
    + rewrite IH.
      * rewrite <- app_assoc. reflexivity.
      * rewrite map_app, <- app_assoc. exact Hnodup.
    + apply NoDup_ListNoDup, List.NoDup_remove_2 in Hnodup.
      intros Hin. apply Hnodup. apply in_or_app. left. exact Hin.
Qed.

(** [Object.entries] looks at the keys only. *)
Lemma insert_by_index_map {A B : Type} (f : A -> B) n k a sorted :
  insert_by_index n (k, f a) (map (fun ne => (fst ne, (fst (snd ne), f (snd (snd ne))))) sorted)
  = map (fun ne => (fst ne, (fst (snd ne), f (snd (snd ne)))))
        (insert_by_index n (k, a) sorted).
Proof.
  induction sorted as [|[m [k' a']] rest IH]; cbn; [reflexivity|].
  destruct (n <? m)%N; cbn; [reflexivity|]. rewrite IH. reflexivity.
Qed.

Lemma indexed_map {A B : Type} (f : A -> B) (own : list (string * A)) :
  indexed (map (fun e => (fst e, f (snd e))) own)
  = map (fun ne => (fst ne, (fst (snd ne), f (snd (snd ne))))) (indexed own).
Proof.
  induction own as [|[k a] rest IH]; cbn; [reflexivity|].
  destruct (array_index k); [|exact IH].
  rewrite IH. apply insert_by_index_map.
Qed.

Lemma named_map {A B : Type} (f : A -> B) (own : list (string * A)) :
  named (map (fun e => (fst e, f (snd e))) own)
  = map (fun e => (fst e, f (snd e))) (named own).
Proof.
  induction own as [|[k a] rest IH]; cbn; [reflexivity|].
  destruct (array_index k); cbn; rewrite IH; reflexivity.
Qed.

Lemma entries_map {A B : Type} (f : A -> B) (own : list (string * A)) :
  entries (map (fun e => (fst e, f (snd e))) own)
  = map (fun e => (fst e, f (snd e))) (entries own).
Proof.
  unfold entries. rewrite indexed_map, named_map, map_app, !map_map.
  reflexivity.
Qed.

Lemma entries_named {A : Type} (own : list (string * A)) :
  (forall k, In k (map fst own) -> array_index k = None) -> entries own = own.
Proof.
  intros Hnames.
  assert (Hsplit : indexed own = [] /\ named own = own).
  { induction own as [|[k a] rest IH]; cbn; [split; reflexivity|].
    rewrite (Hnames k) by (left; reflexivity).
    destruct IH as [Hindexed Hnamed].
    - intros k' Hk'. apply Hnames. right. exact Hk'.
    - split; [exact Hindexed | rewrite Hnamed; reflexivity]. }
  unfold entries. destruct Hsplit as [-> ->]. reflexivity.
Qed.

Lemma entries_NoDup {A : Type} (own : list (string * A)) :
  NoDup (map fst own) -> NoDup (map fst (entries own)).
Proof.
  intros Hnodup. apply NoDup_ListNoDup. apply NoDup_ListNoDup in Hnodup.
  apply (Permutation.Permutation_NoDup (l := map fst own)); [|exact Hnodup].
  apply Permutation.Permutation_map. symmetry. apply PartitionFacts.entries_perm.
Qed.

Section Saved.
Context (host : Host).
Context (readAllError : State -> option string).
Context (recentCoerced : Z -> value -> bool).

(** The object [saveGroupedTabs] hands to the storage in state [s]. *)
Definition groupsObject (s : State) : value :=
  VObj (fold_left (fun props e => obj_assign (fst e) (VArr (snd e)) props)
                  (tabGroups s) []).

(** The state after the first save of [saveGroupedTabs] went through. *)
Definition groupsSaved (s : State) : State :=
  record_call (StorageSet "groupedTabs" (groupsObject s))
    (with_store (<["groupedTabs" := groupsObject s]> (store s)) s).

Lemma saveGroupedTabs_run s :
  saveGroupedTabs host s =
    match lastError host s (StorageSet "groupedTabs" (groupsObject s)) with
    | Some _ => (Normal tt, record_call (StorageSet "groupedTabs" (groupsObject s)) s)
    | None =>
        let s1 := groupsSaved s in
        let stamp := VNum (Date_now host s1) in
        (Normal tt,
         record_call (StorageSet "groupedTabsTimestamp" stamp)
           match lastError host s1 (StorageSet "groupedTabsTimestamp" stamp) with
           | Some _ => s1
           | None => with_store (<["groupedTabsTimestamp" := stamp]> (store s1)) s1
           end)
    end.
Proof.
  unfold saveGroupedTabs, try_catch, mbind, M_bind, gets, groupsSaved, groupsObject.
  rewrite saveSetting_eq. unfold StorageService.area_set at 1.
  cbn [is_undefined].
  destruct (lastError host s (StorageSet "groupedTabs" _)) as [msg|];
    [reflexivity|].
  rewrite saveSetting_eq. unfold StorageService.area_set. cbn [is_undefined].
  destruct (lastError host _ (StorageSet "groupedTabsTimestamp" _)) as [msg|];
    reflexivity.
Qed.

(** What a bulk read that went through finds under [key]. *)
Lemma getSettings_member s key :
  readAllError s = None ->
  StorageService.getSettings readAllError s
  = (Normal (VObj (map_to_list (store s))), s)
  /\ Js.get (VObj (map_to_list (store s))) key
     = match store s !! key with
       | Some v => v
       | None => if Js.inherited key then VBuiltin key else VUndefined
       end.
Proof.
  intros Hread. split.
  - unfold StorageService.getSettings, try_catch, mbind, M_bind,
      StorageService.area_get_all.
    rewrite Hread. reflexivity.
  - cbn [Js.get]. rewrite own_map_to_list. reflexivity.
Qed.

Lemma getSettings_failed s msg :
  readAllError s = Some msg ->
  StorageService.getSettings readAllError s = (Normal (VObj []), s).
Proof.
  intros Hread.
  unfold StorageService.getSettings, try_catch, mbind, M_bind,
    StorageService.area_get_all.
  rewrite Hread. reflexivity.
Qed.

(** Loading what was saved from a map of groups. *)
Lemma loadGroupedTabs_boxed s groups :
  NoDup (map fst groups) ->
  readAllError s = None ->
  store s !! "groupedTabs" = Some (VObj (boxed groups)) ->
  loadGroupedTabs readAllError s = (Normal tt, with_tabGroups (entries groups) s).
Proof.
  intros Hnodup Hread Hstored.
  destruct (getSettings_member s "groupedTabs" Hread) as [Hrun Hmember].
  unfold loadGroupedTabs, try_catch, mbind, M_bind.
  rewrite Hrun, Hmember, Hstored. cbn [truthy typeof_object andb].
  unfold modify. cbn [object_entries tabGroups with_tabGroups].
  unfold boxed. rewrite entries_map. fold (boxed (entries groups)).
  rewrite restore_boxed by (apply entries_NoDup, Hnodup).
  reflexivity.
Qed.

Lemma saveGroupedTabs_stored s :
  NoDup (map fst (tabGroups s)) ->
  ~ In "__proto__" (map fst (tabGroups s)) ->
  lastError host s (StorageSet "groupedTabs" (groupsObject s)) = None ->
  store (snd (saveGroupedTabs host s)) !! "groupedTabs"
  = Some (VObj (boxed (tabGroups s))).
Proof.
  intros Hnodup Hproto Hsave. rewrite saveGroupedTabs_run, Hsave.
  assert (Hobject : groupsObject s = VObj (boxed (tabGroups s))).
  { unfold groupsObject. rewrite groupsObject_boxed; [reflexivity | | exact Hproto].
    exact Hnodup. }
  cbn zeta. cbn [snd store record_call].
  destruct (lastError host _ (StorageSet "groupedTabsTimestamp" _)) as [msg|];
    unfold groupsSaved; cbn [store record_call with_store].
  - rewrite lookup_insert_eq. f_equal. exact Hobject.
  - rewrite lookup_insert_ne by discriminate.
    rewrite lookup_insert_eq. f_equal. exact Hobject.
Qed.

(** What [loadGroupedTabs] does when there is nothing to load. *)
Lemma loadGroupedTabs_nothing s :
  readAllError s <> None \/ store s !! "groupedTabs" = None
  \/ store s !! "groupedTabs" = Some VNull ->
  loadGroupedTabs readAllError s = (Normal tt, s).
Proof.
  intros Hnothing. unfold loadGroupedTabs, try_catch, mbind, M_bind.
  destruct (readAllError s) as [msg|] eqn:Hread.
  - rewrite (getSettings_failed s msg Hread). reflexivity.
  - destruct (getSettings_member s "groupedTabs" Hread) as [Hrun Hmember].
    rewrite Hrun, Hmember.
    destruct Hnothing as [H | [-> | ->]]; [congruence | reflexivity | reflexivity].
Qed.

(** The groups [saveGroupedTabs] saved are the groups [loadGroupedTabs]
    brings back, in any state whose storage holds what was saved: each name
    with its tabs, but in the order of [Object.entries], which lists the
    names that are array indices first, in ascending order. When no name is
    an array index, the map comes back as it was. *)
Theorem saveGroupedTabs_loadGroupedTabs (s : State) :
  NoDup (map fst (tabGroups s)) ->
  ~ In "__proto__" (map fst (tabGroups s)) ->
  lastError host s (StorageSet "groupedTabs" (groupsObject s)) = None ->
  forall s2,
    store s2 !! "groupedTabs" = store (snd (saveGroupedTabs host s)) !! "groupedTabs" ->
    readAllError s2 = None ->
    tabGroups (snd (loadGroupedTabs readAllError s2)) = entries (tabGroups s)
    /\ ((forall k, In k (map fst (tabGroups s)) -> array_index k = None) ->
        tabGroups (snd (loadGroupedTabs readAllError s2)) = tabGroups s).
Proof.
  intros Hnodup Hproto Hsave s2 Hstore Hread.
  rewrite (saveGroupedTabs_stored s Hnodup Hproto Hsave) in Hstore.
  rewrite (loadGroupedTabs_boxed s2 (tabGroups s) Hnodup Hread Hstore).
  cbn [snd tabGroups with_tabGroups]. split; [reflexivity|].
  intros Hnames. apply entries_named, Hnames.
Qed.

(** [getGroupsForDisplay] never throws. In a state whose storage holds what
    [saveGroupedTabs] saved it lists the saved groups, one entry for each
    name, in the order of [Object.entries]; and when the bulk read fails it
    lists the groups the [TabGrouper] has in memory. *)
Theorem getGroupsForDisplay_saved (s : State) :
  (forall s2, exists shown,
     fst (getGroupsForDisplay readAllError s2) = Normal shown)
  /\ (NoDup (map fst (tabGroups s)) ->
      ~ In "__proto__" (map fst (tabGroups s)) ->
      lastError host s (StorageSet "groupedTabs" (groupsObject s)) = None ->
      forall s2,
        store s2 !! "groupedTabs"
          = store (snd (saveGroupedTabs host s)) !! "groupedTabs" ->
        readAllError s2 = None ->
        fst (getGroupsForDisplay readAllError s2)
        = Normal (map group_of (entries (tabGroups s))))
  /\ (forall s2, readAllError s2 <> None ->
        fst (getGroupsForDisplay readAllError s2)
        = Normal (map group_of (tabGroups s2))).
Proof.
  split; [|split].
  - intros s2. unfold getGroupsForDisplay, try_catch, mbind, M_bind, gets.
    destruct (loadGroupedTabs readAllError s2) as [[[]|e] s3]; cbn; eauto.
  - intros Hnodup Hproto Hsave s2 Hstore Hread.
    rewrite (saveGroupedTabs_stored s Hnodup Hproto Hsave) in Hstore.
    unfold getGroupsForDisplay, try_catch, mbind, M_bind, gets.
    rewrite (loadGroupedTabs_boxed s2 (tabGroups s) Hnodup Hread Hstore).
    reflexivity.
  - intros s2 Hread.
    unfold getGroupsForDisplay, try_catch, mbind, M_bind, gets.
    rewrite loadGroupedTabs_nothing by (left; exact Hread). reflexivity.
Qed.

Lemma entries_length {A : Type} (own : list (string * A)) :
  List.length (entries own) = List.length own.
Proof. apply Permutation.Permutation_length, PartitionFacts.entries_perm. Qed.

(** [hasExistingGroups] in a state whose storage holds what a
    [saveGroupedTabs] saved at time [t0]: the answer is [true] exactly when
    at least one group was saved, less than 24 hours have passed, and [t0]
    is not 0 (a time stamp of 0 reads as no time stamp). *)
Theorem hasExistingGroups_saved (s : State) :
  let s1 := groupsSaved s in
  let t0 := Date_now host s1 in
  NoDup (map fst (tabGroups s)) ->
  ~ In "__proto__" (map fst (tabGroups s)) ->
  lastError host s (StorageSet "groupedTabs" (groupsObject s)) = None ->
  lastError host s1 (StorageSet "groupedTabsTimestamp" (VNum t0)) = None ->
  forall s2,
    store s2 = store (snd (saveGroupedTabs host s)) ->
    readAllError s2 = None ->
    fst (hasExistingGroups host readAllError recentCoerced s2)
    = Normal (negb (t0 =? 0)
              && (Date_now host s2 - t0 <? twentyFourHours)
              && (0 <? List.length (tabGroups s))%nat).
Proof.
  intros s1 t0 Hnodup Hproto Hsave Hstamp s2 Hstore Hread.
  pose proof (saveGroupedTabs_stored s Hnodup Hproto Hsave) as Hgroups.
  assert (Htime : store (snd (saveGroupedTabs host s)) !! "groupedTabsTimestamp"
                  = Some (VNum t0)).
  { rewrite saveGroupedTabs_run, Hsave. cbn zeta. fold s1. fold t0.
    rewrite Hstamp. cbn [snd store record_call with_store].
    apply lookup_insert_eq. }
  rewrite <- Hstore in Hgroups, Htime.
  destruct (getSettings_member s2 "groupedTabs" Hread) as [Hrun Hmember].
  destruct (getSettings_member s2 "groupedTabsTimestamp" Hread) as [_ Hmember'].
  unfold hasExistingGroups, try_catch, mbind, M_bind, gets.
  rewrite Hrun, Hmember, Hmember', Hgroups, Htime.
  cbn [truthy typeof_object andb].
  destruct (t0 =? 0); cbn [negb andb]; [reflexivity|].
  destruct (Date_now host s2 - t0 <? twentyFourHours); cbn [andb]; [|reflexivity].
  cbn [object_entries fst]. unfold boxed.
  rewrite entries_length, length_map. reflexivity.
Qed.

Lemma hasExistingGroups_null s :
  store s !! "groupedTabs" = Some VNull ->
  fst (hasExistingGroups host readAllError recentCoerced s) = Normal false.
Proof.
  intros Hnull. unfold hasExistingGroups, try_catch, mbind, M_bind, gets.
  destruct (readAllError s) as [msg|] eqn:Hread.
  { rewrite (getSettings_failed s msg Hread). reflexivity. }
  destruct (getSettings_member s "groupedTabs" Hread) as [Hrun Hmember].
  rewrite Hrun, Hmember, Hnull. reflexivity.
Qed.

(** [hasExistingGroups] never throws and changes nothing, and it answers
    [false] when the bulk read fails, when no groups or no time stamp are
    stored (or [null], or the time stamp 0), and when the time stamp is 24
    hours old or older. *)
Theorem hasExistingGroups_false (s : State) :
  (exists b, hasExistingGroups host readAllError recentCoerced s = (Normal b, s))
  /\ (readAllError s <> None
      \/ store s !! "groupedTabs" = None
      \/ store s !! "groupedTabs" = Some VNull
      \/ store s !! "groupedTabsTimestamp" = None
      \/ store s !! "groupedTabsTimestamp" = Some VNull
      \/ (exists t, store s !! "groupedTabsTimestamp" = Some (VNum t)
                    /\ (t = 0 \/ twentyFourHours <= Date_now host s - t)) ->
      fst (hasExistingGroups host readAllError recentCoerced s) = Normal false).
Proof.
  unfold hasExistingGroups, try_catch, mbind, M_bind, gets.
  destruct (readAllError s) as [msg|] eqn:Hread.
  { rewrite (getSettings_failed s msg Hread). cbn. eauto. }
  destruct (getSettings_member s "groupedTabs" Hread) as [Hrun Hmember].
  destruct (getSettings_member s "groupedTabsTimestamp" Hread) as [_ Hmember'].
  rewrite Hrun, Hmember, Hmember'. cbn [Js.inherited existsb String.eqb orb].
  split.
  - destruct (truthy _ && typeof_object _ && truthy _); [|eauto].
    match goal with |- context [if ?c then _ else _] => destruct c end; eauto.
  - intros [H | [H | [H | [H | [H | [t [H Ht]]]]]]].
    + congruence.
    + rewrite H. reflexivity.
    + rewrite H. reflexivity.
    + rewrite H. cbn [truthy]. rewrite andb_false_r. reflexivity.
    + rewrite H. cbn [truthy]. rewrite andb_false_r. reflexivity.
    + rewrite H. cbn [truthy].
      destruct (truthy _ && typeof_object _); [|reflexivity].
      destruct Ht as [-> | Hold]; [reflexivity|].
      cbn [andb]. destruct (t =? 0); cbn [negb]; [reflexivity|].
      replace (Date_now host s - t <? twentyFourHours) with false
        by (symmetry; apply Z.ltb_ge; exact Hold).
      reflexivity.
Qed.

(** [clearSavedGroups] never throws. When its first save goes through, a
    later [hasExistingGroups] answers [false] and a later [loadGroupedTabs]
    loads nothing. The groups the [TabGrouper] has in memory are not
    cleared, neither by [clearSavedGroups] nor by that [loadGroupedTabs]. *)
Theorem clearSavedGroups_effect (s : State) :
  let s1 := snd (clearSavedGroups host s) in
  fst (clearSavedGroups host s) = Normal tt
  /\ tabGroups s1 = tabGroups s
  /\ (lastError host s (StorageSet "groupedTabs" VNull) = None ->
      forall s2,
        store s2 !! "groupedTabs" = store s1 !! "groupedTabs" ->
        fst (hasExistingGroups host readAllError recentCoerced s2) = Normal false
        /\ loadGroupedTabs readAllError s2 = (Normal tt, s2)).
Proof.
  intros s1. subst s1.
  unfold clearSavedGroups, try_catch, mbind, M_bind.
  rewrite saveSetting_eq. unfold StorageService.area_set.
  cbn [is_undefined].
  destruct (lastError host s (StorageSet "groupedTabs" VNull)) as [msg|].
  { split; [reflexivity|]. split; [reflexivity|]. intros H. discriminate H. }
  rewrite saveSetting_eq. unfold StorageService.area_set. cbn [is_undefined].
  assert (Hstored : forall s2 : State,
    store s2 !! "groupedTabs" = Some VNull ->
    fst (hasExistingGroups host readAllError recentCoerced s2) = Normal false
    /\ loadGroupedTabs readAllError s2 = (Normal tt, s2)).
  { intros s2 Hnull. split.
    - apply hasExistingGroups_null. exact Hnull.
    - apply loadGroupedTabs_nothing. right. right. exact Hnull. }
  destruct (lastError host _ (StorageSet "groupedTabsTimestamp" VNull)) as [msg|];
    cbn [fst snd tabGroups record_call with_store store].
  - split; [reflexivity|]. split; [reflexivity|].
    intros _ s2 Hs2. apply Hstored. rewrite Hs2. apply lookup_insert_eq.
  - split; [reflexivity|]. split; [reflexivity|].
    intros _ s2 Hs2. apply Hstored. rewrite Hs2.
    rewrite lookup_insert_ne by discriminate. apply lookup_insert_eq.
Qed.

End Saved.

(** The host [h] with a clock that shows [now s] in state [s]. *)
Definition with_clock (now : State -> Z) (h : Host) : Host :=
  {| JSON_parse := JSON_parse h;
     URL_hostname := URL_hostname h;
     Date_now := now;
     lastError := lastError h;
     fetch := fetch h;
     api_present := api_present h;
     api_tabs := api_tabs h;
     api_tabs_group := api_tabs_group h;
     api_tabGroups := api_tabGroups h;
     api_tabGroups_query := api_tabGroups_query h;
     api_tabGroups_update := api_tabGroups_update h;
     window_browser_tabs := window_browser_tabs h;
     tabs_query := tabs_query h;
     tabGroups_query := tabGroups_query h;
     tabs_ungroup := tabs_ungroup h;
     tabs_group := tabs_group h;
     tabGroups_update := tabGroups_update h |}.

Definition monday : Host := with_clock (fun _ => 1700000000000) quiet.
Definition wednesday : Host := with_clock (fun _ => 1700180000000) quiet.

(** A clock that advances by a minute with every call to the browser. *)
Definition ticking : Host :=
  with_clock (fun s => 1700000000000 + 60000 * Z.of_nat (List.length (trace s))) quiet.

Definition page (id : Z) : value :=
  VObj [("id", VNum id); ("title", VStr "Page"); ("url", VStr "https://example.org/")].

(** A [TabGrouper] with two groups in memory and an empty storage. *)
Definition grouped : State :=
  mkState ∅ [] VNull [("Work", [page 1; page 2]); ("News", [page 3])].

(** The same with a group named by a year. *)
Definition grouped_by_year : State :=
  mkState ∅ [] VNull [("Work", [page 1; page 2]); ("2024", [page 3])].

Definition readable : State -> option string := fun _ => None.
Definition unreadable : State -> option string := fun _ => Some "read failed".
Definition lenient : Z -> value -> bool := fun _ _ => true.

Lemma grouped_names :
  NoDup (map fst (tabGroups grouped))
  /\ ~ In "__proto__" (map fst (tabGroups grouped))
  /\ forall k, In k (map fst (tabGroups grouped)) -> array_index k = None.
Proof.
  split; [|split].
  - apply (bool_decide_unpack _). vm_compute. exact I.
  - intros [H | [H | []]]; discriminate H.
  - intros k [<- | [<- | []]]; reflexivity.
Qed.

Lemma saveGroupedTabs_loadGroupedTabs_witness :
  let s1 := snd (saveGroupedTabs monday grouped) in
  tabGroups (snd (loadGroupedTabs readable (fresh (store s1))))
  = entries (tabGroups grouped)
  /\ tabGroups (snd (loadGroupedTabs readable (fresh (store s1))))
     = tabGroups grouped.
Proof.
  intros s1.
  destruct grouped_names as [Hnodup [Hproto Hnames]].
  destruct (saveGroupedTabs_loadGroupedTabs monday readable grouped
              Hnodup Hproto eq_refl (fresh (store s1)) eq_refl eq_refl)
    as [Hloaded Hsame].
  split; [exact Hloaded | exact (Hsame Hnames)].
Defined.

(** A group whose name is an array index comes back in front. *)
Example loadGroupedTabs_reorders :
  let s1 := snd (saveGroupedTabs monday grouped_by_year) in
  map fst (tabGroups (snd (loadGroupedTabs readable (fresh (store s1)))))
  = ["2024"; "Work"].
Proof. vm_compute. reflexivity. Qed.

Lemma getGroupsForDisplay_saved_witness :
  let s1 := snd (saveGroupedTabs monday grouped) in
  fst (getGroupsForDisplay readable (fresh (store s1)))
  = Normal (map group_of (entries (tabGroups grouped)))
  /\ fst (getGroupsForDisplay unreadable grouped)
     = Normal (map group_of (tabGroups grouped)).
Proof.
  intros s1.
  destruct grouped_names as [Hnodup [Hproto _]].
  destruct (getGroupsForDisplay_saved monday readable grouped)
    as [_ [Hsaved _]].
  destruct (getGroupsForDisplay_saved monday unreadable grouped)
    as [_ [_ Hmemory]].
  split.
  - apply (Hsaved Hnodup Hproto eq_refl (fresh (store s1)) eq_refl eq_refl).
  - apply Hmemory. discriminate.
Defined.

Lemma hasExistingGroups_saved_witness :
  let s1 := snd (saveGroupedTabs ticking grouped) in
  fst (hasExistingGroups ticking readable lenient s1) = Normal true.
Proof.
  intros s1.
  destruct grouped_names as [Hnodup [Hproto _]].
  apply (hasExistingGroups_saved ticking readable lenient grouped
           Hnodup Hproto eq_refl eq_refl s1 eq_refl eq_refl).
Defined.

Lemma hasExistingGroups_false_witness :
  let s1 := snd (saveGroupedTabs monday grouped) in
  fst (hasExistingGroups wednesday readable lenient (fresh (store s1)))
  = Normal false
  /\ fst (hasExistingGroups monday unreadable lenient (fresh (store s1)))
     = Normal false.
Proof.
  intros s1. split.
  - apply (hasExistingGroups_false wednesday readable lenient (fresh (store s1))).
    do 5 right. exists 1700000000000. split; [reflexivity|].
    right. vm_compute. discriminate.
  - apply (hasExistingGroups_false monday unreadable lenient (fresh (store s1))).
    left. discriminate.
Defined.

Lemma clearSavedGroups_effect_witness :
  let s1 := snd (saveGroupedTabs monday grouped) in
  let s2 := snd (clearSavedGroups monday s1) in
  fst (clearSavedGroups monday s1) = Normal tt
  /\ tabGroups s2 = tabGroups grouped
  /\ fst (hasExistingGroups monday readable lenient s2) = Normal false
  /\ loadGroupedTabs readable s2 = (Normal tt, s2).
Proof.
  intros s1 s2.
  destruct (clearSavedGroups_effect monday readable lenient s1)
    as [Hreturns [Hmemory Hcleared]].
  split; [exact Hreturns|]. split; [exact Hmemory|].
  apply (Hcleared eq_refl s2 eq_refl).
Defined.

End PersistenceFacts.

(** ** TabGrouper: what [createTabGroups] leaves in storage *)

Module SavingFacts.
Import AIService TabGrouper StorageFacts GroupingFacts PersistenceFacts Scenario.
Local Open Scope list_scope.




Section Saving.
Context (host : Host).
Context (readAllError : State -> option string).

Lemma saveGroupedTabs_returns s : fst (saveGroupedTabs host s) = Normal tt.
Proof.
  rewrite saveGroupedTabs_run.
  destruct (lastError host s _); reflexivity.
Qed.

Lemma saveGroupedTabs_tabGroups s :
  tabGroups (snd (saveGroupedTabs host s)) = tabGroups s.
Proof.
  rewrite saveGroupedTabs_run.
  destruct (lastError host s _); [reflexivity|].
  cbn zeta. destruct (lastError host _ _); reflexivity.
Qed.

(** [createTabGroups] as a whole: the calls to the browser, then the save;
    no save when [tabs.query] throws. *)
Lemma createTabGroups_run entries s :
  createTabGroups host (AMap entries) s =
    if supportsTabGroups host then
      match tabs_query host (entered entries s) (window_browser_tabs host) with
      | Throw _ =>
          (Normal tt, extend (entered entries s) [TabsQuery (window_browser_tabs host)])
      | Normal _ =>
          saveGroupedTabs host (extend (entered entries s) (grouping host entries s))
      end
    else saveGroupedTabs host (entered entries s).
Proof.
  unfold createTabGroups, grouping.
  unfold mbind at 1, M_bind at 1, modify at 1.
  unfold try_catch at 1, mbind at 1, M_bind at 1, modify at 1.
  change (with_tabGroups _ (with_tabGroups [] s)) with (entered entries s).
  destruct (supportsTabGroups host).
  2:{ unfold mbind, M_bind, mret, M_ret.
      pose proof (saveGroupedTabs_returns (entered entries s)) as Hreturn.
      destruct (saveGroupedTabs host (entered entries s)) as [[[]|e] s'];
        [reflexivity | discriminate Hreturn]. }
  cbn zeta. unfold mbind at 1, M_bind at 1.
  unfold mbind at 1, M_bind at 1, host_call at 1.
  destruct (tabs_query host (entered entries s) (window_browser_tabs host))
    as [allTabs|e].
  2:{ reflexivity. }
  unfold mbind at 1, M_bind at 1.
  rewrite ungroupAllTabs_run.
  unfold mbind at 1, M_bind at 1, host_call at 1.
  rewrite createEach_run.
  rewrite !record_call_extend, !extend_extend.
  cbn [app].
  match goal with
  | |- context [saveGroupedTabs host ?st] =>
      pose proof (saveGroupedTabs_returns st) as Hreturn;
      destruct (saveGroupedTabs host st) as [[[]|e] s']
  end; [reflexivity | discriminate Hreturn].
Qed.


(** When [tabs.query] throws, [createTabGroups] returns as if nothing had
    happened: no group is released or created and nothing is saved, the only
    call is the query; but [this.tabGroups] holds the new groups. *)
Theorem createTabGroups_query_fails (entries : list (string * value)) (s : State)
    (e : exn) :
  supportsTabGroups host = true ->
  tabs_query host (entered entries s) (window_browser_tabs host) = Throw e ->
  let s' := snd (createTabGroups host (AMap entries) s) in
  fst (createTabGroups host (AMap entries) s) = Normal tt
  /\ trace s' = trace s ++ [TabsQuery (window_browser_tabs host)]
  /\ store s' = store s
  /\ tabGroups s' = fold_left remember entries [].
Proof.
  intros Hsupport Hquery s'. subst s'.
  rewrite createTabGroups_run, Hsupport, Hquery.
  split; [reflexivity|]. split; [reflexivity|]. split; reflexivity.
Qed.






(** In a browser without [tabs.group], [createTabGroups] asks nothing of the
    tabs API: it keeps the groups in [this.tabGroups] and only saves them,
    with one write for the groups and, when that went through, one for the
    time stamp. *)
Theorem createTabGroups_unsupported (entries : list (string * value)) (s : State) :
  supportsTabGroups host = false ->
  let s0 := entered entries s in
  let s' := snd (createTabGroups host (AMap entries) s) in
  tabGroups s' = fold_left remember entries []
  /\ trace s'
     = trace s ++
       StorageSet "groupedTabs" (groupsObject s0) ::
       match lastError host s0 (StorageSet "groupedTabs" (groupsObject s0)) with
       | Some _ => []
       | None =>
           [StorageSet "groupedTabsTimestamp" (VNum (Date_now host (groupsSaved s0)))]
       end.
Proof.
  intros Hsupport s0 s'. subst s'.
  rewrite createTabGroups_run, Hsupport. fold s0.
  split; [apply saveGroupedTabs_tabGroups|].
  rewrite saveGroupedTabs_run.
  destruct (lastError host s0 _); [reflexivity|].
  cbn zeta. cbn [snd trace record_call].
  destruct (lastError host _ _); unfold groupsSaved;
    cbn [trace record_call with_store]; rewrite <- app_assoc; reflexivity.
Qed.

End Saving.

(** A browser whose [tabs.query] fails. *)
Definition locked : Host :=
  {| JSON_parse := JSON_parse chromium;
     URL_hostname := URL_hostname chromium;
     Date_now := Date_now chromium;
     lastError := lastError chromium;
     fetch := fetch chromium;
     api_present := true;
     api_tabs := true;
     api_tabs_group := true;
     api_tabGroups := true;
     api_tabGroups_query := true;
     api_tabGroups_update := true;
     window_browser_tabs := false;
     tabs_query := fun _ _ => Throw (Error "No current window");
     tabGroups_query := tabGroups_query chromium;
     tabs_ungroup := tabs_ungroup chromium;
     tabs_group := tabs_group chromium;
     tabGroups_update := tabGroups_update chromium |}.


Lemma createTabGroups_query_fails_witness :
  let s' := snd (createTabGroups locked (AMap requested) (fresh ∅)) in
  fst (createTabGroups locked (AMap requested) (fresh ∅)) = Normal tt
  /\ trace s' = [] ++ [TabsQuery false]
  /\ store s' = ∅
  /\ tabGroups s' = fold_left remember requested [].
Proof.
  apply (createTabGroups_query_fails locked requested (fresh ∅)
           (Error "No current window")); reflexivity.
Defined.


Lemma createTabGroups_unsupported_witness :
  let s' := snd (createTabGroups quiet (AMap requested) (fresh ∅)) in
  tabGroups s' = fold_left remember requested []
  /\ trace s'
     = [ StorageSet "groupedTabs"
           (VObj [("Work", VArr [tab 11; tab 12]); ("Play", VArr [VNull; tab 13]);
                  ("Later", VArr [])]);
         StorageSet "groupedTabsTimestamp" (VNum 0) ].
Proof.
  apply (createTabGroups_unsupported quiet requested (fresh ∅)). reflexivity.
Defined.

End SavingFacts.

(** ** AIService: the topics of one address and of one text *)

Module TopicFacts.
Import AIService AnalyzeFacts GroupingFacts Scenario.
Local Open Scope list_scope.

Section Requests.
Context (host : Host).
Context (parseCoerced : value -> option value).

(** The [try] block the two functions share, for the key, the text the
    request carries and the answer given when anything fails. *)
Definition request (key : value) (payload : list value) (fallback : value) : M value :=
  try_catch
    (response ← host_call (Fetch OPENAI_URL key payload)
                  (fun s => fetch host s OPENAI_URL key payload);
     if negb (ok response) then
       throw (Error ("OpenAI API error: " +:+ statusText response))
     else
       data ← host_call ResponseJson (fun _ => json response);
       content ← lift (contentOf data);
       try_catch (lift (parseAny host parseCoerced content))
         (fun _ => mret fallback))
    (fun _ => mret fallback).

(** The answer of the network is an OK response whose first choice has a
    content that parses, as [parsed]. *)
Definition parses (response : completion Response) (parsed : value) : Prop :=
  exists r data content,
    response = Normal r
    /\ ok r = true
    /\ json r = Normal data
    /\ contentOf data = Normal content
    /\ parseAny host parseCoerced content = Normal parsed.

(** The request fails, the response is not OK, its body is not JSON, its
    choices cannot be read, or the content does not parse. *)
Definition fails (response : completion Response) : Prop :=
  match response with
  | Throw _ => True
  | Normal r =>
      ok r = false
      \/ (exists e, json r = Throw e)
      \/ (exists data e, json r = Normal data /\ contentOf data = Throw e)
      \/ (exists data content e,
            json r = Normal data /\ contentOf data = Normal content
            /\ parseAny host parseCoerced content = Throw e)
  end.

Lemma request_run key payload fallback s :
  exists topics calls,
    request key payload fallback s
    = (Normal topics, extend s (Fetch OPENAI_URL key payload :: calls))
    /\ filter is_fetch calls = []
    /\ (forall parsed,
          parses (fetch host s OPENAI_URL key payload) parsed -> topics = parsed)
    /\ (fails (fetch host s OPENAI_URL key payload) -> topics = fallback).
Proof.
  unfold request, try_catch, mbind, M_bind, host_call, throw, lift, parses, fails.
  destruct (fetch host s OPENAI_URL key payload) as [r|e] eqn:Hfetch.
  2:{ exists fallback, []. split; [reflexivity|]. split; [reflexivity|].
      split; [|reflexivity].
      intros parsed (r & data & content & H & _). discriminate H. }
  destruct (ok r) eqn:Hok; cbn [negb].
  2:{ exists fallback, []. split; [reflexivity|]. split; [reflexivity|].
      split; [|reflexivity].
      intros parsed (r' & data & content & H & Hok' & _).
      injection H as <-. congruence. }
  destruct (json r) as [data|e] eqn:Hjson.
  2:{ exists fallback, [ResponseJson]. split.
      { unfold record_call, extend. cbn. rewrite <- app_assoc. reflexivity. }
      split; [reflexivity|]. split; [|reflexivity].
      intros parsed (r' & data & content & H & _ & Hjson' & _).
      injection H as <-. congruence. }
  destruct (contentOf data) as [content|e] eqn:Hcontent.
  2:{ exists fallback, [ResponseJson]. split.
      { unfold record_call, extend. cbn. rewrite <- app_assoc. reflexivity. }
      split; [reflexivity|]. split; [|reflexivity].
      intros parsed (r' & data' & content & H & _ & Hjson' & Hcontent' & _).
      injection H as <-. congruence. }
  destruct (parseAny host parseCoerced content) as [topics|e] eqn:Hparse.
  - exists topics, [ResponseJson]. split.
    { unfold record_call, extend. cbn. rewrite <- app_assoc. reflexivity. }
    split; [reflexivity|]. split.
    + intros parsed (r' & data' & content' & H & _ & Hjson' & Hcontent' & Hparse').
      injection H as <-. congruence.
    + intros [H | [[e H] | [(data' & e & Hd & H) | (data' & content' & e & Hd & Hc & H)]]];
        congruence.
  - exists fallback, [ResponseJson]. split.
    { unfold record_call, extend. cbn. rewrite <- app_assoc. reflexivity. }
    split; [reflexivity|]. split; [|reflexivity].
    intros parsed (r' & data' & content' & H & _ & Hjson' & Hcontent' & Hparse').
    injection H as <-. congruence.
Qed.

(** [excerpt] is the beginning of [content], cut after [n] characters. *)
Lemma substringTo_prefix n content :
  String.prefix (JsOps.substringTo n content) content = true
  /\ String.length (JsOps.substringTo n content) = Nat.min n (String.length content).
Proof.
  unfold JsOps.substringTo. revert content.
  induction n as [|n IH]; intros content.
  - destruct content; split; reflexivity.
  - destruct content as [|c rest]; [split; reflexivity|].
    destruct (IH rest) as [Hprefix Hlength]. cbn. split.
    + destruct (ascii_dec c c) as [_|Hne]; [exact Hprefix | congruence].
    + rewrite Hlength. reflexivity.
Qed.

(** [analyzeTabContent] asks for a key first: without one it throws and
    nothing is sent. With a key it sends exactly one request, to the
    completions endpoint, with that key and the address, and it does not
    throw: when the response is OK and the content of its first choice
    parses, what it returns is the parsed content, as it is; in every other
    case (the request fails, the response is not OK, its body or its choices
    cannot be read, the content does not parse) it returns the one-element
    list with the host name of the address (or [Other]). *)
Theorem analyzeTabContent_outcome (url : string) (s : State) :
  let fallback := VArr [VStr (extractDomain host url)] in
  match getApiKey host s with
  | (Throw e, s1) => analyzeTabContent host parseCoerced url s = (Throw e, s1)
  | (Normal key, s1) =>
      if truthy key then
        exists topics calls,
          analyzeTabContent host parseCoerced url s
          = (Normal topics, extend s1 (Fetch OPENAI_URL key [VStr url] :: calls))
          /\ filter is_fetch calls = []
          /\ (forall parsed,
                parses (fetch host s1 OPENAI_URL key [VStr url]) parsed ->
                topics = parsed)
          /\ (fails (fetch host s1 OPENAI_URL key [VStr url]) -> topics = fallback)
      else analyzeTabContent host parseCoerced url s = (Throw KEY_NOT_FOUND, s1)
  end.
Proof.
  intros fallback.
  change (analyzeTabContent host parseCoerced url s) with
    (match getApiKey host s with
     | (Normal key, s1) =>
         (if negb (truthy key) then throw KEY_NOT_FOUND
          else request key [VStr url] fallback) s1
     | (Throw e, s1) => (Throw e, s1)
     end).
  destruct (getApiKey host s) as [[key|e] s1]; [|reflexivity].
  destruct (truthy key); cbn [negb]; [|reflexivity].
  apply (request_run key [VStr url] fallback s1).
Qed.

(** [analyzeContent] likewise: no request without a key; with one, exactly
    one request, which carries the first 1000 characters of the content and
    no more, and no exception; the parsed content of an OK response when it
    parses, and in every other case the list with the one topic
    [General]. *)
Theorem analyzeContent_outcome (content : string) (s : State) :
  let fallback := VArr [VStr "General"] in
  let excerpt := JsOps.substringTo 1000 content in
  String.prefix excerpt content = true
  /\ String.length excerpt = Nat.min 1000 (String.length content)
  /\ match getApiKey host s with
     | (Throw e, s1) => analyzeContent host parseCoerced content s = (Throw e, s1)
     | (Normal key, s1) =>
         if truthy key then
           exists topics calls,
             analyzeContent host parseCoerced content s
             = (Normal topics, extend s1 (Fetch OPENAI_URL key [VStr excerpt] :: calls))
             /\ filter is_fetch calls = []
             /\ (forall parsed,
                   parses (fetch host s1 OPENAI_URL key [VStr excerpt]) parsed ->
                   topics = parsed)
             /\ (fails (fetch host s1 OPENAI_URL key [VStr excerpt]) ->
                 topics = fallback)
         else analyzeContent host parseCoerced content s = (Throw KEY_NOT_FOUND, s1)
     end.
Proof.
  intros fallback excerpt.
  destruct (substringTo_prefix 1000 content) as [Hprefix Hlength].
  split; [exact Hprefix|]. split; [exact Hlength|].
  change (analyzeContent host parseCoerced content s) with
    (match getApiKey host s with
     | (Normal key, s1) =>
         (if negb (truthy key) then throw KEY_NOT_FOUND
          else request key [VStr excerpt] fallback) s1
     | (Throw e, s1) => (Throw e, s1)
     end).
  destruct (getApiKey host s) as [[key|e] s1]; [|reflexivity].
  destruct (truthy key); cbn [negb]; [|reflexivity].
  apply (request_run key [VStr excerpt] fallback s1).
Qed.

End Requests.

(** A browser that knows one address, with a network that is down. *)
Definition disconnected : Host :=
  browser [("https://example.org/a", "example.org")] None offline.

(** The text of a JSON array with the one string [Development]. *)
Definition topics_text : string := "[" +:+ RepairFacts.quoted "Development" +:+ "]".

(** The same browser with a network that answers every request with that
    text, and a parser that reads it. *)
Definition connected : Host :=
  {| JSON_parse := fun text =>
       if String.eqb text topics_text then Some (VArr [VStr "Development"]) else None;
     URL_hostname := URL_hostname disconnected;
     Date_now := Date_now disconnected;
     lastError := lastError disconnected;
     fetch := fun _ _ _ _ => FallbackDefect.answer (VStr topics_text);
     api_present := api_present disconnected;
     api_tabs := api_tabs disconnected;
     api_tabs_group := api_tabs_group disconnected;
     api_tabGroups := api_tabGroups disconnected;
     api_tabGroups_query := api_tabGroups_query disconnected;
     api_tabGroups_update := api_tabGroups_update disconnected;
     window_browser_tabs := window_browser_tabs disconnected;
     tabs_query := tabs_query disconnected;
     tabGroups_query := tabGroups_query disconnected;
     tabs_ungroup := tabs_ungroup disconnected;
     tabs_group := tabs_group disconnected;
     tabGroups_update := tabGroups_update disconnected |}.

Definition no_coercion : value -> option value := fun _ => None.

(** The state after the key was read. *)
Definition key_read : State := snd (getApiKey connected FallbackDefect.configured).

Lemma connected_parses payload :
  parses connected no_coercion
    (fetch connected key_read OPENAI_URL (VStr FallbackDefect.VALID_KEY) payload)
    (VArr [VStr "Development"]).
Proof.
  eexists _, _, _. split; [reflexivity|]. split; [reflexivity|].
  split; [reflexivity|]. split; reflexivity.
Qed.

Lemma analyzeTabContent_outcome_witness :
  fst (analyzeTabContent connected no_coercion "https://example.org/a"
         FallbackDefect.configured)
  = Normal (VArr [VStr "Development"])
  /\ fst (analyzeTabContent disconnected no_coercion "https://example.org/a"
            FallbackDefect.configured)
     = Normal (VArr [VStr "example.org"]).
Proof.
  split.
  - pose proof (analyzeTabContent_outcome connected no_coercion
                  "https://example.org/a" FallbackDefect.configured) as H.
    cbv zeta in H.
    change (getApiKey connected FallbackDefect.configured)
      with (Normal (VStr FallbackDefect.VALID_KEY), key_read) in H.
    cbn [truthy FallbackDefect.VALID_KEY] in H.
    destruct H as (topics & calls & Hrun & _ & Hparsed & _).
    rewrite Hrun. cbn [fst]. f_equal. apply Hparsed, connected_parses.
  - pose proof (analyzeTabContent_outcome disconnected no_coercion
                  "https://example.org/a" FallbackDefect.configured) as H.
    cbv zeta in H.
    destruct (getApiKey disconnected FallbackDefect.configured)
      as [[key|e] s1] eqn:Hkey; vm_compute in Hkey; [|discriminate Hkey].
    injection Hkey as <- <-. cbn [truthy] in H.
    destruct H as (topics & calls & Hrun & _ & _ & Hfailed).
    rewrite Hrun. cbn [fst]. f_equal. apply Hfailed. exact I.
Defined.

Lemma analyzeContent_outcome_witness :
  fst (analyzeContent connected no_coercion "Release notes"
         FallbackDefect.configured)
  = Normal (VArr [VStr "Development"])
  /\ fst (analyzeContent disconnected no_coercion "Release notes"
            FallbackDefect.configured)
     = Normal (VArr [VStr "General"]).
Proof.
  split.
  - destruct (analyzeContent_outcome connected no_coercion "Release notes"
                FallbackDefect.configured) as (_ & _ & H).
    change (getApiKey connected FallbackDefect.configured)
      with (Normal (VStr FallbackDefect.VALID_KEY), key_read) in H.
    cbn [truthy FallbackDefect.VALID_KEY] in H.
    destruct H as (topics & calls & Hrun & _ & Hparsed & _).
    rewrite Hrun. cbn [fst]. f_equal. apply Hparsed, connected_parses.
  - destruct (analyzeContent_outcome disconnected no_coercion "Release notes"
                FallbackDefect.configured) as (_ & _ & H).
    destruct (getApiKey disconnected FallbackDefect.configured)
      as [[key|e] s1] eqn:Hkey; vm_compute in Hkey; [|discriminate Hkey].
    injection Hkey as <- <-. cbn [truthy] in H.
    destruct H as (topics & calls & Hrun & _ & _ & Hfailed).
    rewrite Hrun. cbn [fst]. f_equal. apply Hfailed. exact I.
Defined.

End TopicFacts.

(** ** AIService: the shape of what [analyzeTabs] returns *)

Module ResponseFacts.
Import AIService AnalyzeFacts Scenario.
Local Open Scope list_scope.

(** An element of an array response that is kept: an object, [null] apart. *)
Definition is_item (item : value) : bool := truthy item && typeof_object item.

(** The answers of the model that are taken as a grouping: an object with an
    array under [groups], or an array with at least one object in it. *)
Definition well_formed (groupedTabs : value) : bool :=
  match groupedTabs with
  | VObj _ => isArray (Js.get groupedTabs "groups")
  | VArr items => existsb is_item items
  | _ => false
  end.

(** Every group has a subject that counts as given. *)
Definition titled (response : AIResponse) : Prop :=
  Forall (fun g => truthy (subject g) = true) (groups response).

Lemma formatGroup_titled group : truthy (subject (formatGroup group)) = true.
Proof.
  unfold formatGroup. destruct (truthy group); cbn [negb]; [|reflexivity].
  cbn [subject]. unfold or_else.
  destruct (truthy (Js.get group "subject")) eqn:Hsubject;
    [exact Hsubject | reflexivity].
Qed.

Lemma formatted_titled gs suggestions :
  titled {| groups := map formatGroup gs; suggestions := suggestions |}.
Proof.
  unfold titled. cbn [groups]. apply Forall_forall. intros g Hg.
  apply list_elem_of_In, in_map_iff in Hg as (group & <- & _).
  apply formatGroup_titled.
Qed.

Lemma validateItems_spec items validated :
  exists added,
    validateItems items validated = validated ++ added
    /\ List.length added = List.length (List.filter is_item items)
    /\ Forall titled added.
Proof.
  revert validated. induction items as [|item rest IH]; intros validated.
  - exists []. cbn. rewrite app_nil_r. auto.
  - cbn [validateItems List.filter].
    destruct (is_item item) eqn:Hitem; unfold is_item in Hitem.
    + apply andb_true_iff in Hitem as [-> ->]. cbn [negb orb].
      destruct (Js.get item "groups") as [| |b|n|k|gs|ps|nm];
        match goal with
        | |- context [validateItems rest (validated ++ [?r])] =>
            destruct (IH (validated ++ [r])) as (added & -> & Hlength & Htitled);
            exists (r :: added); rewrite <- app_assoc;
            split; [reflexivity|]; split; [cbn; rewrite Hlength; reflexivity|];
            apply Forall_cons; split; [|exact Htitled]
        end;
        try (apply Forall_nil; exact I); apply formatted_titled.
    + assert (Hskip : negb (truthy item) || negb (typeof_object item) = true).
      { destruct (truthy item), (typeof_object item); cbn in *; congruence. }
      rewrite Hskip. apply IH.
Qed.

(** The fields of a tab and the values [getTabContent] puts in their place
    when they are not given. *)
Definition defaults : list (string * value) :=
  [("id", VNum 0); ("title", VStr "Unknown Tab"); ("url", VStr "about:blank")].

(** [getTabContent] always hands out a tab the fallback grouping does not
    skip: an object whose [title] and [url] count as given. For what is not
    an object (or is [null]) it hands out the object of the defaults. For an
    object, each of [id], [title] and [url] is copied when it counts as
    given and is its default (0, [Unknown Tab], [about:blank]) when it does
    not. And applied to its own result it changes nothing. *)
Theorem getTabContent_usable (tab : value) :
  let content := getTabContent tab in
  usable content = true
  /\ (truthy tab && typeof_object tab = false -> content = VObj defaults)
  /\ (forall field default, In (field, default) defaults ->
        truthy tab && typeof_object tab = true ->
        Js.get content field
        = if truthy (Js.get tab field) then Js.get tab field else default)
  /\ getTabContent content = content.
Proof.
  assert (Hgiven : forall a b, truthy b = true -> truthy (or_else a b) = true).
  { intros a b Hb. unfold or_else. destruct (truthy a) eqn:Ha; [exact Ha | exact Hb]. }
  assert (Hsame : forall a b, or_else (or_else a b) b = or_else a b).
  { intros a b. unfold or_else. destruct (truthy a) eqn:Ha.
    - rewrite Ha. reflexivity.
    - destruct (truthy b); reflexivity. }
  assert (Hform : exists i t u,
            getTabContent tab
            = VObj [("id", or_else i (VNum 0));
                    ("title", or_else t (VStr "Unknown Tab"));
                    ("url", or_else u (VStr "about:blank"))]
            /\ (truthy tab && typeof_object tab = true ->
                i = Js.get tab "id" /\ t = Js.get tab "title"
                /\ u = Js.get tab "url")
            /\ (truthy tab && typeof_object tab = false ->
                i = VUndefined /\ t = VUndefined /\ u = VUndefined)).
  { unfold getTabContent.
    destruct (truthy tab), (typeof_object tab); cbn [negb orb andb].
    - exists (Js.get tab "id"), (Js.get tab "title"), (Js.get tab "url").
      split; [reflexivity|]. split; [auto | intros H; discriminate H].
    - exists VUndefined, VUndefined, VUndefined.
      split; [reflexivity|]. split; [intros H; discriminate H | auto].
    - exists VUndefined, VUndefined, VUndefined.
      split; [reflexivity|]. split; [intros H; discriminate H | auto].
    - exists VUndefined, VUndefined, VUndefined.
      split; [reflexivity|]. split; [intros H; discriminate H | auto]. }
  destruct Hform as (i & t & u & Hcontent & Hfields & Hnone).
  cbv zeta. rewrite Hcontent. split; [|split; [|split]].
  - unfold usable. cbn. rewrite !Hgiven by reflexivity. reflexivity.
  - intros Hskip. destruct (Hnone Hskip) as (-> & -> & ->). reflexivity.
  - intros field default Hfield Hobject.
    destruct (Hfields Hobject) as (-> & -> & ->).
    destruct Hfield as [H | [H | [H | []]]]; injection H as <- <-; reflexivity.
  - unfold getTabContent. cbn. rewrite !Hsame. reflexivity.
Qed.

Lemma getTabContent_usable_witness :
  let tab := VObj [("title", VStr ""); ("url", VStr "https://example.org/")] in
  usable tab = false
  /\ usable (getTabContent tab) = true
  /\ Js.get (getTabContent tab) "url" = VStr "https://example.org/"
  /\ Js.get (getTabContent tab) "title" = VStr "Unknown Tab"
  /\ Js.get (getTabContent tab) "id" = VNum 0
  /\ getTabContent VNull = VObj defaults.
Proof.
  intros tab.
  destruct (getTabContent_usable tab) as (Husable & _ & Hfields & _).
  destruct (getTabContent_usable VNull) as (_ & Hnull & _).
  split; [reflexivity|]. split; [exact Husable|].
  split; [|split; [|split]].
  - apply (Hfields "url" (VStr "about:blank"));
      [right; right; left; reflexivity | reflexivity].
  - apply (Hfields "title" (VStr "Unknown Tab"));
      [right; left; reflexivity | reflexivity].
  - apply (Hfields "id" (VNum 0)); [left; reflexivity | reflexivity].
  - apply Hnull. reflexivity.
Defined.

Section Shape.
Context (host : Host).

Lemma createFallbackGrouping_single tabs r :
  createFallbackGrouping host tabs = Normal r -> exists response, r = [response].
Proof.
  unfold createFallbackGrouping.
  destruct tabs as [| |b|n|k|items|ps|nm]; try (intros [= <-]; eauto).
  destruct items as [|tab rest]; [intros [= <-]; eauto|].
  unfold mbind, completion_bind.
  destruct (collect host (tab :: rest) []) as [own|e]; [|intros H; discriminate H].
  intros [= <-]. eauto.
Qed.

(** [validateAndFormatResponse] takes the answer of the model as a grouping
    exactly when it is an object with an array under [groups] or an array
    that holds an object. Such an answer gives one response for the object,
    or one for each object of the array, and every group in it has a subject
    that is not empty; every other answer gives the fallback grouping of
    the tabs. *)
Theorem validateAndFormatResponse_cases (groupedTabs tabs : value) :
  if well_formed groupedTabs then
    exists r,
      validateAndFormatResponse host groupedTabs tabs = Normal r
      /\ List.length r = match groupedTabs with
                         | VArr items => List.length (List.filter is_item items)
                         | _ => 1%nat
                         end
      /\ r <> []
      /\ Forall titled r
  else validateAndFormatResponse host groupedTabs tabs
       = createFallbackGrouping host tabs.
Proof.
  unfold validateAndFormatResponse, well_formed.
  destruct groupedTabs as [| |b|n|k|items|ps|nm]; try reflexivity;
    try (cbn [typeof_object isArray negb]; rewrite andb_false_r; reflexivity).
  - cbn [truthy typeof_object isArray andb negb].
    destruct (validateItems_spec items []) as (added & Hrun & Hlength & Htitled).
    cbn [app] in Hrun. rewrite Hrun.
    destruct (existsb is_item items) eqn:Hsome.
    + apply existsb_exists in Hsome as (item & Hin & Hitem).
      assert (Hkept : In item (List.filter is_item items)).
      { apply filter_In. auto. }
      destruct added as [|response added].
      { cbn in Hlength. destruct (List.filter is_item items);
          [destruct Hkept | discriminate Hlength]. }
      exists (response :: added). split; [reflexivity|].
      split; [exact Hlength|]. split; [discriminate | exact Htitled].
    + destruct added as [|response added]; [reflexivity|]. exfalso.
      destruct (List.filter is_item items) as [|item kept] eqn:Hfilter;
        [discriminate Hlength|].
      assert (Hin : In item (List.filter is_item items))
        by (rewrite Hfilter; left; reflexivity).
      apply filter_In in Hin as [Hin Hitem].
      assert (Htrue : existsb is_item items = true)
        by (apply existsb_exists; eauto).
      congruence.
  - cbn [truthy typeof_object isArray andb negb].
    destruct (Js.get (VObj ps) "groups") as [| |b|n|k|gs|ps'|nm']; try reflexivity.
    cbn [isArray]. eexists. split; [reflexivity|]. split; [reflexivity|].
    split; [discriminate|].
    apply Forall_cons. split; [apply formatted_titled | apply Forall_nil; exact I].
  - cbn [truthy typeof_object isArray andb negb].
    destruct (String.eqb nm "__proto__"); reflexivity.
Qed.

Lemma validateAndFormatResponse_nonempty groupedTabs tabs r :
  validateAndFormatResponse host groupedTabs tabs = Normal r -> r <> [].
Proof.
  assert (Hfallback : createFallbackGrouping host tabs = Normal r -> r <> []).
  { intros H. apply createFallbackGrouping_single in H as [response ->].
    discriminate. }
  unfold validateAndFormatResponse.
  destruct (truthy groupedTabs && typeof_object groupedTabs && negb (isArray groupedTabs)).
  - destruct (Js.get groupedTabs "groups"); try exact Hfallback.
    intros [= <-]. discriminate.
  - destruct groupedTabs; try exact Hfallback.
    destruct (validateItems items []) as [|response rest]; [exact Hfallback|].
    intros [= <-]. discriminate.
Qed.

(** What [analyzeTabs] returns is never the empty list: there is a first
    response to read. And for an argument that is not an array it returns
    the empty grouping at once: it asks for no key and sends nothing. *)
Theorem analyzeTabs_nonempty (tabs : value) (s : State) :
  (forall r, fst (analyzeTabs host tabs s) = Normal r -> r <> [])
  /\ (isArray tabs = false ->
      analyzeTabs host tabs s
      = (Normal [ {| groups := [];
                     suggestions :=
                       [VStr "No tabs available for grouping - empty array"] |} ],
         s)).
Proof.
  destruct tabs as [| |b|n|k|items|ps|nm];
    try (split; [intros r H; injection H as <-; discriminate | reflexivity]).
  split; [|intros H; discriminate H].
  intros r. rewrite analyzeTabs_run.
  assert (Hfallback : forall t, createFallbackGrouping host t = Normal r -> r <> []).
  { intros t H. apply createFallbackGrouping_single in H as [response ->].
    discriminate. }
  destruct (getApiKey host s) as [[key|e] s1]; [|intros H; discriminate H].
  destruct (truthy key); [|intros H; discriminate H].
  cbn zeta.
  destruct (fetch host s1 OPENAI_URL key (map mapTab items)) as [response|e];
    [|apply Hfallback].
  destruct (ok response); [|apply Hfallback].
  cbn [fst]. destruct (json response) as [data|e]; [|apply Hfallback].
  unfold interpret.
  destruct (contentOf data) as [content|e]; [|apply Hfallback].
  destruct content as [| |b|n|text|xs|ps|nm]; try apply Hfallback.
  destruct text as [|c t]; [apply Hfallback|].
  destruct (JSON_parse host _) as [g|]; [|apply Hfallback].
  destruct (validateAndFormatResponse host g (VArr items)) as [r'|e] eqn:Hvalid;
    [|apply Hfallback].
  intros [= <-]. exact (validateAndFormatResponse_nonempty _ _ _ Hvalid).
Qed.

End Shape.

Lemma analyzeTabs_nonempty_witness :
  (forall r, fst (analyzeTabs quiet (VStr "tabs") (fresh ∅)) = Normal r -> r <> [])
  /\ exists r, analyzeTabs quiet (VStr "tabs") (fresh ∅) = (Normal r, fresh ∅).
Proof.
  destruct (analyzeTabs_nonempty quiet (VStr "tabs") (fresh ∅)) as [Hfirst Hempty].
  split; [exact Hfirst|]. eexists. apply Hempty. reflexivity.
Defined.

End ResponseFacts.

(** ** The options page *)

Module OptionsFacts.
Import Options AIService StorageFacts ApiKeyFacts Scenario.

Section Submit.
Context (host : Host).
Context (readAllError : State -> option string).

(** The object saved under [options]. *)
Definition optionsOf (form : Form) : value :=
  VObj [("enableGrouping", VBool (enableGrouping form));
        ("groupingThreshold", groupingThreshold form);
        ("showDebugConsole", VBool (showDebugConsole form))].

Lemma getSettings_returns s :
  exists settings, StorageService.getSettings readAllError s = (Normal settings, s).
Proof.
  unfold StorageService.getSettings, try_catch, mbind, M_bind,
    StorageService.area_get_all.
  destruct (readAllError s); eauto.
Qed.

(** Submitting the form never throws. With a storage that takes the writes,
    the options are stored under [options], and the key field decides what
    is under [openai_api_key]: the text without the blanks around it, or
    nothing at all when only blanks were entered (the empty string is never
    stored); no other setting changes, and a key of the expected form is
    what [getApiKey] returns afterwards. When the save of the options
    fails, the stored key is not touched. *)
Theorem saveOptionsToStorage_key (form : Form) (s : State) :
  let s' := snd (saveOptionsToStorage host readAllError form s) in
  let key := JsString.trim (apiKeyInput form) in
  fst (saveOptionsToStorage host readAllError form s) = Normal tt
  /\ ((forall st c, lastError host st c = None) ->
      store s' !! "options" = Some (optionsOf form)
      /\ store s' !! KEY = (if String.eqb key "" then None else Some (VStr key))
      /\ (forall k, k <> "options" -> k <> KEY -> store s' !! k = store s !! k)
      /\ (validFormat key = true -> fst (getApiKey host s') = Normal (VStr key)))
  /\ (lastError host s (StorageSet "options" (optionsOf form)) <> None ->
      store s' = store s).
Proof.
  intros s' key. subst s'.
  unfold saveOptionsToStorage, try_catch, mbind, M_bind.
  fold (optionsOf form). fold key.
  rewrite saveSetting_eq. unfold StorageService.area_set.
  cbn [is_undefined optionsOf].
  fold (optionsOf form).
  destruct (lastError host s (StorageSet "options" (optionsOf form))) as [msg|] eqn:Hoptions.
  { split; [reflexivity|]. split; [|reflexivity].
    intros Hquiet. rewrite Hquiet in Hoptions. discriminate Hoptions. }
  set (s1 := record_call (StorageSet "options" (optionsOf form))
               (with_store (<["options" := optionsOf form]> (store s)) s)).
  destruct key as [|c rest] eqn:Hkey; cbn [truthy].
  - rewrite removeSetting_eq. unfold StorageService.area_remove.
    destruct (lastError host s1 (StorageRemove "openai_api_key")) as [msg|] eqn:Hremove.
    { split; [reflexivity|]. split; [|intros H; congruence].
      intros Hquiet. rewrite Hquiet in Hremove. discriminate Hremove. }
    destruct (getSettings_returns
                (record_call (StorageRemove "openai_api_key")
                   (with_store (delete "openai_api_key" (store s1)) s1)))
      as [settings ->].
    split; [reflexivity|]. split; [|intros H; congruence].
    intros _. unfold mret, M_ret, KEY. subst s1.
    cbn [snd store record_call with_store].
    split; [|split; [|split]].
    + rewrite lookup_delete_ne by discriminate. apply lookup_insert_eq.
    + apply lookup_delete_eq.
    + intros k Hk Hk'. rewrite lookup_delete_ne by congruence.
      apply lookup_insert_ne. congruence.
    + intros H. discriminate H.
  - rewrite saveSetting_eq. unfold StorageService.area_set. cbn [is_undefined].
    destruct (lastError host s1 (StorageSet "openai_api_key" _)) as [msg|] eqn:Hsave.
    { split; [reflexivity|]. split; [|intros H; congruence].
      intros Hquiet. rewrite Hquiet in Hsave. discriminate Hsave. }
    match goal with
    | |- context [StorageService.getSettings readAllError ?st] =>
        destruct (getSettings_returns st) as [settings ->]
    end.
    split; [reflexivity|]. split; [|intros H; congruence].
    intros Hquiet. unfold mret, M_ret, KEY. subst s1.
    cbn [snd store record_call with_store].
    split; [|split; [|split]].
    + rewrite lookup_insert_ne by discriminate. apply lookup_insert_eq.
    + apply lookup_insert_eq.
    + intros k Hk Hk'. rewrite lookup_insert_ne by congruence.
      apply lookup_insert_ne. congruence.
    + intros Hvalid. rewrite getApiKey_spec, getSetting_spec, Hquiet.
      cbn [fst]. unfold reading, KEY. cbn [store record_call with_store].
      rewrite lookup_insert_eq. cbn zeta. rewrite Hvalid. reflexivity.
Qed.

End Submit.

Definition submitted : Form :=
  {| enableGrouping := true;
     groupingThreshold := VNum 7;
     showDebugConsole := false;
     apiKeyInput := "  sk-0123456789abcdefghijklmnop " |}.

Definition cleared : Form :=
  {| enableGrouping := true;
     groupingThreshold := VNum 7;
     showDebugConsole := false;
     apiKeyInput := "   " |}.

Lemma saveOptionsToStorage_key_witness :
  let s := fresh {[ KEY := VStr "sk-an-older-key-0123456789" ]} in
  let s1 := snd (saveOptionsToStorage quiet (fun _ => None) submitted s) in
  let s2 := snd (saveOptionsToStorage quiet (fun _ => None) cleared s) in
  store s1 !! KEY = Some (VStr "sk-0123456789abcdefghijklmnop")
  /\ fst (getApiKey quiet s1) = Normal (VStr "sk-0123456789abcdefghijklmnop")
  /\ store s2 !! KEY = None.
Proof.
  intros s s1 s2.
  destruct (saveOptionsToStorage_key quiet (fun _ => None) submitted s)
    as (_ & Hsubmitted & _).
  destruct (saveOptionsToStorage_key quiet (fun _ => None) cleared s)
    as (_ & Hcleared & _).
  destruct Hsubmitted as (_ & Hkey & _ & Hread);
    [intros st c; destruct c; reflexivity|].
  destruct Hcleared as (_ & Hnone & _);
    [intros st c; destruct c; reflexivity|].
  split; [exact Hkey|]. split; [apply Hread; reflexivity | exact Hnone].
Defined.

End OptionsFacts.

(** ** The JSON repair: what it can and cannot change *)

Module RepairLaws.
Import JsString Regex Repair.
Local Open Scope list_scope.

Lemma app_cons c (s t : string) : String c s +:+ t = String c (s +:+ t).
Proof. reflexivity. Qed.

Lemma app_empty_l (t : string) : "" +:+ t = t.
Proof. reflexivity. Qed.

Lemma app_empty_r (s : string) : s +:+ "" = s.
Proof. induction s as [|c s IH]; [reflexivity|]. rewrite app_cons, IH. reflexivity. Qed.

Lemma append_assoc (a b c : string) : (a +:+ b) +:+ c = a +:+ (b +:+ c).
Proof.
  induction a as [|x a IH]; [reflexivity|]. rewrite !app_cons, IH. reflexivity.
Qed.

Lemma append_length (a b : string) :
  String.length (a +:+ b) = (String.length a + String.length b)%nat.
Proof.
  induction a as [|x a IH]; [reflexivity|]. rewrite app_cons. cbn. rewrite IH.
  reflexivity.
Qed.

(** [s] without the characters of the class [drop] *)
Fixpoint erase (drop : ascii -> bool) (s : string) : string :=
  match s with
  | EmptyString => EmptyString
  | String c s' => if drop c then erase drop s' else String c (erase drop s')
  end.

(** [s] without its first [k] characters *)
Fixpoint after (k : nat) (s : string) : string :=
  match k, s with
  | O, _ => s
  | S k', String _ s' => after k' s'
  | S _, EmptyString => EmptyString
  end.

(** Every character of [s] is of the class [cls]. *)
Fixpoint every (cls : ascii -> bool) (s : string) : bool :=
  match s with
  | EmptyString => true
  | String c s' => cls c && every cls s'
  end.

Lemma erase_app drop (a b : string) :
  erase drop (a +:+ b) = erase drop a +:+ erase drop b.
Proof.
  induction a as [|x a IH]; [reflexivity|]. rewrite app_cons. cbn.
  destruct (drop x); rewrite IH; reflexivity.
Qed.

Lemma erase_every drop cls (s : string) :
  (forall c, cls c = true -> drop c = true) ->
  every cls s = true -> erase drop s = "".
Proof.
  intros Hsub. induction s as [|c s IH]; [reflexivity|]. cbn.
  intros H. apply andb_true_iff in H as [Hc Hs].
  rewrite (Hsub c Hc). exact (IH Hs).
Qed.

Lemma erase_erase drop drop' (s : string) :
  (forall c, drop' c = true -> drop c = true) ->
  erase drop (erase drop' s) = erase drop s.
Proof.
  intros Hsub. induction s as [|c s IH]; [reflexivity|]. cbn.
  destruct (drop' c) eqn:Hc.
  - rewrite (Hsub c Hc). exact IH.
  - cbn. rewrite IH. reflexivity.
Qed.

Lemma erase_length drop (s : string) :
  (String.length (erase drop s) <= String.length s)%nat.
Proof.
  induction s as [|c s IH]; [reflexivity|]. cbn.
  destruct (drop c); cbn; lia.
Qed.

Lemma after_app (a b : string) : after (String.length a) (a +:+ b) = b.
Proof. induction a as [|x a IH]; [reflexivity|]. exact IH. Qed.

Lemma matched_cons m ms : matched (m :: ms) = m +:+ matched ms.
Proof.
  unfold matched. destruct ms as [|m' ms]; cbn [String.concat].
  - symmetry. apply app_empty_r.
  - reflexivity.
Qed.

(** What an atom of a pattern can match. *)
Definition fits (a : atom) (m : string) : Prop :=
  match a with
  | One cls => exists c, m = String c EmptyString /\ cls c = true
  | Star cls => every cls m = true
  end.

(** A match consists of one piece for each atom, each piece fits its atom,
    and the pieces, one after the other, are the beginning of the text. *)
Lemma match_here_sound p s ms r :
  match_here p s = Some (ms, r) ->
  Forall2 fits p ms /\ s = matched ms +:+ r.
Proof.
  revert s ms r. induction p as [|a p IH]; intros s ms r.
  - cbn. intros [= <- <-]. split; [constructor | reflexivity].
  - destruct a as [cls|cls].
    + cbn [match_here]. destruct s as [|c s']; [intros H; discriminate H|].
      destruct (cls c) eqn:Hc; [|intros H; discriminate H].
      destruct (match_here p s') as [[ms' r']|] eqn:Hrest; [|intros H; discriminate H].
      intros [= <- <-]. destruct (IH _ _ _ Hrest) as [Hfits ->].
      split.
      * constructor; [|exact Hfits]. exists c. auto.
      * rewrite matched_cons. reflexivity.
    + cbn [match_here].
      assert (Hstop : forall s0 ms0 r0,
                match match_here p s0 with
                | Some (ms1, r1) => Some (EmptyString :: ms1, r1)
                | None => None
                end = Some (ms0, r0) ->
                Forall2 fits (Star cls :: p) ms0 /\ s0 = matched ms0 +:+ r0).
      { intros s0 ms0 r0.
        destruct (match_here p s0) as [[ms1 r1]|] eqn:Hrest; [|intros H; discriminate H].
        intros [= <- <-]. destruct (IH _ _ _ Hrest) as [Hfits ->].
        split; [constructor; [reflexivity | exact Hfits]|].
        rewrite matched_cons. reflexivity. }
      revert ms r. induction s as [|c s' IHs]; intros ms r.
      * apply Hstop.
      * destruct (cls c) eqn:Hc; [|apply Hstop].
        match goal with
        | |- context [match ?star s' with _ => _ end] =>
            destruct (star s') as [[[|m ms'] r']|] eqn:Hstar
        end; try apply Hstop.
        intros [= <- <-].
        destruct (IHs _ _ eq_refl) as [Hfits ->].
        inversion Hfits as [|a0 m0 p0 ms0 Hm Hrest]; subst.
        split.
        -- constructor; [|exact Hrest]. cbn. rewrite Hc. exact Hm.
        -- rewrite !matched_cons, app_cons. reflexivity.
Qed.

(** A replacement that, for every match, differs from the matched text only
    in characters of the class [drop] changes the whole text only in such
    characters. *)
Lemma replace_from_erase p tpl drop :
  (forall s ms r, match_here p s = Some (ms, r) ->
     erase drop (tpl ms) = erase drop (matched ms)) ->
  forall s k, (k <= String.length s)%nat ->
    erase drop (replace_from p tpl s k) = erase drop (after k s).
Proof.
  intros Htpl. induction s as [|c s' IH]; intros k Hk.
  - destruct k; reflexivity.
  - destruct k as [|k']; cbn [replace_from after].
    2:{ apply IH. cbn in Hk. lia. }
    assert (Hkeep : erase drop (String c (replace_from p tpl s' 0))
                    = erase drop (String c s')).
    { cbn [erase]. rewrite (IH 0%nat) by lia. reflexivity. }
    destruct (match_here p (String c s')) as [[ms r]|] eqn:Hmatch; [|exact Hkeep].
    destruct (String.length (matched ms)) as [|j] eqn:Hlength; [exact Hkeep|].
    destruct (match_here_sound _ _ _ _ Hmatch) as [_ Hs].
    rewrite erase_app, (Htpl _ _ _ Hmatch).
    destruct (matched ms) as [|c' m'] eqn:Hm; [discriminate Hlength|].
    rewrite app_cons in Hs. injection Hs as -> ->.
    cbn in Hlength. injection Hlength as <-.
    rewrite IH by (rewrite append_length; lia).
    rewrite after_app, <- erase_app, app_cons. reflexivity.
Qed.

Lemma replace_all_erase p tpl drop s :
  (forall s0 ms r, match_here p s0 = Some (ms, r) ->
     erase drop (tpl ms) = erase drop (matched ms)) ->
  erase drop (replace_all p tpl s) = erase drop s.
Proof.
  intros Htpl. unfold replace_all.
  rewrite (replace_from_erase p tpl drop Htpl s 0%nat) by lia. reflexivity.
Qed.

Definition comma (c : ascii) : bool := Ascii.eqb c ",".
Definition double_quote (c : ascii) : bool := Ascii.eqb c dquote.
Definition quote_or_space (c : ascii) : bool :=
  Ascii.eqb c dquote || Ascii.eqb c squote || is_space c.
Definition punctuation (c : ascii) : bool := comma c || quote_or_space c.

Lemma fits_chr c m : fits (One (chr c)) m -> m = String c EmptyString.
Proof.
  intros (c' & -> & Hc). unfold chr in Hc. apply Ascii.eqb_eq in Hc as ->.
  reflexivity.
Qed.

Lemma removeTrailingCommas_erase s :
  erase comma (removeTrailingCommas s) = erase comma s.
Proof.
  apply replace_all_erase. intros s0 ms r Hmatch.
  destruct (match_here_sound _ _ _ _ Hmatch) as [Hfits _].
  inversion Hfits as [|? m0 ? ms0 H0 Hfits0]; subst.
  inversion Hfits0 as [|? m1 ? ms1 H1 Hfits1]; subst.
  inversion Hfits1 as [|? m2 ? ms2 H2 Hfits2]; subst.
  inversion Hfits2; subst.
  apply fits_chr in H0 as ->.
  rewrite !matched_cons. cbn [piece nth]. unfold matched. cbn [String.concat].
  rewrite app_empty_r, app_cons, app_empty_l. reflexivity.
Qed.

Lemma quoteKeys_erase s :
  erase double_quote (quoteKeys s) = erase double_quote s.
Proof.
  apply replace_all_erase. intros s0 ms r Hmatch.
  destruct (match_here_sound _ _ _ _ Hmatch) as [Hfits _].
  inversion Hfits as [|? m0 ? ms0 H0 Hfits0]; subst.
  inversion Hfits0 as [|? m1 ? ms1 H1 Hfits1]; subst.
  inversion Hfits1 as [|? m2 ? ms2 H2 Hfits2]; subst.
  inversion Hfits2 as [|? m3 ? ms3 H3 Hfits3]; subst.
  inversion Hfits3 as [|? m4 ? ms4 H4 Hfits4]; subst.
  inversion Hfits4; subst.
  apply fits_chr in H4 as ->.
  rewrite !matched_cons. cbn [piece nth]. unfold matched. cbn [String.concat].
  rewrite !erase_app. reflexivity.
Qed.

Lemma doubleQuoteValues_erase s :
  erase quote_or_space (doubleQuoteValues s) = erase quote_or_space s.
Proof.
  apply replace_all_erase. intros s0 ms r Hmatch.
  destruct (match_here_sound _ _ _ _ Hmatch) as [Hfits _].
  inversion Hfits as [|? m0 ? ms0 H0 Hfits0]; subst.
  inversion Hfits0 as [|? m1 ? ms1 H1 Hfits1]; subst.
  inversion Hfits1 as [|? m2 ? ms2 H2 Hfits2]; subst.
  inversion Hfits2 as [|? m3 ? ms3 H3 Hfits3]; subst.
  inversion Hfits3 as [|? m4 ? ms4 H4 Hfits4]; subst.
  inversion Hfits4; subst.
  apply fits_chr in H0 as ->. apply fits_chr in H2 as ->. apply fits_chr in H4 as ->.
  rewrite !matched_cons. cbn [piece nth]. unfold matched. cbn [String.concat].
  rewrite !erase_app.
  rewrite (erase_every quote_or_space is_space m1); [reflexivity | | exact H1].
  intros c Hc. unfold quote_or_space. rewrite Hc. apply orb_true_r.
Qed.

(** The repair changes nothing but punctuation. The first replacement only
    removes commas, the second only adds double quotes, the third only
    changes quotes and white space; so the repaired text and the text the
    repair starts from (the trimmed content, or the part of it in braces)
    are the same once commas, quotes and white space are left out: no
    letter, digit, brace, bracket or colon is added, lost or moved. *)
Theorem repair_changes_punctuation_only (s : string) :
  erase comma (removeTrailingCommas s) = erase comma s
  /\ erase double_quote (quoteKeys s) = erase double_quote s
  /\ erase quote_or_space (doubleQuoteValues s) = erase quote_or_space s
  /\ erase punctuation (repair s) = erase punctuation (extractJson (trim s)).
Proof.
  split; [apply removeTrailingCommas_erase|].
  split; [apply quoteKeys_erase|].
  split; [apply doubleQuoteValues_erase|].
  unfold repair.
  rewrite <- (erase_erase punctuation quote_or_space (doubleQuoteValues _)),
    doubleQuoteValues_erase, erase_erase.
  2,3: intros c Hc; unfold punctuation; rewrite Hc; apply orb_true_r.
  rewrite <- (erase_erase punctuation double_quote (quoteKeys _)),
    quoteKeys_erase, erase_erase.
  2,3: intros c Hc; unfold punctuation, quote_or_space, double_quote in *;
       rewrite Hc; rewrite ?orb_true_r; reflexivity.
  rewrite <- (erase_erase punctuation comma (removeTrailingCommas _)),
    removeTrailingCommas_erase, erase_erase.
  2,3: intros c Hc; unfold punctuation; rewrite Hc; reflexivity.
  reflexivity.
Qed.

Lemma every_app cls (a b : string) :
  every cls (a +:+ b) = every cls a && every cls b.
Proof.
  induction a as [|x a IH]; [reflexivity|]. rewrite app_cons. cbn.
  rewrite IH, andb_assoc. reflexivity.
Qed.

(** The greedy star of [braces]: it gives back characters until the last
    closing brace of the text. *)
Lemma star_any_last s :
  match match_here [Star any; One (chr "}")] s with
  | Some (ms, r) =>
      exists m, ms = [m; "}"] /\ s = m +:+ "}" +:+ r /\ every (is_not "}") r = true
  | None => every (is_not "}") s = true
  end.
Proof.
  induction s as [|c s' IH]; [reflexivity|].
  cbn [match_here] in IH |- *. change (any c) with true. cbn iota.
  match goal with
  | |- context [match ?star s' with _ => _ end] =>
      destruct (star s') as [[ms r]|] eqn:Hstar
  end.
  - destruct IH as (m & -> & -> & Hr).
    exists (String c m). rewrite app_cons. auto.
  - unfold chr at 1. unfold is_not in *. cbn [every].
    destruct (Ascii.eqb_spec "}"%char c) as [<-|Hne].
    + exists "". rewrite app_empty_l. auto.
    + rewrite IH, andb_true_r. apply negb_true_iff, Ascii.eqb_neq. congruence.
Qed.

Lemma search_braces s :
  match search braces s with
  | Some m =>
      exists pre body post,
        s = pre +:+ "{" +:+ body +:+ "}" +:+ post
        /\ every (is_not "{") pre = true
        /\ every (is_not "}") post = true
        /\ m = "{" +:+ body +:+ "}"
  | None =>
      forall pre rest, s = pre +:+ "{" +:+ rest -> every (is_not "}") rest = true
  end.
Proof.
  induction s as [|c s' IH].
  - cbn. intros [|x pre] rest H; discriminate H.
  - cbn [search]. unfold braces at 1. cbn [match_here].
    pose proof (star_any_last s') as Hstar. cbn [match_here] in Hstar.
    unfold chr at 1.
    destruct (Ascii.eqb_spec "{"%char c) as [<-|Hne].
    + match goal with
      | |- context [match ?star s' with _ => _ end] =>
          destruct (star s') as [[ms r]|] eqn:Hmatch
      end.
      * destruct Hstar as (m & -> & -> & Hr).
        exists "", m, r. rewrite app_empty_l, !matched_cons.
        unfold matched. cbn [String.concat]. rewrite app_empty_r.
        rewrite !app_cons, !app_empty_l. auto.
      * assert (Hsuffix : forall pre rest,
                  s' = pre +:+ rest -> every (is_not "}") rest = true).
        { intros pre rest ->. rewrite every_app in Hstar.
          apply andb_true_iff in Hstar as [_ H]. exact H. }
        destruct (search braces s') as [m|].
        -- exfalso. destruct IH as (pre & body & post & -> & _).
           pose proof (Hsuffix (pre +:+ "{" +:+ body) ("}" +:+ post)) as H.
           rewrite !append_assoc in H. specialize (H eq_refl).
           rewrite app_cons in H. cbn in H. discriminate H.
        -- intros pre rest Hs. destruct pre as [|x pre].
           ++ rewrite app_empty_l, app_cons, app_empty_l in Hs.
              injection Hs as <-. apply (Hsuffix ""). reflexivity.
           ++ rewrite app_cons in Hs. injection Hs as _ ->.
              apply (Hsuffix (pre +:+ "{")). rewrite append_assoc. reflexivity.
    + destruct (search braces s') as [m|].
      * destruct IH as (pre & body & post & -> & Hpre & Hpost & ->).
        exists (String c pre), body, post. rewrite app_cons.
        split; [reflexivity|]. split; [|auto].
        cbn [every]. rewrite Hpre, andb_true_r. unfold is_not.
        apply negb_true_iff, Ascii.eqb_neq. congruence.
      * intros pre rest Hs. destruct pre as [|x pre].
        -- rewrite app_empty_l, app_cons in Hs. injection Hs as Hc _.
           congruence.
        -- rewrite app_cons in Hs. injection Hs as _ ->.
           apply (IH pre rest). reflexivity.
Qed.

(** [extractJson] cuts the text down to what stands between its first
    opening brace and the last closing brace after it, both included; a text
    without a closing brace after its first opening brace is left as it
    is. *)
Theorem extractJson_first_to_last (s : string) :
  (exists pre body post,
     s = pre +:+ "{" +:+ body +:+ "}" +:+ post
     /\ every (is_not "{") pre = true
     /\ every (is_not "}") post = true
     /\ extractJson s = "{" +:+ body +:+ "}")
  \/ (extractJson s = s
      /\ forall pre rest, s = pre +:+ "{" +:+ rest -> every (is_not "}") rest = true).
Proof.
  unfold extractJson. pose proof (search_braces s) as H.
  destruct (search braces s) as [m|].
  - left. destruct H as (pre & body & post & Hs & Hpre & Hpost & ->).
    exists pre, body, post. auto.
  - right. auto.
Qed.

End RepairLaws.

(** ** AIService: the fallback grouping away from the inherited names *)

Module FallbackFacts.
Import AIService PartitionFacts Scenario.
Local Open Scope list_scope.

Section Fallback.
Context (host : Host).

(** When no usable tab has a category that is the name of a member of
    [Object.prototype], [createFallbackGrouping] returns one response, and
    its groups partition the usable tabs by category: the subjects are
    distinct, each group holds the usable tabs of its category in input
    order and is not empty, every usable tab is in one group and in no
    other, and no other tab is in any group. *)
Theorem createFallbackGrouping_groups_every_tab (tabs : list value) :
  (forall tab, In tab tabs -> usable tab = true ->
     exists c, categorizeTab host tab = Normal c /\ Js.inherited c = false) ->
  exists response,
    createFallbackGrouping host (VArr tabs) = Normal [response]
    /\ NoDup (map subject (groups response))
    /\ (forall g, In g (groups response) ->
          exists k, subject g = VStr k
                    /\ AIService.tabs g = members host k tabs
                    /\ AIService.tabs g <> [])
    /\ (forall tab, In tab tabs -> usable tab = true ->
          exists g, In g (groups response) /\ In tab (AIService.tabs g)
                    /\ forall g', In g' (groups response) ->
                         In tab (AIService.tabs g') -> g' = g)
    /\ (forall g tab, In g (groups response) -> In tab (AIService.tabs g) ->
          In tab tabs /\ usable tab = true).
Proof.
  intros Htabs.
  destruct (createFallbackGrouping_returns host tabs Htabs) as [r Hreturn].
  destruct (createFallbackGrouping_partition host tabs r Hreturn)
    as (response & -> & Hnodup & Hgroups & Hplaced).
  exists response. split; [exact Hreturn|]. split; [exact Hnodup|].
  split; [exact Hgroups|]. split.
  - intros tab Htab Husable.
    destruct (Hplaced tab Htab Husable) as (c & g & _ & Hg & _ & Hin).
    exists g. split; [exact Hg|]. split; [exact Hin|].
    intros g' Hg' Hin'.
    destruct (createFallbackGrouping_disjoint host tabs response Hreturn g tab Hg Hin)
      as (_ & _ & Honly).
    apply Honly; assumption.
  - intros g tab Hg Hin.
    destruct (createFallbackGrouping_disjoint host tabs response Hreturn g tab Hg Hin)
      as (Htab & Husable & _).
    split; assumption.
Qed.

End Fallback.

Definition news_tab : value :=
  VObj [("id", VNum 8); ("title", VStr "Example Domain");
        ("url", VStr "https://example.org/a")].

Definition blank_tab : value :=
  VObj [("id", VNum 9); ("title", VStr ""); ("url", VStr "https://example.org/b")].

Lemma createFallbackGrouping_groups_every_tab_witness :
  let host := browser [("https://example.org/a", "example.org")] None offline in
  let tabs := [CategoryFacts.github_tab; blank_tab; news_tab] in
  exists response,
    createFallbackGrouping host (VArr tabs) = Normal [response]
    /\ map subject (groups response)
       = [VStr "Development & Documentation"; VStr "example.org"]
    /\ exists g, In g (groups response) /\ In news_tab (AIService.tabs g).
Proof.
  intros host tabs.
  destruct (createFallbackGrouping_groups_every_tab host tabs)
    as (response & Hreturn & _ & _ & Hplaced & _).
  { intros tab [<- | [<- | [<- | []]]] Husable.
    - eexists. split; reflexivity.
    - discriminate Husable.
    - eexists. split; reflexivity. }
  exists response. split; [exact Hreturn|]. split.
  - vm_compute in Hreturn. injection Hreturn as <-. reflexivity.
  - destruct (Hplaced news_tab) as (g & Hg & Hin & _).
    + right. right. left. reflexivity.
    + reflexivity.
    + exists g. split; assumption.
Defined.

End FallbackFacts.

(** ** AIService: what [analyzeTabs] sends and what it leaves in storage *)

Module RequestFacts.
Import AIService StorageFacts ApiKeyFacts AnalyzeFacts Scenario.
Local Open Scope list_scope.

(** An object with the properties [id], [title] and [url], and no other. *)
Definition summary (v : value) : Prop :=
  exists id title url, v = VObj [("id", id); ("title", title); ("url", url)].

Lemma mapTab_summary tab : summary (mapTab tab).
Proof. unfold mapTab, summary. destruct (negb (truthy tab)); eauto. Qed.

Section Request.
Context (host : Host).

Lemma getApiKey_store s :
  store (snd (getApiKey host s)) = store s
  \/ store (snd (getApiKey host s)) = delete KEY (store s).
Proof.
  rewrite getApiKey_spec. cbn zeta.
  destruct (fst (StorageService.getSetting host KEY s)) as [v|e]; [|left; reflexivity].
  destruct v as [| |b|n|k|xs|ps|nm]; try (left; reflexivity).
  destruct k as [|c k']; [left; reflexivity|].
  destruct (validFormat (String c k')); [left; reflexivity|].
  unfold StorageService.area_remove.
  destruct (lastError host _ _); [left | right]; reflexivity.
Qed.

(** The trace and the storage after [analyzeTabs] on an array, from those
    after [getApiKey]. *)
Lemma analyzeTabs_after items s :
  let s1 := snd (getApiKey host s) in
  let s' := snd (analyzeTabs host (VArr items) s) in
  store s' = store s1
  /\ (trace s' = trace s1
      \/ exists key extra,
           fst (getApiKey host s) = Normal key
           /\ truthy key = true
           /\ trace s' = trace s1 ++ Fetch OPENAI_URL key (map mapTab items) :: extra
           /\ (extra = [] \/ extra = [ResponseJson] \/ extra = [ResponseText])).
Proof.
  cbv zeta. rewrite analyzeTabs_run.
  destruct (getApiKey host s) as [[key|e] s1]; cbn [fst snd]; [|auto].
  destruct (truthy key) eqn:Hkey; [|auto]. cbn zeta.
  destruct (fetch host s1 OPENAI_URL key (map mapTab items)) as [response|e].
  - destruct (ok response); cbn [snd store trace record_call];
      (split; [reflexivity|]); right; exists key; eexists;
      (split; [reflexivity|]); (split; [exact Hkey|]);
      rewrite <- app_assoc; (split; [reflexivity|]); auto.
  - cbn [snd store trace record_call].
    split; [reflexivity|]. right. exists key, []. auto.
Qed.

(** What [analyzeTabs] sends: every request it makes goes to the
    chat-completions URL, bears the key [getApiKey] has just returned, and
    lists the tabs of the argument one by one, in order, each as an object
    with its [id], [title] and [url] and nothing else of the tab. *)
Theorem analyzeTabs_request (tabs : value) (s : State)
    (url : string) (key : value) (payload : list value) :
  In (Fetch url key payload) (trace (snd (analyzeTabs host tabs s))) ->
  In (Fetch url key payload) (trace s)
  \/ (url = OPENAI_URL
      /\ fst (getApiKey host s) = Normal key
      /\ truthy key = true
      /\ exists items,
           tabs = VArr items
           /\ payload = map mapTab items
           /\ List.length payload = List.length items
           /\ Forall summary payload).
Proof.
  destruct tabs as [| |b|n|k|items|ps|nm]; try (intros H; left; exact H).
  destruct (analyzeTabs_after items s) as [_ Htrace].
  assert (Hkey : forall c, In c (trace (snd (getApiKey host s))) ->
                   In c (trace s) \/ c = StorageGet KEY \/ c = StorageRemove KEY).
  { intros c Hc. destruct (getApiKey_trace host s) as [Ht | Ht];
      rewrite Ht in Hc; apply in_app_or in Hc as [Hc | Hc]; auto.
    - destruct Hc as [<- | []]. auto.
    - destruct Hc as [<- | [<- | []]]; auto. }
  intros Hsent. destruct Htrace as [Ht | (key' & extra & Hreturned & Htruthy & Ht & Hextra)];
    rewrite Ht in Hsent.
  - apply Hkey in Hsent as [H | [H | H]]; [left; exact H | discriminate H | discriminate H].
  - apply in_app_or in Hsent as [Hsent | [Hsent | Hsent]].
    + apply Hkey in Hsent as [H | [H | H]];
        [left; exact H | discriminate H | discriminate H].
    + injection Hsent as <- <- <-. right.
      split; [reflexivity|]. split; [exact Hreturned|]. split; [exact Htruthy|].
      exists items. split; [reflexivity|]. split; [reflexivity|].
      split; [apply length_map|].
      apply Forall_forall. intros v Hv.
      apply list_elem_of_In, in_map_iff in Hv as (tab & <- & _).
      apply mapTab_summary.
    + exfalso. destruct Hextra as [-> | [-> | ->]]; [destruct Hsent | |];
        destruct Hsent as [H | []]; discriminate H.
Qed.

(** What [analyzeTabs] leaves in storage: it writes nothing. The one change
    it can make is the removal of a malformed key by [getApiKey]; every
    other setting stays as it is, and so does a key of the expected form. *)
Theorem analyzeTabs_storage (tabs : value) (s : State) :
  let s' := snd (analyzeTabs host tabs s) in
  (store s' = store s \/ store s' = delete KEY (store s))
  /\ (forall k, k <> KEY -> store s' !! k = store s !! k)
  /\ (forall k, store s !! KEY = Some (VStr k) -> validFormat k = true ->
        store s' = store s).
Proof.
  cbv zeta.
  assert (Hstore : store (snd (analyzeTabs host tabs s)) = store (snd (getApiKey host s))
                   \/ store (snd (analyzeTabs host tabs s)) = store s).
  { destruct tabs as [| |b|n|k|items|ps|nm]; try (right; reflexivity).
    left. apply (analyzeTabs_after items s). }
  split; [|split].
  - destruct Hstore as [-> | ->]; [apply getApiKey_store | left; reflexivity].
  - intros k Hk. destruct Hstore as [-> | ->]; [|reflexivity].
    destruct (getApiKey_store s) as [-> | ->]; [reflexivity|].
    apply lookup_delete_ne. congruence.
  - intros k Hstored Hvalid. destruct Hstore as [-> | ->]; [|reflexivity].
    rewrite getApiKey_spec, getSetting_spec. cbn [fst].
    destruct (lastError host s (StorageGet KEY)); [reflexivity|].
    unfold reading. rewrite Hstored.
    destruct k as [|c k']; [reflexivity|]. rewrite Hvalid. reflexivity.
Qed.

End Request.

Lemma analyzeTabs_request_witness :
  let host := browser [] None (FallbackDefect.answer (VStr "I cannot group these tabs.")) in
  let tabs := VArr [CategoryFacts.github_tab] in
  let sent := Fetch OPENAI_URL (VStr FallbackDefect.VALID_KEY)
                [VObj [("id", VNum 7); ("title", VStr "GitHub - Pull Requests");
                       ("url", VStr "https://GitHub.com/pulls")]] in
  In sent (trace (snd (analyzeTabs host tabs FallbackDefect.configured)))
  /\ (In sent (trace FallbackDefect.configured)
      \/ (OPENAI_URL = OPENAI_URL
          /\ fst (getApiKey host FallbackDefect.configured)
             = Normal (VStr FallbackDefect.VALID_KEY)
          /\ truthy (VStr FallbackDefect.VALID_KEY) = true
          /\ exists items,
               tabs = VArr items
               /\ [VObj [("id", VNum 7); ("title", VStr "GitHub - Pull Requests");
                         ("url", VStr "https://GitHub.com/pulls")]]
                  = map mapTab items
               /\ 1%nat = List.length items
               /\ Forall summary
                    [VObj [("id", VNum 7); ("title", VStr "GitHub - Pull Requests");
                           ("url", VStr "https://GitHub.com/pulls")]])).
Proof.
  intros host tabs sent.
  assert (Hsent : In sent (trace (snd (analyzeTabs host tabs FallbackDefect.configured)))).
  { vm_compute. right. left. reflexivity. }
  split; [exact Hsent|].
  apply (analyzeTabs_request host tabs FallbackDefect.configured _ _ _ Hsent).
Defined.

Lemma analyzeTabs_storage_witness :
  let host := browser [] None (FallbackDefect.answer (VStr "I cannot group these tabs.")) in
  let tabs := VArr [CategoryFacts.github_tab] in
  store (snd (analyzeTabs host tabs FallbackDefect.configured))
  = store FallbackDefect.configured.
Proof.
  intros host tabs.
  destruct (analyzeTabs_storage host tabs FallbackDefect.configured)
    as (_ & _ & Hkept).
  apply (Hkept FallbackDefect.VALID_KEY); reflexivity.
Defined.

End RequestFacts.
